(** * HtmlParser: HTML <-> intermediate document, a shallow embedding

    The development follows [src/index.ts].  ECMAScript values are modelled
    as the language defines them:

    - a string is its sequence of UTF-16 code units ([jsstring]);
    - a number is an IEEE 754 binary64 value (Rocq's primitive [float]),
      so [NaN], the infinities and the two zeros are all present;
    - [undefined]/[null] results are [option].

    The first part ([Module JS]) models the built-ins the source calls
    ([String.prototype.trim], [Number], [Math.round], template-literal
    number printing, [TextDecoder], ...).  The second part is the source
    itself, function by function, under the source's names. *)

From Stdlib Require Import ZArith NArith QArith Qround List Bool String Ascii.
From Stdlib Require Import Lia DecimalN.
From Stdlib Require Import Floats.PrimFloat Floats.SpecFloat Floats.FloatOps.
From Stdlib Require Import Floats.FloatAxioms.
Import ListNotations.
Close Scope Q_scope.

Set Warnings "-inexact-float,-register-all".

(* ================================================================== *)
(** * ECMAScript built-ins *)
(* ================================================================== *)

Module JS.

Local Open Scope N_scope.

(** ** Strings: sequences of UTF-16 code units *)

Definition codeUnit := N.
Definition jsstring := list codeUnit.

Definition cu (a : ascii) : codeUnit := N_of_ascii a.

Fixpoint string_eqb (s t : jsstring) : bool :=
  match s, t with
  | [], [] => true
  | a :: s', b :: t' => N.eqb a b && string_eqb s' t'
  | _, _ => false
  end.

(** *** [TextDecoder('utf-8')] (WHATWG Encoding, non-fatal mode)

    The decoder is the state machine of the Encoding standard: malformed
    sequences produce U+FFFD and decoding never throws; a leading byte
    order mark is dropped. *)

Record utf8_state := mkUtf8 {
  code_point : N;
  bytes_seen : N;
  bytes_needed : N;
  lower_boundary : N;
  upper_boundary : N
}.

Definition utf8_init : utf8_state := mkUtf8 0 0 0 0x80 0xBF.

Definition between (lo hi b : N) : bool := N.leb lo b && N.leb b hi.

(** The handler when no continuation byte is pending. *)
Definition utf8_lead (b : N) : utf8_state * list N :=
  if N.leb b 0x7F then (utf8_init, [b])
  else if between 0xC2 0xDF b then
    (mkUtf8 (N.land b 0x1F) 0 1 0x80 0xBF, [])
  else if between 0xE0 0xEF b then
    (mkUtf8 (N.land b 0xF) 0 2
            (if N.eqb b 0xE0 then 0xA0 else 0x80)
            (if N.eqb b 0xED then 0x9F else 0xBF), [])
  else if between 0xF0 0xF4 b then
    (mkUtf8 (N.land b 0x7) 0 3
            (if N.eqb b 0xF0 then 0x90 else 0x80)
            (if N.eqb b 0xF4 then 0x8F else 0xBF), [])
  else (utf8_init, [0xFFFD]).

Definition utf8_step (st : utf8_state) (b : N) : utf8_state * list N :=
  if N.eqb (bytes_needed st) 0 then utf8_lead b
  else if negb (between (lower_boundary st) (upper_boundary st) b) then
    (* the byte is put back and read again from the initial state *)
    let '(st', out) := utf8_lead b in (st', 0xFFFD :: out)
  else
    let cp := N.lor (N.shiftl (code_point st) 6) (N.land b 0x3F) in
    let seen := N.succ (bytes_seen st) in
    if N.eqb seen (bytes_needed st) then (utf8_init, [cp])
    else (mkUtf8 cp seen (bytes_needed st) 0x80 0xBF, []).

Fixpoint utf8_run (st : utf8_state) (bytes : list N) : list N :=
  match bytes with
  | [] => if N.eqb (bytes_needed st) 0 then [] else [0xFFFD]
  | b :: rest =>
      let '(st', out) := utf8_step st b in out ++ utf8_run st' rest
  end.

(** A code point as one or two UTF-16 code units. *)
Definition utf16_units (cp : N) : jsstring :=
  if N.ltb cp 0x10000 then [cp]
  else let c := (cp - 0x10000)%N in
       [(0xD800 + N.shiftr c 10)%N; (0xDC00 + N.land c 0x3FF)%N].

Definition strip_bom (bytes : list N) : list N :=
  match bytes with
  | 0xEF%N :: 0xBB%N :: 0xBF%N :: rest => rest
  | _ => bytes
  end.

Definition TextDecoder_decode (bytes : list N) : jsstring :=
  flat_map utf16_units (utf8_run utf8_init (strip_bom bytes)).

(** The UTF-8 bytes of a source-text literal. *)
Definition utf8_bytes (s : string) : list N :=
  map Byte.to_N (list_byte_of_string s).

(** A string literal of the source as a JavaScript string.  (A literal
    never starts with a byte order mark, so none is stripped.) *)
Definition js (s : string) : jsstring :=
  flat_map utf16_units (utf8_run utf8_init (utf8_bytes s)).

(** *** [TextEncoder.encode]: the UTF-8 bytes of a string (an unpaired
    surrogate is written as U+FFFD). *)

Definition isHighSurrogate (c : codeUnit) : bool := between 0xD800 0xDBFF c.
Definition isLowSurrogate (c : codeUnit) : bool := between 0xDC00 0xDFFF c.

Fixpoint code_points (s : jsstring) : list N :=
  match s with
  | [] => []
  | a :: r =>
      if isHighSurrogate a then
        match r with
        | b :: r' =>
            if isLowSurrogate b
            then (0x10000 + N.shiftl (a - 0xD800) 10 + (b - 0xDC00))
                 :: code_points r'
            else 0xFFFD :: code_points r
        | [] => [0xFFFD]
        end
      else if isLowSurrogate a then 0xFFFD :: code_points r
      else a :: code_points r
  end.

Definition utf8_of_code_point (cp : N) : list N :=
  if N.ltb cp 0x80 then [cp]
  else if N.ltb cp 0x800 then
    [N.lor 0xC0 (N.shiftr cp 6); N.lor 0x80 (N.land cp 0x3F)]
  else if N.ltb cp 0x10000 then
    [N.lor 0xE0 (N.shiftr cp 12);
     N.lor 0x80 (N.land (N.shiftr cp 6) 0x3F);
     N.lor 0x80 (N.land cp 0x3F)]
  else
    [N.lor 0xF0 (N.shiftr cp 18);
     N.lor 0x80 (N.land (N.shiftr cp 12) 0x3F);
     N.lor 0x80 (N.land (N.shiftr cp 6) 0x3F);
     N.lor 0x80 (N.land cp 0x3F)].

Definition TextEncoder_encode (s : jsstring) : list N :=
  flat_map utf8_of_code_point (code_points s).

(** *** White space ([WhiteSpace] and [LineTerminator] of ECMA-262),
    the set [String.prototype.trim] strips and [\s] matches. *)

Definition isWhiteSpace (c : codeUnit) : bool :=
  between 0x09 0x0D c || N.eqb c 0x20 || N.eqb c 0xA0 || N.eqb c 0x1680
  || between 0x2000 0x200A c || N.eqb c 0x2028 || N.eqb c 0x2029
  || N.eqb c 0x202F || N.eqb c 0x205F || N.eqb c 0x3000 || N.eqb c 0xFEFF.

Fixpoint trimStart (s : jsstring) : jsstring :=
  match s with
  | c :: s' => if isWhiteSpace c then trimStart s' else s
  | [] => []
  end.

Definition trimEnd (s : jsstring) : jsstring := rev (trimStart (rev s)).

Definition trim (s : jsstring) : jsstring := trimEnd (trimStart s).

(** *** Searching *)

Fixpoint startsWith (p s : jsstring) : bool :=
  match p, s with
  | [], _ => true
  | a :: p', b :: s' => N.eqb a b && startsWith p' s'
  | _ :: _, [] => false
  end.

Definition endsWith (s p : jsstring) : bool := startsWith (rev p) (rev s).

(** [s.indexOf(c)] for a one-unit pattern: the index, or [-1]. *)
Fixpoint indexOf_from (s : jsstring) (c : codeUnit) (i : Z) : Z :=
  match s with
  | [] => (-1)%Z
  | a :: s' => if N.eqb a c then i else indexOf_from s' c (i + 1)%Z
  end.

Definition indexOf (s : jsstring) (c : codeUnit) : Z := indexOf_from s c 0%Z.

(** [s.slice(a, b)] and [s.slice(a)] for in-range, non-negative indices
    (the only way the source calls them). *)
Definition slice (s : jsstring) (a b : Z) : jsstring :=
  firstn (Z.to_nat (b - a)) (skipn (Z.to_nat a) s).

Definition slice_from (s : jsstring) (a : Z) : jsstring :=
  skipn (Z.to_nat a) s.

(** [s.includes(p)]. *)
Fixpoint includes (s p : jsstring) : bool :=
  startsWith p s ||
  match s with
  | [] => false
  | _ :: s' => includes s' p
  end.

(** [s.split(c)] for a one-unit separator. *)
Fixpoint split_acc (s : jsstring) (c : codeUnit) (cur : jsstring)
  : list jsstring :=
  match s with
  | [] => [rev cur]
  | a :: s' =>
      if N.eqb a c then rev cur :: split_acc s' c []
      else split_acc s' c (a :: cur)
  end.

Definition split (s : jsstring) (c : codeUnit) : list jsstring :=
  split_acc s c [].

(** [s.replace(p, r)] with a string pattern: the first occurrence only. *)
Fixpoint replace_first (s p r : jsstring) : jsstring :=
  if startsWith p s then r ++ skipn (List.length p) s
  else match s with
       | [] => []
       | a :: s' => a :: replace_first s' p r
       end.

(** [s.replace(/c/g, r)] for a one-unit pattern: every occurrence. *)
Definition replace_all (s : jsstring) (c : codeUnit) (r : jsstring)
  : jsstring :=
  flat_map (fun a => if N.eqb a c then r else [a]) s.

(** The lower-case form of one ASCII letter, as [StringToNumber] and a
    regular expression's [i] flag take it. *)
Definition lowerUnit (c : codeUnit) : codeUnit :=
  if between 0x41 0x5A c then (c + 0x20)%N else c.

(** *** [String.prototype.toLowerCase]

    The string is read as code points (an unpaired surrogate stands for
    itself), each is replaced by its lower-case mapping in the Unicode
    Character Database, and the result is written back as code units.
    The tables are those of Unicode 14.0: the simple mappings of
    [UnicodeData.txt], the two language-independent rules of
    [SpecialCasing.txt] (U+0130 and the final sigma), and the properties
    [Cased] and [Case_Ignorable] of [DerivedCoreProperties.txt]. *)

(** Every [range_every]-th code point from [range_first] to [range_last]
    maps to itself plus [range_shift]. *)
Record caseRange := Shift {
  range_first : N; range_last : N; range_every : N; range_shift : Z
}.

Definition Lowercase_Mapping : list caseRange :=
  [
  Shift 0x41 0x5A 1 32; Shift 0xC0 0xD6 1 32; Shift 0xD8 0xDE 1 32;
  Shift 0x100 0x12E 2 1; Shift 0x132 0x136 2 1; Shift 0x139 0x147 2 1;
  Shift 0x14A 0x176 2 1; Shift 0x178 0x178 1 (-121); Shift 0x179 0x17D 2 1;
  Shift 0x181 0x181 1 210; Shift 0x182 0x184 2 1; Shift 0x186 0x186 1 206;
  Shift 0x187 0x187 1 1; Shift 0x189 0x18A 1 205; Shift 0x18B 0x18B 1 1;
  Shift 0x18E 0x18E 1 79; Shift 0x18F 0x18F 1 202; Shift 0x190 0x190 1 203;
  Shift 0x191 0x191 1 1; Shift 0x193 0x193 1 205; Shift 0x194 0x194 1 207;
  Shift 0x196 0x196 1 211; Shift 0x197 0x197 1 209; Shift 0x198 0x198 1 1;
  Shift 0x19C 0x19C 1 211; Shift 0x19D 0x19D 1 213; Shift 0x19F 0x19F 1 214;
  Shift 0x1A0 0x1A4 2 1; Shift 0x1A6 0x1A6 1 218; Shift 0x1A7 0x1A7 1 1;
  Shift 0x1A9 0x1A9 1 218; Shift 0x1AC 0x1AC 1 1; Shift 0x1AE 0x1AE 1 218;
  Shift 0x1AF 0x1AF 1 1; Shift 0x1B1 0x1B2 1 217; Shift 0x1B3 0x1B5 2 1;
  Shift 0x1B7 0x1B7 1 219; Shift 0x1B8 0x1B8 1 1; Shift 0x1BC 0x1BC 1 1;
  Shift 0x1C4 0x1C4 1 2; Shift 0x1C5 0x1C5 1 1; Shift 0x1C7 0x1C7 1 2;
  Shift 0x1C8 0x1C8 1 1; Shift 0x1CA 0x1CA 1 2; Shift 0x1CB 0x1DB 2 1;
  Shift 0x1DE 0x1EE 2 1; Shift 0x1F1 0x1F1 1 2; Shift 0x1F2 0x1F4 2 1;
  Shift 0x1F6 0x1F6 1 (-97); Shift 0x1F7 0x1F7 1 (-56);
  Shift 0x1F8 0x21E 2 1; Shift 0x220 0x220 1 (-130); Shift 0x222 0x232 2 1;
  Shift 0x23A 0x23A 1 10795; Shift 0x23B 0x23B 1 1;
  Shift 0x23D 0x23D 1 (-163); Shift 0x23E 0x23E 1 10792;
  Shift 0x241 0x241 1 1; Shift 0x243 0x243 1 (-195); Shift 0x244 0x244 1 69;
  Shift 0x245 0x245 1 71; Shift 0x246 0x24E 2 1; Shift 0x370 0x372 2 1;
  Shift 0x376 0x376 1 1; Shift 0x37F 0x37F 1 116; Shift 0x386 0x386 1 38;
  Shift 0x388 0x38A 1 37; Shift 0x38C 0x38C 1 64; Shift 0x38E 0x38F 1 63;
  Shift 0x391 0x3A1 1 32; Shift 0x3A3 0x3AB 1 32; Shift 0x3CF 0x3CF 1 8;
  Shift 0x3D8 0x3EE 2 1; Shift 0x3F4 0x3F4 1 (-60); Shift 0x3F7 0x3F7 1 1;
  Shift 0x3F9 0x3F9 1 (-7); Shift 0x3FA 0x3FA 1 1;
  Shift 0x3FD 0x3FF 1 (-130); Shift 0x400 0x40F 1 80;
  Shift 0x410 0x42F 1 32; Shift 0x460 0x480 2 1; Shift 0x48A 0x4BE 2 1;
  Shift 0x4C0 0x4C0 1 15; Shift 0x4C1 0x4CD 2 1; Shift 0x4D0 0x52E 2 1;
  Shift 0x531 0x556 1 48; Shift 0x10A0 0x10C5 1 7264;
  Shift 0x10C7 0x10C7 1 7264; Shift 0x10CD 0x10CD 1 7264;
  Shift 0x13A0 0x13EF 1 38864; Shift 0x13F0 0x13F5 1 8;
  Shift 0x1C90 0x1CBA 1 (-3008); Shift 0x1CBD 0x1CBF 1 (-3008);
  Shift 0x1E00 0x1E94 2 1; Shift 0x1E9E 0x1E9E 1 (-7615);
  Shift 0x1EA0 0x1EFE 2 1; Shift 0x1F08 0x1F0F 1 (-8);
  Shift 0x1F18 0x1F1D 1 (-8); Shift 0x1F28 0x1F2F 1 (-8);
  Shift 0x1F38 0x1F3F 1 (-8); Shift 0x1F48 0x1F4D 1 (-8);
  Shift 0x1F59 0x1F5F 2 (-8); Shift 0x1F68 0x1F6F 1 (-8);
  Shift 0x1F88 0x1F8F 1 (-8); Shift 0x1F98 0x1F9F 1 (-8);
  Shift 0x1FA8 0x1FAF 1 (-8); Shift 0x1FB8 0x1FB9 1 (-8);
  Shift 0x1FBA 0x1FBB 1 (-74); Shift 0x1FBC 0x1FBC 1 (-9);
  Shift 0x1FC8 0x1FCB 1 (-86); Shift 0x1FCC 0x1FCC 1 (-9);
  Shift 0x1FD8 0x1FD9 1 (-8); Shift 0x1FDA 0x1FDB 1 (-100);
  Shift 0x1FE8 0x1FE9 1 (-8); Shift 0x1FEA 0x1FEB 1 (-112);
  Shift 0x1FEC 0x1FEC 1 (-7); Shift 0x1FF8 0x1FF9 1 (-128);
  Shift 0x1FFA 0x1FFB 1 (-126); Shift 0x1FFC 0x1FFC 1 (-9);
  Shift 0x2126 0x2126 1 (-7517); Shift 0x212A 0x212A 1 (-8383);
  Shift 0x212B 0x212B 1 (-8262); Shift 0x2132 0x2132 1 28;
  Shift 0x2160 0x216F 1 16; Shift 0x2183 0x2183 1 1;
  Shift 0x24B6 0x24CF 1 26; Shift 0x2C00 0x2C2F 1 48;
  Shift 0x2C60 0x2C60 1 1; Shift 0x2C62 0x2C62 1 (-10743);
  Shift 0x2C63 0x2C63 1 (-3814); Shift 0x2C64 0x2C64 1 (-10727);
  Shift 0x2C67 0x2C6B 2 1; Shift 0x2C6D 0x2C6D 1 (-10780);
  Shift 0x2C6E 0x2C6E 1 (-10749); Shift 0x2C6F 0x2C6F 1 (-10783);
  Shift 0x2C70 0x2C70 1 (-10782); Shift 0x2C72 0x2C72 1 1;
  Shift 0x2C75 0x2C75 1 1; Shift 0x2C7E 0x2C7F 1 (-10815);
  Shift 0x2C80 0x2CE2 2 1; Shift 0x2CEB 0x2CED 2 1; Shift 0x2CF2 0x2CF2 1 1;
  Shift 0xA640 0xA66C 2 1; Shift 0xA680 0xA69A 2 1; Shift 0xA722 0xA72E 2 1;
  Shift 0xA732 0xA76E 2 1; Shift 0xA779 0xA77B 2 1;
  Shift 0xA77D 0xA77D 1 (-35332); Shift 0xA77E 0xA786 2 1;
  Shift 0xA78B 0xA78B 1 1; Shift 0xA78D 0xA78D 1 (-42280);
  Shift 0xA790 0xA792 2 1; Shift 0xA796 0xA7A8 2 1;
  Shift 0xA7AA 0xA7AA 1 (-42308); Shift 0xA7AB 0xA7AB 1 (-42319);
  Shift 0xA7AC 0xA7AC 1 (-42315); Shift 0xA7AD 0xA7AD 1 (-42305);
  Shift 0xA7AE 0xA7AE 1 (-42308); Shift 0xA7B0 0xA7B0 1 (-42258);
  Shift 0xA7B1 0xA7B1 1 (-42282); Shift 0xA7B2 0xA7B2 1 (-42261);
  Shift 0xA7B3 0xA7B3 1 928; Shift 0xA7B4 0xA7C2 2 1;
  Shift 0xA7C4 0xA7C4 1 (-48); Shift 0xA7C5 0xA7C5 1 (-42307);
  Shift 0xA7C6 0xA7C6 1 (-35384); Shift 0xA7C7 0xA7C9 2 1;
  Shift 0xA7D0 0xA7D0 1 1; Shift 0xA7D6 0xA7D8 2 1; Shift 0xA7F5 0xA7F5 1 1;
  Shift 0xFF21 0xFF3A 1 32; Shift 0x10400 0x10427 1 40;
  Shift 0x104B0 0x104D3 1 40; Shift 0x10570 0x1057A 1 39;
  Shift 0x1057C 0x1058A 1 39; Shift 0x1058C 0x10592 1 39;
  Shift 0x10594 0x10595 1 39; Shift 0x10C80 0x10CB2 1 64;
  Shift 0x118A0 0x118BF 1 32; Shift 0x16E40 0x16E5F 1 32;
  Shift 0x1E900 0x1E921 1 34 ].

Definition Cased_ranges : list (N * N) :=
  [
  (0x41, 0x5A); (0x61, 0x7A); (0xAA, 0xAA); (0xB5, 0xB5); (0xBA, 0xBA);
  (0xC0, 0xD6); (0xD8, 0xF6); (0xF8, 0x1BA); (0x1BC, 0x1BF); (0x1C4, 0x293);
  (0x295, 0x2B8); (0x2C0, 0x2C1); (0x2E0, 0x2E4); (0x345, 0x345);
  (0x370, 0x373); (0x376, 0x377); (0x37A, 0x37D); (0x37F, 0x37F);
  (0x386, 0x386); (0x388, 0x38A); (0x38C, 0x38C); (0x38E, 0x3A1);
  (0x3A3, 0x3F5); (0x3F7, 0x481); (0x48A, 0x52F); (0x531, 0x556);
  (0x560, 0x588); (0x10A0, 0x10C5); (0x10C7, 0x10C7); (0x10CD, 0x10CD);
  (0x10D0, 0x10FA); (0x10FD, 0x10FF); (0x13A0, 0x13F5); (0x13F8, 0x13FD);
  (0x1C80, 0x1C88); (0x1C90, 0x1CBA); (0x1CBD, 0x1CBF); (0x1D00, 0x1DBF);
  (0x1E00, 0x1F15); (0x1F18, 0x1F1D); (0x1F20, 0x1F45); (0x1F48, 0x1F4D);
  (0x1F50, 0x1F57); (0x1F59, 0x1F59); (0x1F5B, 0x1F5B); (0x1F5D, 0x1F5D);
  (0x1F5F, 0x1F7D); (0x1F80, 0x1FB4); (0x1FB6, 0x1FBC); (0x1FBE, 0x1FBE);
  (0x1FC2, 0x1FC4); (0x1FC6, 0x1FCC); (0x1FD0, 0x1FD3); (0x1FD6, 0x1FDB);
  (0x1FE0, 0x1FEC); (0x1FF2, 0x1FF4); (0x1FF6, 0x1FFC); (0x2071, 0x2071);
  (0x207F, 0x207F); (0x2090, 0x209C); (0x2102, 0x2102); (0x2107, 0x2107);
  (0x210A, 0x2113); (0x2115, 0x2115); (0x2119, 0x211D); (0x2124, 0x2124);
  (0x2126, 0x2126); (0x2128, 0x2128); (0x212A, 0x212D); (0x212F, 0x2134);
  (0x2139, 0x2139); (0x213C, 0x213F); (0x2145, 0x2149); (0x214E, 0x214E);
  (0x2160, 0x217F); (0x2183, 0x2184); (0x24B6, 0x24E9); (0x2C00, 0x2CE4);
  (0x2CEB, 0x2CEE); (0x2CF2, 0x2CF3); (0x2D00, 0x2D25); (0x2D27, 0x2D27);
  (0x2D2D, 0x2D2D); (0xA640, 0xA66D); (0xA680, 0xA69D); (0xA722, 0xA787);
  (0xA78B, 0xA78E); (0xA790, 0xA7CA); (0xA7D0, 0xA7D1); (0xA7D3, 0xA7D3);
  (0xA7D5, 0xA7D9); (0xA7F5, 0xA7F6); (0xA7F8, 0xA7FA); (0xAB30, 0xAB5A);
  (0xAB5C, 0xAB68); (0xAB70, 0xABBF); (0xFB00, 0xFB06); (0xFB13, 0xFB17);
  (0xFF21, 0xFF3A); (0xFF41, 0xFF5A); (0x10400, 0x1044F);
  (0x104B0, 0x104D3); (0x104D8, 0x104FB); (0x10570, 0x1057A);
  (0x1057C, 0x1058A); (0x1058C, 0x10592); (0x10594, 0x10595);
  (0x10597, 0x105A1); (0x105A3, 0x105B1); (0x105B3, 0x105B9);
  (0x105BB, 0x105BC); (0x10780, 0x10780); (0x10783, 0x10785);
  (0x10787, 0x107B0); (0x107B2, 0x107BA); (0x10C80, 0x10CB2);
  (0x10CC0, 0x10CF2); (0x118A0, 0x118DF); (0x16E40, 0x16E7F);
  (0x1D400, 0x1D454); (0x1D456, 0x1D49C); (0x1D49E, 0x1D49F);
  (0x1D4A2, 0x1D4A2); (0x1D4A5, 0x1D4A6); (0x1D4A9, 0x1D4AC);
  (0x1D4AE, 0x1D4B9); (0x1D4BB, 0x1D4BB); (0x1D4BD, 0x1D4C3);
  (0x1D4C5, 0x1D505); (0x1D507, 0x1D50A); (0x1D50D, 0x1D514);
  (0x1D516, 0x1D51C); (0x1D51E, 0x1D539); (0x1D53B, 0x1D53E);
  (0x1D540, 0x1D544); (0x1D546, 0x1D546); (0x1D54A, 0x1D550);
  (0x1D552, 0x1D6A5); (0x1D6A8, 0x1D6C0); (0x1D6C2, 0x1D6DA);
  (0x1D6DC, 0x1D6FA); (0x1D6FC, 0x1D714); (0x1D716, 0x1D734);
  (0x1D736, 0x1D74E); (0x1D750, 0x1D76E); (0x1D770, 0x1D788);
  (0x1D78A, 0x1D7A8); (0x1D7AA, 0x1D7C2); (0x1D7C4, 0x1D7CB);
  (0x1DF00, 0x1DF09); (0x1DF0B, 0x1DF1E); (0x1E900, 0x1E943);
  (0x1F130, 0x1F149); (0x1F150, 0x1F169); (0x1F170, 0x1F189) ].

Definition Case_Ignorable_ranges : list (N * N) :=
  [
  (0x27, 0x27); (0x2E, 0x2E); (0x3A, 0x3A); (0x5E, 0x5E); (0x60, 0x60);
  (0xA8, 0xA8); (0xAD, 0xAD); (0xAF, 0xAF); (0xB4, 0xB4); (0xB7, 0xB8);
  (0x2B0, 0x36F); (0x374, 0x375); (0x37A, 0x37A); (0x384, 0x385);
  (0x387, 0x387); (0x483, 0x489); (0x559, 0x559); (0x55F, 0x55F);
  (0x591, 0x5BD); (0x5BF, 0x5BF); (0x5C1, 0x5C2); (0x5C4, 0x5C5);
  (0x5C7, 0x5C7); (0x5F4, 0x5F4); (0x600, 0x605); (0x610, 0x61A);
  (0x61C, 0x61C); (0x640, 0x640); (0x64B, 0x65F); (0x670, 0x670);
  (0x6D6, 0x6DD); (0x6DF, 0x6E8); (0x6EA, 0x6ED); (0x70F, 0x70F);
  (0x711, 0x711); (0x730, 0x74A); (0x7A6, 0x7B0); (0x7EB, 0x7F5);
  (0x7FA, 0x7FA); (0x7FD, 0x7FD); (0x816, 0x82D); (0x859, 0x85B);
  (0x888, 0x888); (0x890, 0x891); (0x898, 0x89F); (0x8C9, 0x902);
  (0x93A, 0x93A); (0x93C, 0x93C); (0x941, 0x948); (0x94D, 0x94D);
  (0x951, 0x957); (0x962, 0x963); (0x971, 0x971); (0x981, 0x981);
  (0x9BC, 0x9BC); (0x9C1, 0x9C4); (0x9CD, 0x9CD); (0x9E2, 0x9E3);
  (0x9FE, 0x9FE); (0xA01, 0xA02); (0xA3C, 0xA3C); (0xA41, 0xA42);
  (0xA47, 0xA48); (0xA4B, 0xA4D); (0xA51, 0xA51); (0xA70, 0xA71);
  (0xA75, 0xA75); (0xA81, 0xA82); (0xABC, 0xABC); (0xAC1, 0xAC5);
  (0xAC7, 0xAC8); (0xACD, 0xACD); (0xAE2, 0xAE3); (0xAFA, 0xAFF);
  (0xB01, 0xB01); (0xB3C, 0xB3C); (0xB3F, 0xB3F); (0xB41, 0xB44);
  (0xB4D, 0xB4D); (0xB55, 0xB56); (0xB62, 0xB63); (0xB82, 0xB82);
  (0xBC0, 0xBC0); (0xBCD, 0xBCD); (0xC00, 0xC00); (0xC04, 0xC04);
  (0xC3C, 0xC3C); (0xC3E, 0xC40); (0xC46, 0xC48); (0xC4A, 0xC4D);
  (0xC55, 0xC56); (0xC62, 0xC63); (0xC81, 0xC81); (0xCBC, 0xCBC);
  (0xCBF, 0xCBF); (0xCC6, 0xCC6); (0xCCC, 0xCCD); (0xCE2, 0xCE3);
  (0xD00, 0xD01); (0xD3B, 0xD3C); (0xD41, 0xD44); (0xD4D, 0xD4D);
  (0xD62, 0xD63); (0xD81, 0xD81); (0xDCA, 0xDCA); (0xDD2, 0xDD4);
  (0xDD6, 0xDD6); (0xE31, 0xE31); (0xE34, 0xE3A); (0xE46, 0xE4E);
  (0xEB1, 0xEB1); (0xEB4, 0xEBC); (0xEC6, 0xEC6); (0xEC8, 0xECD);
  (0xF18, 0xF19); (0xF35, 0xF35); (0xF37, 0xF37); (0xF39, 0xF39);
  (0xF71, 0xF7E); (0xF80, 0xF84); (0xF86, 0xF87); (0xF8D, 0xF97);
  (0xF99, 0xFBC); (0xFC6, 0xFC6); (0x102D, 0x1030); (0x1032, 0x1037);
  (0x1039, 0x103A); (0x103D, 0x103E); (0x1058, 0x1059); (0x105E, 0x1060);
  (0x1071, 0x1074); (0x1082, 0x1082); (0x1085, 0x1086); (0x108D, 0x108D);
  (0x109D, 0x109D); (0x10FC, 0x10FC); (0x135D, 0x135F); (0x1712, 0x1714);
  (0x1732, 0x1733); (0x1752, 0x1753); (0x1772, 0x1773); (0x17B4, 0x17B5);
  (0x17B7, 0x17BD); (0x17C6, 0x17C6); (0x17C9, 0x17D3); (0x17D7, 0x17D7);
  (0x17DD, 0x17DD); (0x180B, 0x180F); (0x1843, 0x1843); (0x1885, 0x1886);
  (0x18A9, 0x18A9); (0x1920, 0x1922); (0x1927, 0x1928); (0x1932, 0x1932);
  (0x1939, 0x193B); (0x1A17, 0x1A18); (0x1A1B, 0x1A1B); (0x1A56, 0x1A56);
  (0x1A58, 0x1A5E); (0x1A60, 0x1A60); (0x1A62, 0x1A62); (0x1A65, 0x1A6C);
  (0x1A73, 0x1A7C); (0x1A7F, 0x1A7F); (0x1AA7, 0x1AA7); (0x1AB0, 0x1ACE);
  (0x1B00, 0x1B03); (0x1B34, 0x1B34); (0x1B36, 0x1B3A); (0x1B3C, 0x1B3C);
  (0x1B42, 0x1B42); (0x1B6B, 0x1B73); (0x1B80, 0x1B81); (0x1BA2, 0x1BA5);
  (0x1BA8, 0x1BA9); (0x1BAB, 0x1BAD); (0x1BE6, 0x1BE6); (0x1BE8, 0x1BE9);
  (0x1BED, 0x1BED); (0x1BEF, 0x1BF1); (0x1C2C, 0x1C33); (0x1C36, 0x1C37);
  (0x1C78, 0x1C7D); (0x1CD0, 0x1CD2); (0x1CD4, 0x1CE0); (0x1CE2, 0x1CE8);
  (0x1CED, 0x1CED); (0x1CF4, 0x1CF4); (0x1CF8, 0x1CF9); (0x1D2C, 0x1D6A);
  (0x1D78, 0x1D78); (0x1D9B, 0x1DFF); (0x1FBD, 0x1FBD); (0x1FBF, 0x1FC1);
  (0x1FCD, 0x1FCF); (0x1FDD, 0x1FDF); (0x1FED, 0x1FEF); (0x1FFD, 0x1FFE);
  (0x200B, 0x200F); (0x2018, 0x2019); (0x2024, 0x2024); (0x2027, 0x2027);
  (0x202A, 0x202E); (0x2060, 0x2064); (0x2066, 0x206F); (0x2071, 0x2071);
  (0x207F, 0x207F); (0x2090, 0x209C); (0x20D0, 0x20F0); (0x2C7C, 0x2C7D);
  (0x2CEF, 0x2CF1); (0x2D6F, 0x2D6F); (0x2D7F, 0x2D7F); (0x2DE0, 0x2DFF);
  (0x2E2F, 0x2E2F); (0x3005, 0x3005); (0x302A, 0x302D); (0x3031, 0x3035);
  (0x303B, 0x303B); (0x3099, 0x309E); (0x30FC, 0x30FE); (0xA015, 0xA015);
  (0xA4F8, 0xA4FD); (0xA60C, 0xA60C); (0xA66F, 0xA672); (0xA674, 0xA67D);
  (0xA67F, 0xA67F); (0xA69C, 0xA69F); (0xA6F0, 0xA6F1); (0xA700, 0xA721);
  (0xA770, 0xA770); (0xA788, 0xA78A); (0xA7F2, 0xA7F4); (0xA7F8, 0xA7F9);
  (0xA802, 0xA802); (0xA806, 0xA806); (0xA80B, 0xA80B); (0xA825, 0xA826);
  (0xA82C, 0xA82C); (0xA8C4, 0xA8C5); (0xA8E0, 0xA8F1); (0xA8FF, 0xA8FF);
  (0xA926, 0xA92D); (0xA947, 0xA951); (0xA980, 0xA982); (0xA9B3, 0xA9B3);
  (0xA9B6, 0xA9B9); (0xA9BC, 0xA9BD); (0xA9CF, 0xA9CF); (0xA9E5, 0xA9E6);
  (0xAA29, 0xAA2E); (0xAA31, 0xAA32); (0xAA35, 0xAA36); (0xAA43, 0xAA43);
  (0xAA4C, 0xAA4C); (0xAA70, 0xAA70); (0xAA7C, 0xAA7C); (0xAAB0, 0xAAB0);
  (0xAAB2, 0xAAB4); (0xAAB7, 0xAAB8); (0xAABE, 0xAABF); (0xAAC1, 0xAAC1);
  (0xAADD, 0xAADD); (0xAAEC, 0xAAED); (0xAAF3, 0xAAF4); (0xAAF6, 0xAAF6);
  (0xAB5B, 0xAB5F); (0xAB69, 0xAB6B); (0xABE5, 0xABE5); (0xABE8, 0xABE8);
  (0xABED, 0xABED); (0xFB1E, 0xFB1E); (0xFBB2, 0xFBC2); (0xFE00, 0xFE0F);
  (0xFE13, 0xFE13); (0xFE20, 0xFE2F); (0xFE52, 0xFE52); (0xFE55, 0xFE55);
  (0xFEFF, 0xFEFF); (0xFF07, 0xFF07); (0xFF0E, 0xFF0E); (0xFF1A, 0xFF1A);
  (0xFF3E, 0xFF3E); (0xFF40, 0xFF40); (0xFF70, 0xFF70); (0xFF9E, 0xFF9F);
  (0xFFE3, 0xFFE3); (0xFFF9, 0xFFFB); (0x101FD, 0x101FD);
  (0x102E0, 0x102E0); (0x10376, 0x1037A); (0x10780, 0x10785);
  (0x10787, 0x107B0); (0x107B2, 0x107BA); (0x10A01, 0x10A03);
  (0x10A05, 0x10A06); (0x10A0C, 0x10A0F); (0x10A38, 0x10A3A);
  (0x10A3F, 0x10A3F); (0x10AE5, 0x10AE6); (0x10D24, 0x10D27);
  (0x10EAB, 0x10EAC); (0x10F46, 0x10F50); (0x10F82, 0x10F85);
  (0x11001, 0x11001); (0x11038, 0x11046); (0x11070, 0x11070);
  (0x11073, 0x11074); (0x1107F, 0x11081); (0x110B3, 0x110B6);
  (0x110B9, 0x110BA); (0x110BD, 0x110BD); (0x110C2, 0x110C2);
  (0x110CD, 0x110CD); (0x11100, 0x11102); (0x11127, 0x1112B);
  (0x1112D, 0x11134); (0x11173, 0x11173); (0x11180, 0x11181);
  (0x111B6, 0x111BE); (0x111C9, 0x111CC); (0x111CF, 0x111CF);
  (0x1122F, 0x11231); (0x11234, 0x11234); (0x11236, 0x11237);
  (0x1123E, 0x1123E); (0x112DF, 0x112DF); (0x112E3, 0x112EA);
  (0x11300, 0x11301); (0x1133B, 0x1133C); (0x11340, 0x11340);
  (0x11366, 0x1136C); (0x11370, 0x11374); (0x11438, 0x1143F);
  (0x11442, 0x11444); (0x11446, 0x11446); (0x1145E, 0x1145E);
  (0x114B3, 0x114B8); (0x114BA, 0x114BA); (0x114BF, 0x114C0);
  (0x114C2, 0x114C3); (0x115B2, 0x115B5); (0x115BC, 0x115BD);
  (0x115BF, 0x115C0); (0x115DC, 0x115DD); (0x11633, 0x1163A);
  (0x1163D, 0x1163D); (0x1163F, 0x11640); (0x116AB, 0x116AB);
  (0x116AD, 0x116AD); (0x116B0, 0x116B5); (0x116B7, 0x116B7);
  (0x1171D, 0x1171F); (0x11722, 0x11725); (0x11727, 0x1172B);
  (0x1182F, 0x11837); (0x11839, 0x1183A); (0x1193B, 0x1193C);
  (0x1193E, 0x1193E); (0x11943, 0x11943); (0x119D4, 0x119D7);
  (0x119DA, 0x119DB); (0x119E0, 0x119E0); (0x11A01, 0x11A0A);
  (0x11A33, 0x11A38); (0x11A3B, 0x11A3E); (0x11A47, 0x11A47);
  (0x11A51, 0x11A56); (0x11A59, 0x11A5B); (0x11A8A, 0x11A96);
  (0x11A98, 0x11A99); (0x11C30, 0x11C36); (0x11C38, 0x11C3D);
  (0x11C3F, 0x11C3F); (0x11C92, 0x11CA7); (0x11CAA, 0x11CB0);
  (0x11CB2, 0x11CB3); (0x11CB5, 0x11CB6); (0x11D31, 0x11D36);
  (0x11D3A, 0x11D3A); (0x11D3C, 0x11D3D); (0x11D3F, 0x11D45);
  (0x11D47, 0x11D47); (0x11D90, 0x11D91); (0x11D95, 0x11D95);
  (0x11D97, 0x11D97); (0x11EF3, 0x11EF4); (0x13430, 0x13438);
  (0x16AF0, 0x16AF4); (0x16B30, 0x16B36); (0x16B40, 0x16B43);
  (0x16F4F, 0x16F4F); (0x16F8F, 0x16F9F); (0x16FE0, 0x16FE1);
  (0x16FE3, 0x16FE4); (0x1AFF0, 0x1AFF3); (0x1AFF5, 0x1AFFB);
  (0x1AFFD, 0x1AFFE); (0x1BC9D, 0x1BC9E); (0x1BCA0, 0x1BCA3);
  (0x1CF00, 0x1CF2D); (0x1CF30, 0x1CF46); (0x1D167, 0x1D169);
  (0x1D173, 0x1D182); (0x1D185, 0x1D18B); (0x1D1AA, 0x1D1AD);
  (0x1D242, 0x1D244); (0x1DA00, 0x1DA36); (0x1DA3B, 0x1DA6C);
  (0x1DA75, 0x1DA75); (0x1DA84, 0x1DA84); (0x1DA9B, 0x1DA9F);
  (0x1DAA1, 0x1DAAF); (0x1E000, 0x1E006); (0x1E008, 0x1E018);
  (0x1E01B, 0x1E021); (0x1E023, 0x1E024); (0x1E026, 0x1E02A);
  (0x1E130, 0x1E13D); (0x1E2AE, 0x1E2AE); (0x1E2EC, 0x1E2EF);
  (0x1E8D0, 0x1E8D6); (0x1E944, 0x1E94B); (0x1F3FB, 0x1F3FF);
  (0xE0001, 0xE0001); (0xE0020, 0xE007F); (0xE0100, 0xE01EF) ].

Definition in_ranges (ranges : list (N * N)) (cp : N) : bool :=
  existsb (fun r => between (fst r) (snd r) cp) ranges.

Definition Cased : N -> bool := in_ranges Cased_ranges.
Definition Case_Ignorable : N -> bool := in_ranges Case_Ignorable_ranges.

Definition covers (r : caseRange) (cp : N) : bool :=
  between (range_first r) (range_last r) cp
  && N.eqb ((cp - range_first r) mod range_every r) 0.

Definition lowerCodePoint (cp : N) : list N :=
  if N.eqb cp 0x130 then [0x69; 0x307]
  else
    match find (fun r => covers r cp) Lowercase_Mapping with
    | Some r => [Z.to_N (Z.of_N cp + range_shift r)]
    | None => [cp]
    end.

(** [StringToCodePoints]: a surrogate pair is one code point, any other
    code unit is a code point of its own. *)
Fixpoint StringToCodePoints (s : jsstring) : list N :=
  match s with
  | [] => []
  | a :: r =>
      match r with
      | b :: r' =>
          if isHighSurrogate a && isLowSurrogate b
          then (0x10000 + N.shiftl (a - 0xD800) 10 + (b - 0xDC00))
               :: StringToCodePoints r'
          else a :: StringToCodePoints r
      | [] => [a]
      end
  end.

(** Going away from a sigma: the case-ignorable code points are passed
    over, and the first other code point decides, by being cased or not
    (the rule as the engines apply it). *)
Fixpoint reachesCased (cps : list N) : bool :=
  match cps with
  | [] => false
  | c :: r => if Case_Ignorable c then reachesCased r else Cased c
  end.

(** [before] holds the code points already passed, nearest first.  A
    capital sigma is final when a cased letter stands before it and none
    after it. *)
Fixpoint lowerFrom (before cps : list N) : list N :=
  match cps with
  | [] => []
  | c :: r =>
      (if N.eqb c 0x3A3
       then (if reachesCased before && negb (reachesCased r)
             then [0x3C2] else [0x3C3])
       else lowerCodePoint c)
      ++ lowerFrom (c :: before) r
  end.

Definition toLowerCase (s : jsstring) : jsstring :=
  flat_map utf16_units (lowerFrom [] (StringToCodePoints s)).

(** *** Decimal digits *)

Fixpoint uint_units (u : Decimal.uint) : jsstring :=
  match u with
  | Decimal.Nil => []
  | Decimal.D0 r => 0x30 :: uint_units r
  | Decimal.D1 r => 0x31 :: uint_units r
  | Decimal.D2 r => 0x32 :: uint_units r
  | Decimal.D3 r => 0x33 :: uint_units r
  | Decimal.D4 r => 0x34 :: uint_units r
  | Decimal.D5 r => 0x35 :: uint_units r
  | Decimal.D6 r => 0x36 :: uint_units r
  | Decimal.D7 r => 0x37 :: uint_units r
  | Decimal.D8 r => 0x38 :: uint_units r
  | Decimal.D9 r => 0x39 :: uint_units r
  end.

(** The decimal numeral of a natural number, without leading zeros. *)
Definition decimal (n : N) : jsstring := uint_units (N.to_uint n).

Definition zeros (n : nat) : jsstring := repeat 0x30 n.

(** ** Numbers: IEEE 754 binary64 *)

Definition number := float.

Definition isNaN (x : number) : bool := PrimFloat.is_nan x.

(** [ToBoolean] on a number: [0], [-0] and [NaN] are falsy. *)
Definition truthy (x : number) : bool :=
  negb (isNaN x || PrimFloat.is_zero x).

(** The number nearest to an integer (exact below 2^53). *)
Definition of_Z (z : Z) : number :=
  SF2Prim (binary_normalize prec emax z 0 false).

Definition of_nat (n : nat) : number := of_Z (Z.of_nat n).

(** The exact value of a finite non-zero number [±m·2^e]. *)
Definition pow2Q (e : Z) : Q :=
  if Z.leb 0 e then inject_Z (2 ^ e) else (1 # Z.to_pos (2 ^ (- e)))%Q.

Definition valueQ (s : bool) (m : positive) (e : Z) : Q :=
  ((if s then -1 else 1) * (inject_Z (Zpos m) * pow2Q e))%Q.

(** [Math.abs]. *)
Definition Math_abs (x : number) : number := PrimFloat.abs x.

(** [Math.max(a, b)]: [NaN] if either argument is; [+0] above [-0]. *)
Definition Math_max (a b : number) : number :=
  if isNaN a || isNaN b then PrimFloat.nan
  else if PrimFloat.ltb a b then b
  else if PrimFloat.ltb b a then a
  else if PrimFloat.is_zero a && PrimFloat.get_sign a then b
  else a.

(** [Math.round(x)]: the integer nearest to [x], ties towards [+∞]; the
    sign of a zero result is that of [x]. *)
Definition Math_round (x : number) : number :=
  match Prim2SF x with
  | S754_finite s m e =>
      let r := Qfloor (valueQ s m e + (1 # 2))%Q in
      if Z.eqb r 0 then (if s then PrimFloat.neg_zero else PrimFloat.zero)
      else of_Z r
  | _ => x
  end.

(** *** [Number::toString] (radix 10), used by template literals

    ECMA-262: for finite non-zero [x], take integers [n], [k], [s] with
    [k >= 1], [10^(k-1) <= s < 10^k], the number nearest to [s·10^(n-k)]
    being [x], and [k] as small as possible; among several [s] the one
    nearest to [x].  The digits of [s] are then laid out by [n]. *)

Definition pow10Q (n : Z) : Q :=
  if Z.leb 0 n then inject_Z (10 ^ n) else (1 # Z.to_pos (10 ^ (- n)))%Q.

Definition Qlt_bool (a b : Q) : bool := negb (Qle_bool b a).

(** Distance from [m·2^e] down to the next smaller number. *)
Definition gap_below (m : positive) (e : Z) : Q :=
  if Pos.eqb m 4503599627370496 && Z.ltb (-1074) e
  then pow2Q (e - 1) else pow2Q e.

(** [r] rounds (to nearest, ties to even) to the number [m·2^e]. *)
Definition rounds_to (m : positive) (e : Z) (r : Q) : bool :=
  let x := valueQ false m e in
  let lo := (x - gap_below m e / 2)%Q in
  let hi := (x + pow2Q e / 2)%Q in
  if Z.even (Zpos m) then Qle_bool lo r && Qle_bool r hi
  else Qlt_bool lo r && Qlt_bool r hi.

Definition ndigits (z : Z) : Z :=
  Z.of_nat (List.length (decimal (Z.to_N z))).

(** The [n] with [10^(n-1) <= x < 10^n], for [x >= 2^-1074]. *)
Definition magnitude (x : Q) : Z :=
  (ndigits (Qfloor (x * pow10Q 400)%Q) - 400)%Z.

(** The [k]-digit [s] (with its [n]) for which [s·10^(n-k)] rounds to
    [m·2^e], if there is one: the multiple of [10^(n-k)] just below or
    just above [x], the nearer one (the even one on a tie) if both do. *)
Definition candidate (m : positive) (e n k : Z) : option (Z * Z) :=
  let x := valueQ false m e in
  let u := pow10Q (n - k) in
  let lo := Qfloor (x / u)%Q in
  let hi := (lo + 1)%Z in
  let ok_lo := rounds_to m e (inject_Z lo * u)%Q in
  let ok_hi := rounds_to m e (inject_Z hi * u)%Q in
  let d_lo := (x - inject_Z lo * u)%Q in
  let d_hi := (inject_Z hi * u - x)%Q in
  let pick (s : Z) :=
    if Z.eqb s (10 ^ k) then Some ((10 ^ (k - 1))%Z, (n + 1)%Z)
    else Some (s, n) in
  match ok_lo, ok_hi with
  | false, false => None
  | true, false => pick lo
  | false, true => pick hi
  | true, true =>
      if Qlt_bool d_lo d_hi then pick lo
      else if Qlt_bool d_hi d_lo then pick hi
      else if Z.even lo then pick lo else pick hi
  end.

Fixpoint shortest (m : positive) (e n : Z) (ks : list Z) : Z * Z * Z :=
  match ks with
  | [] => (Qfloor (valueQ false m e / pow10Q (n - 17))%Q, n, 17%Z)
  | k :: ks' =>
      match candidate m e n k with
      | Some (s, n') => (s, n', k)
      | None => shortest m e n ks'
      end
  end.

(** Seventeen digits always identify a binary64 number. *)
Definition digit_counts : list Z :=
  [1; 2; 3; 4; 5; 6; 7; 8; 9; 10; 11; 12; 13; 14; 15; 16; 17]%Z.

Definition layout (ds : jsstring) (k n : Z) : jsstring :=
  if Z.leb k n && Z.leb n 21 then ds ++ zeros (Z.to_nat (n - k))
  else if Z.ltb 0 n && Z.leb n 21 then
    firstn (Z.to_nat n) ds ++ [cu "."] ++ skipn (Z.to_nat n) ds
  else if Z.ltb (-6) n && Z.leb n 0 then
    [cu "0"; cu "."] ++ zeros (Z.to_nat (- n)) ++ ds
  else
    let ex := (n - 1)%Z in
    let sign := if Z.ltb ex 0 then cu "-" else cu "+" in
    let tail := [cu "e"; sign] ++ decimal (Z.abs_N ex) in
    if Z.eqb k 1 then ds ++ tail
    else firstn 1 ds ++ [cu "."] ++ skipn 1 ds ++ tail.

Definition toString (x : number) : jsstring :=
  match Prim2SF x with
  | S754_nan => js "NaN"
  | S754_zero _ => js "0"
  | S754_infinity s => (if s then [cu "-"] else []) ++ js "Infinity"
  | S754_finite s m e =>
      let '(d, n, k) := shortest m e (magnitude (valueQ false m e))
                                 digit_counts in
      (if s then [cu "-"] else []) ++ layout (decimal (Z.to_N d)) k n
  end.

(** *** [Number.prototype.toFixed(f)] *)
Definition toFixed (x : number) (f : nat) : jsstring :=
  let point (ds : jsstring) :=
    let ds' := if Nat.leb (List.length ds) f
               then zeros (f + 1 - List.length ds) ++ ds else ds in
    let a := (List.length ds' - f)%nat in
    if Nat.eqb f 0 then ds' else firstn a ds' ++ [cu "."] ++ skipn a ds' in
  match Prim2SF x with
  | S754_nan => js "NaN"
  | S754_infinity _ => toString x
  | S754_zero _ => point (js "0")
  | S754_finite s m e =>
      let q := valueQ false m e in
      if Qle_bool (pow10Q 21) q then toString x
      else
        let n := Qfloor (q * pow10Q (Z.of_nat f) + (1 # 2))%Q in
        (if s then [cu "-"] else []) ++ point (decimal (Z.to_N n))
  end.

(** *** [Number(string)] ([StringToNumber] of ECMA-262)

    White space is trimmed; the empty string is [+0]; a signed decimal
    literal (with optional fraction and exponent), [Infinity], or an
    unsigned [0x]/[0o]/[0b] integer is rounded to the nearest number;
    everything else is [NaN]. *)

Definition isDigit (c : codeUnit) : bool := between 0x30 0x39 c.

Definition isHexDigit (c : codeUnit) : bool :=
  isDigit c || between 0x61 0x66 c || between 0x41 0x46 c.

Definition digit_value (c : codeUnit) : Z :=
  if isDigit c then Z.of_N (c - 0x30)
  else if between 0x61 0x66 c then Z.of_N (c - 0x57)
  else Z.of_N (c - 0x37).

Definition numeral (base : Z) (ds : jsstring) : Z :=
  fold_left (fun a d => (a * base + digit_value d)%Z) ds 0%Z.

Fixpoint span (p : codeUnit -> bool) (s : jsstring) : jsstring * jsstring :=
  match s with
  | c :: s' =>
      if p c then let '(a, b) := span p s' in (c :: a, b) else ([], s)
  | [] => ([], [])
  end.

(** The number nearest to [±d·10^x] ([d >= 0]). *)
Definition of_decimal (neg : bool) (d x : Z) : number :=
  match d with
  | Z0 => if neg then PrimFloat.neg_zero else PrimFloat.zero
  | Zpos p =>
      if Z.leb 0 x then
        SF2Prim (binary_round prec emax neg (p * Z.to_pos (10 ^ x))%positive 0)
      else
        let den := (10 ^ (- x))%Z in
        let sh := Z.max 0 (64 + Zdigits2 den - Zdigits2 d) in
        let num := (d * 2 ^ sh)%Z in
        let q := (num / den)%Z in
        let r := (num mod den)%Z in
        let loc := if Z.eqb r 0 then loc_Exact
                   else loc_Inexact (Z.compare (2 * r) den) in
        SF2Prim (binary_round_aux prec emax neg q (- sh) loc)
  | Zneg _ => PrimFloat.nan
  end.

Definition parse_exponent (s : jsstring) : option Z :=
  match s with
  | [] => Some 0%Z
  | c :: r =>
      if N.eqb c (cu "e") || N.eqb c (cu "E") then
        let '(neg, r') :=
          match r with
          | a :: r' =>
              if N.eqb a (cu "+") then (false, r')
              else if N.eqb a (cu "-") then (true, r')
              else (false, r)
          | [] => (false, r)
          end in
        match span isDigit r' with
        | ((_ :: _) as ds, []) =>
            Some (if neg then (- numeral 10 ds)%Z else numeral 10 ds)
        | _ => None
        end
      else None
  end.

Definition parse_unsigned_decimal (neg : bool) (s : jsstring) : number :=
  if string_eqb s (js "Infinity")
  then (if neg then PrimFloat.neg_infinity else PrimFloat.infinity)
  else
    let '(ip, r1) := span isDigit s in
    let '(fp, r2) :=
      match r1 with
      | c :: r => if N.eqb c (cu ".") then span isDigit r else ([], r1)
      | [] => ([], [])
      end in
    match ip ++ fp with
    | [] => PrimFloat.nan
    | ds =>
        match parse_exponent r2 with
        | Some ex =>
            of_decimal neg (numeral 10 ds) (ex - Z.of_nat (List.length fp))
        | None => PrimFloat.nan
        end
    end.

Definition parse_radix (isDig : codeUnit -> bool) (base : Z) (ds : jsstring)
  : number :=
  match ds with
  | [] => PrimFloat.nan
  | _ => if forallb isDig ds then of_Z (numeral base ds) else PrimFloat.nan
  end.

Definition Number (s : jsstring) : number :=
  match trim s with
  | [] => PrimFloat.zero
  | (c :: r) as t =>
      if N.eqb c (cu "+") then parse_unsigned_decimal false r
      else if N.eqb c (cu "-") then parse_unsigned_decimal true r
      else
        match t with
        | 0x30 :: p :: ds =>
            if N.eqb (lowerUnit p) (cu "x") then parse_radix isHexDigit 16 ds
            else if N.eqb (lowerUnit p) (cu "o")
            then parse_radix (between 0x30 0x37) 8 ds
            else if N.eqb (lowerUnit p) (cu "b")
            then parse_radix (between 0x30 0x31) 2 ds
            else parse_unsigned_decimal false t
        | _ => parse_unsigned_decimal false t
        end
  end.

End JS.

(* ================================================================== *)
(** * The collaborators' data ([@hamster-note/types]) and the DOM *)
(* ================================================================== *)

Import JS.

(** Modelled from the spec: the direction enumeration [TextDir] of
    [@hamster-note/types] (LTR, RTL, TTB). *)
Inductive TextDir := LTR | RTL | TTB.

(** Modelled from the spec: the text run entity of [@hamster-note/types]
    (the TextRun of the data model), a record of the fields the source
    passes to [new IntermediateText]. *)
Module IntermediateText.
Record t := mk {
  id : jsstring;
  content : jsstring;
  fontSize : number;
  fontFamily : jsstring;
  fontWeight : number;
  italic : bool;
  color : jsstring;
  width : number;
  height : number;
  lineHeight : number;
  x : number;
  y : number;
  ascent : number;
  descent : number;
  vertical : bool;
  dir : TextDir;
  rotate : number;
  skew : number;
  isEOL : bool
}.
End IntermediateText.

(** Modelled from the spec: the page entity of [@hamster-note/types],
    with the fields the source passes to [new IntermediatePage]. *)
Module IntermediatePage.
Record t := mk {
  id : jsstring;
  number : JS.number;
  width : JS.number;
  height : JS.number;
  texts : list IntermediateText.t;
  thumbnail : option jsstring
}.
End IntermediatePage.

(** Modelled from the spec: the document entity of [@hamster-note/types],
    with its pages as [await doc.pages] resolves them. *)
Module IntermediateDocument.
Record t := mk {
  id : jsstring;
  title : jsstring;
  pages : list IntermediatePage.t
}.
End IntermediateDocument.

(** A DOM node, as far as the importer looks at it: an element with its
    [tagName], the value of [getAttribute('style')] and its [childNodes];
    a text node with its [textContent]; any other node (comment, ...).
    A node's [parentNode] chain is kept by the traversal: the [style]
    attributes of the element ancestors, nearest first. *)
Inductive Node :=
| Element (tagName : jsstring) (style : option jsstring)
          (childNodes : list Node)
| TextNode (textContent : jsstring)
| OtherNode.

Definition Ancestors := list (option jsstring).

(** What [DOMParser.parseFromString(html, 'text/html')] returns:
    [doc.title], [doc.body], and the [style] attribute of the root
    element, which is the parent of the body. *)
Module Document.
Record t := mk {
  title : jsstring;
  root_style : option jsstring;
  body : Node
}.
End Document.

Definition dq : jsstring := [0x22%N].

Definition nonempty (s : jsstring) : bool :=
  match s with [] => false | _ => true end.

(* ================================================================== *)
(** * [src/index.ts] *)
(* ================================================================== *)

(** ** Helpers of the exporter *)

Definition escapeHtml (text : jsstring) : jsstring :=
  replace_all
    (replace_all
       (replace_all
          (replace_all
             (replace_all text (cu "&") (js "&amp;"))
             (cu "<") (js "&lt;"))
          (cu ">") (js "&gt;"))
       0x22%N (js "&quot;"))
    (cu "'") (js "&#39;").

Definition cssPxOrPercent (val : number) : jsstring :=
  if PrimFloat.ltb (Math_abs val) 1
  then toFixed (val * 100)%float 4 ++ js "%"
  else toString val ++ js "px".

Definition cssFontSize (val : number) : jsstring :=
  if PrimFloat.ltb (Math_abs val) 1
  then toString val ++ js "em"
  else toString val ++ js "px".

(** The character class [\u0591-\u07FF\uFB1D-\uFDFD\uFE70-\uFEFC]. *)
Definition rtlUnit (c : codeUnit) : bool :=
  between 0x0591 0x07FF c || between 0xFB1D 0xFDFD c
  || between 0xFE70 0xFEFC c.

Definition detectDir (text : jsstring) : TextDir :=
  if existsb rtlUnit text then RTL else LTR.

(** ** Inline styles *)

Module ParsedInlineStyle.
Record t := mk {
  fontSize : option number;
  fontFamily : option jsstring;
  fontWeight : option number;
  italic : option bool;
  color : option jsstring;
  lineHeight : option number
}.
Definition empty : t := mk None None None None None None.
End ParsedInlineStyle.

(** [keyof ParsedInlineStyle] and the type of each key's value. *)
Inductive StyleKey :=
| KfontSize | KfontFamily | KfontWeight | Kitalic | Kcolor | KlineHeight.

Definition field (k : StyleKey) : Type :=
  match k with
  | KfontSize | KfontWeight | KlineHeight => number
  | KfontFamily | Kcolor => jsstring
  | Kitalic => bool
  end.

(** [o[key]] *)
Definition get (o : ParsedInlineStyle.t) (k : StyleKey) : option (field k) :=
  match k with
  | KfontSize => ParsedInlineStyle.fontSize o
  | KfontFamily => ParsedInlineStyle.fontFamily o
  | KfontWeight => ParsedInlineStyle.fontWeight o
  | Kitalic => ParsedInlineStyle.italic o
  | Kcolor => ParsedInlineStyle.color o
  | KlineHeight => ParsedInlineStyle.lineHeight o
  end.

(** [o[key] = value] *)
Definition set (o : ParsedInlineStyle.t) (k : StyleKey)
  : field k -> ParsedInlineStyle.t :=
  let '(ParsedInlineStyle.mk fs ff fw it co lh) := o in
  match k with
  | KfontSize => fun v => ParsedInlineStyle.mk (Some v) ff fw it co lh
  | KfontFamily => fun v => ParsedInlineStyle.mk fs (Some v) fw it co lh
  | KfontWeight => fun v => ParsedInlineStyle.mk fs ff (Some v) it co lh
  | Kitalic => fun v => ParsedInlineStyle.mk fs ff fw (Some v) co lh
  | Kcolor => fun v => ParsedInlineStyle.mk fs ff fw it (Some v) lh
  | KlineHeight => fun v => ParsedInlineStyle.mk fs ff fw it co (Some v)
  end.

(** A [Map<string, string>]: the newest binding of a key is the one
    [get] sees. *)
Definition StyleMap := list (jsstring * jsstring).

Definition Map_set (m : StyleMap) (k v : jsstring) : StyleMap := (k, v) :: m.

Fixpoint Map_get (m : StyleMap) (k : jsstring) : option jsstring :=
  match m with
  | [] => None
  | (k', v) :: m' => if string_eqb k' k then Some v else Map_get m' k
  end.

Definition buildInlineStyleMap (styleText : option jsstring) : StyleMap :=
  match styleText with
  | None | Some [] => []
  | Some text =>
      fold_left
        (fun acc decl =>
           let separator := indexOf decl (cu ":") in
           if Z.eqb separator (-1) then acc
           else
             let key := toLowerCase (trim (slice decl 0 separator)) in
             let value := trim (slice_from decl (separator + 1)) in
             if nonempty key && nonempty value then Map_set acc key value
             else acc)
        (split text (cu ";")) []
  end.

Definition parseFontSizeValue (raw : option jsstring) : option number :=
  match raw with
  | None | Some [] => None
  | Some raw =>
      if endsWith raw (js "px")
      then Some (Number (replace_first raw (js "px") []))
      else if endsWith raw (js "em") then
        let val := Number (replace_first raw (js "em") []) in
        Some (if isNaN val || PrimFloat.eqb val 0 then 1%float else val)
      else None
  end.

Definition parseLineHeightValue (raw : option jsstring) : option number :=
  match raw with
  | None | Some [] => None
  | Some raw =>
      if endsWith raw (js "px")
      then Some (Number (replace_first raw (js "px") []))
      else if endsWith raw (js "em") then
        let val := Number (replace_first raw (js "em") []) in
        Some (if isNaN val || PrimFloat.eqb val 0 then 1.2%float else val)
      else
        let numeric := Number raw in
        if isNaN numeric then None else Some numeric
  end.

Definition parseFontWeightValue (raw : option jsstring) : option number :=
  match raw with
  | None | Some [] => None
  | Some raw =>
      if string_eqb raw (js "bold") then Some 700%float
      else if string_eqb raw (js "normal") then Some 400%float
      else
        let numeric := Number raw in
        Some (if isNaN numeric || PrimFloat.eqb numeric 0
              then 400%float else numeric)
  end.

(** [/italic|oblique/i.test(raw)]: without the [u] flag, ignoring case
    never identifies a non-ASCII unit with an ASCII one, so a unit matches
    a letter of the pattern when it is that letter in either case. *)
Definition parseItalicValue (raw : option jsstring) : option bool :=
  match raw with
  | None | Some [] => None
  | Some raw =>
      Some (includes (map lowerUnit raw) (js "italic")
            || includes (map lowerUnit raw) (js "oblique"))
  end.

Definition setInlineStyleValue (target : ParsedInlineStyle.t) (key : StyleKey)
  (value : option (field key)) : ParsedInlineStyle.t :=
  match value with
  | Some v => set target key v
  | None => target
  end.

Definition mergeInlineStyleValue (target source : ParsedInlineStyle.t)
  (key : StyleKey) : ParsedInlineStyle.t :=
  match get target key with
  | None => setInlineStyleValue target key (get source key)
  | Some _ => target
  end.

(** [parseInlineStyle(el)], from the element's [style] attribute. *)
Definition parseInlineStyle (style : option jsstring) : ParsedInlineStyle.t :=
  let map := buildInlineStyleMap style in
  let entries : list {k : StyleKey & option (field k)} :=
    [ existT _ KfontSize (parseFontSizeValue (Map_get map (js "font-size")));
      existT _ KlineHeight
             (parseLineHeightValue (Map_get map (js "line-height")));
      existT _ KfontWeight
             (parseFontWeightValue (Map_get map (js "font-weight")));
      existT _ Kitalic (parseItalicValue (Map_get map (js "font-style")));
      existT _ Kcolor (Map_get map (js "color"));
      existT _ KfontFamily (Map_get map (js "font-family")) ] in
  fold_left
    (fun result e => setInlineStyleValue result (projT1 e) (projT2 e))
    entries ParsedInlineStyle.empty.

(** ** Style resolution along the ancestor chain *)

Module ResolvedStyle.
Record t := mk {
  fontSize : number;
  lineHeight : number;
  fontWeight : number;
  italic : bool;
  color : jsstring;
  fontFamily : jsstring
}.
End ResolvedStyle.

Module Defaults.
Record t := mk { fontSize : number; lineHeight : number }.
End Defaults.

Definition inlineFields : list StyleKey :=
  [KfontSize; KlineHeight; KfontWeight; Kitalic; Kcolor; KfontFamily].

Definition mergeInlineStyle (target source : ParsedInlineStyle.t)
  : ParsedInlineStyle.t :=
  fold_left (fun tgt fld => mergeInlineStyleValue tgt source fld)
            inlineFields target.

(** The [while] loop: [cur] runs over the element ancestors, from the
    text node's parent upwards. *)
Fixpoint ancestorLoop (collected : ParsedInlineStyle.t) (cur : Ancestors)
  : ParsedInlineStyle.t :=
  match cur with
  | [] => collected
  | el :: up => ancestorLoop (mergeInlineStyle collected (parseInlineStyle el)) up
  end.

Definition collectAncestorInlineStyle (ancestors : Ancestors)
  (defaults : Defaults.t) : ResolvedStyle.t :=
  let collected := ancestorLoop ParsedInlineStyle.empty ancestors in
  let fontSize :=
    match ParsedInlineStyle.fontSize collected with
    | Some v => v
    | None => Defaults.fontSize defaults
    end in
  let lineHeight :=
    match ParsedInlineStyle.lineHeight collected with
    | Some v => v
    | None => (fontSize * Defaults.lineHeight defaults)%float
    end in
  ResolvedStyle.mk
    fontSize
    lineHeight
    (match ParsedInlineStyle.fontWeight collected with
     | Some v => v
     | None => 400%float
     end)
    (match ParsedInlineStyle.italic collected with
     | Some b => b
     | None => false
     end)
    (match ParsedInlineStyle.color collected with
     | Some ((_ :: _) as c) => c
     | _ => js "#000"
     end)
    (match ParsedInlineStyle.fontFamily collected with
     | Some ((_ :: _) as f) => f
     | _ => []
     end).

(** ** Text metrics *)

Module Metrics.
Record t := mk {
  width : number;
  height : number;
  ascent : number;
  descent : number
}.
End Metrics.

Definition estimateTextMetrics (content : jsstring)
  (fontSize lineHeight : number) : Metrics.t :=
  let width :=
    Math_max 1%float (Math_round (of_nat (List.length content) * fontSize * 0.6)%float) in
  let height := Math_max 1%float (Math_round lineHeight) in
  let ascent := Math_round (fontSize * 0.8)%float in
  let descent := Math_round (fontSize * 0.2)%float in
  Metrics.mk width height ascent descent.

(** ** The importer *)

(** [texts.reduce((a, t) => Math.max(a, t.y + t.height), 0)], rounded and
    at least 1. *)
Definition pageHeightOf (texts : list IntermediateText.t) : number :=
  Math_max 1%float
    (Math_round
       (fold_left
          (fun a t =>
             Math_max a (IntermediateText.y t + IntermediateText.height t)%float)
          texts 0%float)).

(** [raw.replace(/\s+/g, ' ')] *)
Fixpoint collapse_ws (in_run : bool) (s : jsstring) : jsstring :=
  match s with
  | [] => []
  | c :: s' =>
      if isWhiteSpace c
      then (if in_run then collapse_ws true s'
            else cu " " :: collapse_ws true s')
      else c :: collapse_ws false s'
  end.

Definition skipTags_has (tagName : jsstring) : bool :=
  string_eqb tagName (js "SCRIPT") || string_eqb tagName (js "STYLE").

Definition run_id (id : jsstring) (idx : nat) : jsstring :=
  id ++ js "-page-1-text-" ++ decimal (N.of_nat idx).

(** The variables the closure [walk] updates.  The counter [idx] indexes
    an array, so it stays an exact integer; it is kept as a [nat]. *)
Module Walk.
Record state := mk {
  idx : nat;
  y : number;
  texts : list IntermediateText.t
}.
End Walk.

Definition defaultFontSize : number := 16%float.
Definition defaultLineHeight : number := 1.2%float.

(** One surviving text node: the run is pushed, [idx] and [y] advance. *)
Definition emitText (id content : jsstring) (ancestors : Ancestors)
  (st : Walk.state) : Walk.state :=
  let sty := collectAncestorInlineStyle ancestors
               (Defaults.mk defaultFontSize defaultLineHeight) in
  let m := estimateTextMetrics content (ResolvedStyle.fontSize sty)
                               (ResolvedStyle.lineHeight sty) in
  let text :=
    IntermediateText.mk
      (run_id id (Walk.idx st))
      content
      (ResolvedStyle.fontSize sty)
      (ResolvedStyle.fontFamily sty)
      (ResolvedStyle.fontWeight sty)
      (ResolvedStyle.italic sty)
      (ResolvedStyle.color sty)
      (Metrics.width m)
      (Metrics.height m)
      (ResolvedStyle.lineHeight sty)
      0%float
      (Walk.y st)
      (Metrics.ascent m)
      (Metrics.descent m)
      false
      (detectDir content)
      0%float
      0%float
      true in
  Walk.mk (S (Walk.idx st))
          (Walk.y st + Metrics.height m)%float
          (Walk.texts st ++ [text]).

Definition collapsed (textContent : jsstring) : jsstring :=
  trim (collapse_ws false textContent).

Fixpoint walk (id : jsstring) (node : Node) (ancestors : Ancestors)
  (st : Walk.state) {struct node} : Walk.state :=
  match node with
  | Element tagName style childNodes =>
      if skipTags_has tagName then st
      else
        (fix each (children : list Node) (st : Walk.state) : Walk.state :=
           match children with
           | [] => st
           | child :: rest => each rest (walk id child (style :: ancestors) st)
           end) childNodes st
  | TextNode textContent =>
      let content := collapsed textContent in
      match content with
      | [] => st
      | _ => emitText id content ancestors st
      end
  | OtherNode => st
  end.

Module ImportResult.
Record t := mk {
  title : jsstring;
  texts : list IntermediateText.t;
  pageHeight : number
}.
End ImportResult.

(** [collectTextsFromHtml(html, id)], given the document the DOM parser
    built from [html]. *)
Definition collectTextsFromHtml (doc : Document.t) (id : jsstring)
  : ImportResult.t :=
  let title :=
    match Document.title doc with
    | [] => js "Untitled HTML"
    | t => t
    end in
  let st := walk id (Document.body doc) [Document.root_style doc]
                 (Walk.mk 0 0%float []) in
  ImportResult.mk title (Walk.texts st) (pageHeightOf (Walk.texts st)).

(** ** The plain-text fallback *)

(** [html.split(/\n+/)]: a run of line feeds is one separator. *)
Fixpoint split_lines_acc (s : jsstring) (cur : jsstring) (in_sep : bool)
  : list jsstring :=
  match s with
  | [] => [rev cur]
  | c :: s' =>
      if N.eqb c 0x0A then
        if in_sep then split_lines_acc s' [] true
        else rev cur :: split_lines_acc s' [] true
      else split_lines_acc s' (c :: cur) false
  end.

Definition split_lines (s : jsstring) : list jsstring :=
  split_lines_acc s [] false.

Definition fallbackFontSize : number := 16%float.
Definition fallbackLineHeight : number :=
  Math_round (fallbackFontSize * 1.2)%float.

(** The body of the [for (const ln of lines)] loop. *)
Definition fallbackLine (id : jsstring) (st : Walk.state) (ln : jsstring)
  : Walk.state :=
  let content := trim ln in
  match content with
  | [] => Walk.mk (Walk.idx st) (Walk.y st + fallbackLineHeight)%float
                  (Walk.texts st)
  | _ =>
      let m := estimateTextMetrics content fallbackFontSize
                                   fallbackLineHeight in
      let text :=
        IntermediateText.mk
          (run_id id (Walk.idx st))
          content
          fallbackFontSize
          []
          400%float
          false
          (js "#000")
          (Metrics.width m)
          (Metrics.height m)
          fallbackLineHeight
          0%float
          (Walk.y st)
          (Metrics.ascent m)
          (Metrics.descent m)
          false
          LTR
          0%float
          0%float
          true in
      Walk.mk (S (Walk.idx st))
              (Walk.y st + Metrics.height m)%float
              (Walk.texts st ++ [text])
  end.

Module FallbackResult.
Record t := mk {
  texts : list IntermediateText.t;
  pageHeight : number
}.
End FallbackResult.

Definition fallbackPlainText (html id : jsstring) : FallbackResult.t :=
  let st := fold_left (fallbackLine id) (split_lines html)
                      (Walk.mk 0 0%float []) in
  FallbackResult.mk (Walk.texts st) (pageHeightOf (Walk.texts st)).

(** ** [encode] *)

(** The host: the clock, the DOM parser if there is one, and whether the
    global [TextDecoder] exists.  A parser maps the markup to a document,
    or throws ([None]). *)
Module Host.
Record t := mk {
  now : number;
  DOMParser : option (jsstring -> option Document.t);
  TextDecoder : bool
}.
End Host.

(** [new TextDecoder('utf-8').decode(buffer)] inside a [try]: where the
    host has no [TextDecoder] the expression throws and the [catch]
    returns [undefined].  The decoder itself is not fatal: it replaces
    malformed input and does not throw. *)
Definition decodeBufferToString (host : Host.t) (buffer : list N)
  : option jsstring :=
  if Host.TextDecoder host then Some (TextDecoder_decode buffer) else None.

Definition pageWidth : number := 800%float.

(** [buffer] is what [toArrayBuffer(fileOrBuffer)] resolved to, [None]
    if it rejected. *)
Definition encode (host : Host.t) (buffer : option (list N))
  : option IntermediateDocument.t :=
  match buffer with
  | None => None
  | Some buffer =>
      match decodeBufferToString host buffer with
      | None => None
      | Some html =>
          let id := js "html-" ++ toString (Host.now host) in
          let title0 := js "Untitled HTML" in
          let '(title, texts, pageHeight) :=
            match Host.DOMParser host with
            | Some parse =>
                match parse html with
                | Some doc =>
                    let res := collectTextsFromHtml doc id in
                    (match ImportResult.title res with
                     | [] => title0
                     | t => t
                     end,
                     ImportResult.texts res,
                     ImportResult.pageHeight res)
                | None => (title0, [], 0%float)
                end
            | None => (title0, [], 0%float)
            end in
          let '(texts, pageHeight) :=
            match texts with
            | [] =>
                let res := fallbackPlainText html id in
                (FallbackResult.texts res, FallbackResult.pageHeight res)
            | _ => (texts, pageHeight)
            end in
          let page :=
            IntermediatePage.mk (id ++ js "-page-1") 1%float pageWidth
                                pageHeight texts None in
          Some (IntermediateDocument.mk id title [page])
      end
  end.

(** ** The exporter *)

(** [s.replace(/\n\s+/g, ' ')] *)
Fixpoint replace_nl_ws (skipping : bool) (s : jsstring) : jsstring :=
  match s with
  | [] => []
  | c :: s' =>
      if skipping && isWhiteSpace c then replace_nl_ws true s'
      else if N.eqb c 0x0A && match s' with
                              | w :: _ => isWhiteSpace w
                              | [] => false
                              end
      then cu " " :: replace_nl_ws true s'
      else c :: replace_nl_ws false s'
  end.

Definition getFragmentStyle : jsstring :=
  replace_nl_ws false (js "
      .hamster-note-document { position: relative; display: block; contain: layout style size; }
      .hamster-note-document .hamster-note-page { position: relative; overflow: hidden; background-repeat: no-repeat; background-position: top center; background-size: contain; }
      .hamster-note-document .hamster-note-text { position: absolute; white-space: pre; transform-origin: 0 0; }
    ").

(** [parts.join(sep)] *)
Fixpoint join (sep : jsstring) (parts : list jsstring) : jsstring :=
  match parts with
  | [] => []
  | [p] => p
  | p :: rest => p ++ sep ++ join sep rest
  end.

Definition transformOf (t : IntermediateText.t) : jsstring :=
  let transformParts :=
    (if truthy (IntermediateText.rotate t)
     then [js "rotate(" ++ toString (IntermediateText.rotate t) ++ js "deg)"]
     else [])
    ++ (if truthy (IntermediateText.skew t)
        then [js "skewX(" ++ toString (IntermediateText.skew t) ++ js "deg)"]
        else []) in
  match transformParts with
  | [] => []
  | _ => js "transform:" ++ join (js " ") transformParts ++ js ";"
  end.

Definition renderTextSpan (t : IntermediateText.t) : jsstring :=
  let left := cssPxOrPercent (IntermediateText.x t) in
  let top := cssPxOrPercent (IntermediateText.y t) in
  let fs := cssFontSize (IntermediateText.fontSize t) in
  let lh := cssFontSize (IntermediateText.lineHeight t) in
  let width := cssPxOrPercent (IntermediateText.width t) in
  let height := cssPxOrPercent (IntermediateText.height t) in
  let dir :=
    match IntermediateText.dir t with RTL => js "rtl" | _ => js "ltr" end in
  let writingMode :=
    if IntermediateText.vertical t then js "vertical-rl"
    else match IntermediateText.dir t with
         | TTB => js "vertical-rl"
         | _ => js "horizontal-tb"
         end in
  let color :=
    if nonempty (IntermediateText.color t)
       && negb (string_eqb (IntermediateText.color t) (js "transparent"))
    then js "color:" ++ IntermediateText.color t ++ js ";"
    else [] in
  let family :=
    if nonempty (IntermediateText.fontFamily t)
    then js "font-family:" ++ IntermediateText.fontFamily t ++ js ";"
    else [] in
  let weight :=
    js "font-weight:"
    ++ toString (if truthy (IntermediateText.fontWeight t)
                 then IntermediateText.fontWeight t else 400%float)
    ++ js ";" in
  let fontStyle :=
    if IntermediateText.italic t then js "font-style:italic;"
    else js "font-style:normal;" in
  let transform := transformOf t in
  js "<span class=" ++ dq ++ js "hamster-note-text" ++ dq
  ++ js " id=" ++ dq ++ IntermediateText.id t ++ dq
  ++ js " style=" ++ dq
  ++ js "left:" ++ left ++ js ";top:" ++ top
  ++ js ";width:" ++ width ++ js ";height:" ++ height
  ++ js ";font-size:" ++ fs ++ js ";line-height:" ++ lh ++ js ";"
  ++ weight ++ fontStyle ++ family ++ color
  ++ js "direction:" ++ dir ++ js ";writing-mode:" ++ writingMode ++ js ";"
  ++ transform ++ dq ++ js ">"
  ++ escapeHtml (IntermediateText.content t) ++ js "</span>".

Section Exporter.

(** [p.getThumbnail(scale)] of the page entity: an image URL, if any. *)
Variable getThumbnail : IntermediatePage.t -> number -> option jsstring.

Definition lazyRenderPageDiv (p : IntermediatePage.t) : jsstring :=
  let texts := join [] (map renderTextSpan (IntermediatePage.texts p)) in
  let thumb := getThumbnail p 0.3%float in
  let bg :=
    match thumb with
    | Some ((_ :: _) as url) => js "background-image:url('" ++ url ++ js "');"
    | _ => []
    end in
  js "<div class=" ++ dq ++ js "hamster-note-page" ++ dq
  ++ js " id=" ++ dq ++ IntermediatePage.id p ++ dq
  ++ js " style=" ++ dq
  ++ js "width:" ++ cssPxOrPercent (IntermediatePage.width p)
  ++ js ";height:" ++ cssPxOrPercent (IntermediatePage.height p) ++ js ";"
  ++ bg ++ dq ++ js ">" ++ texts ++ js "</div>".

Definition decodeToHtml (doc : IntermediateDocument.t) : jsstring :=
  let pageHtml := map lazyRenderPageDiv (IntermediateDocument.pages doc) in
  js "<div class=" ++ dq ++ js "hamster-note-document" ++ dq
  ++ js "><style>" ++ getFragmentStyle ++ js "</style>"
  ++ join [] pageHtml ++ js "</div>".

(** The markup [decode] wraps into a [File] (or, where the host has no
    [File], encodes into a buffer). *)
Definition fullHtml (doc : IntermediateDocument.t) : jsstring :=
  let inner := decodeToHtml doc in
  let title :=
    match IntermediateDocument.title doc with
    | [] => js "document"
    | t => t
    end in
  js "<!DOCTYPE html><html lang=" ++ dq ++ js "en" ++ dq
  ++ js "><head><meta charset=" ++ dq ++ js "utf-8" ++ dq
  ++ js "/><meta name=" ++ dq ++ js "viewport" ++ dq
  ++ js " content=" ++ dq ++ js "width=device-width, initial-scale=1" ++ dq
  ++ js "/><title>" ++ escapeHtml title
  ++ js "</title></head><body>" ++ inner ++ js "</body></html>".

(** What [decode] returns: a [File] named after the title or, where the
    host cannot construct one, the encoded bytes. *)
Inductive Decoded :=
| File (name : jsstring) (contents : jsstring)
| Buffer (bytes : list N).

Definition decode (hasFile : bool) (doc : IntermediateDocument.t) : Decoded :=
  let title :=
    match IntermediateDocument.title doc with
    | [] => js "document"
    | t => t
    end in
  if hasFile then File (title ++ js ".html") (fullHtml doc)
  else Buffer (TextEncoder_encode (fullHtml doc)).

End Exporter.

(* ================================================================== *)
(** * Specification-side definitions and sample inputs *)
(* ================================================================== *)

Definition LF : jsstring := [0x0A%N].

(** Line one, two line feeds, Line two. *)
Definition line_one_two : jsstring :=
  js "Line one" ++ LF ++ LF ++ js "Line two".

(** The same with a line holding one space between the two. *)
Definition line_one_blank_two : jsstring :=
  js "Line one" ++ LF ++ js " " ++ LF ++ js "Line two".

(** The markup of the end-to-end scenario, on one line. *)
Definition markup_one_line : list N :=
  utf8_bytes "<h1>标题</h1><p>第一段</p><p>第二段</p>".

(** The markup of the repository's test: one element per line. *)
Definition markup_three_lines : list N :=
  utf8_bytes "<h1>标题</h1>" ++ [0x0A%N]
  ++ utf8_bytes "    <p>第一段</p>" ++ [0x0A%N]
  ++ utf8_bytes "    <p>第二段</p>".

(** The title of a document and, page by page, the contents of its runs. *)
Definition outline (doc : option IntermediateDocument.t)
  : option (jsstring * list (list jsstring)) :=
  option_map
    (fun d =>
       (IntermediateDocument.title d,
        map (fun p => map IntermediateText.content (IntermediatePage.texts p))
            (IntermediateDocument.pages d)))
    doc.

(** A body holding one paragraph styled [font-size: abcpx] around the
    text [x]. *)
Definition body_abcpx : Node :=
  Element (js "BODY") None
    [Element (js "P") (Some (js "font-size: abcpx")) [TextNode (js "x")]].

Definition doc_abcpx : Document.t := Document.mk [] None body_abcpx.

Definition styleDefaults : Defaults.t :=
  Defaults.mk defaultFontSize defaultLineHeight.

(** ** Ancestor accumulation, read off the chain *)

Definition orElse {A : Type} (a b : option A) : option A :=
  match a with
  | Some _ => a
  | None => b
  end.

(** The value the nearest declaring ancestor gives to a field (the chain
    is nearest first). *)
Fixpoint firstSet (k : StyleKey) (ancestors : Ancestors) : option (field k) :=
  match ancestors with
  | [] => None
  | el :: up => orElse (get (parseInlineStyle el) k) (firstSet k up)
  end.

(** The resolved record, written from the nearest declared values and
    the documented defaults. *)
Definition resolveFrom (ancestors : Ancestors) (defaults : Defaults.t)
  : ResolvedStyle.t :=
  let fontSize :=
    match firstSet KfontSize ancestors with
    | Some v => v
    | None => Defaults.fontSize defaults
    end in
  ResolvedStyle.mk
    fontSize
    (match firstSet KlineHeight ancestors with
     | Some v => v
     | None => (fontSize * Defaults.lineHeight defaults)%float
     end)
    (match firstSet KfontWeight ancestors with
     | Some v => v
     | None => 400%float
     end)
    (match firstSet Kitalic ancestors with
     | Some b => b
     | None => false
     end)
    (match firstSet Kcolor ancestors with
     | Some ((_ :: _) as c) => c
     | _ => js "#000"
     end)
    (match firstSet KfontFamily ancestors with
     | Some ((_ :: _) as f) => f
     | _ => []
     end).

(** ** Escaped text *)

(** The four characters that open or close markup or attribute values. *)
Definition markup (c : codeUnit) : bool :=
  N.eqb c (cu "<") || N.eqb c (cu ">") || N.eqb c 0x22%N || N.eqb c (cu "'").

Definition special (c : codeUnit) : bool := N.eqb c (cu "&") || markup c.

(** What one code unit of the text stands as in the markup. *)
Definition entity (c : codeUnit) : jsstring :=
  if N.eqb c (cu "&") then js "&amp;"
  else if N.eqb c (cu "<") then js "&lt;"
  else if N.eqb c (cu ">") then js "&gt;"
  else if N.eqb c 0x22%N then js "&quot;"
  else if N.eqb c (cu "'") then js "&#39;"
  else [c].

(** Escaped text: plain units and entities, nothing else. *)
Inductive Escaped : jsstring -> Prop :=
| Escaped_nil : Escaped []
| Escaped_plain c s : special c = false -> Escaped s -> Escaped (c :: s)
| Escaped_entity c s : special c = true -> Escaped s -> Escaped (entity c ++ s).

(** The run [t] with another content. *)
Definition with_content (t : IntermediateText.t) (c : jsstring)
  : IntermediateText.t :=
  let '(IntermediateText.mk id _ fs ff fw it co w h lh x y a d v dir r s e) := t in
  IntermediateText.mk id c fs ff fw it co w h lh x y a d v dir r s e.

(** [x] occurs in [s] as a contiguous piece. *)
Definition Occurs (x s : jsstring) : Prop :=
  exists head tail, s = head ++ x ++ tail.

(** A run whose id closes the attribute and opens another one. *)
Definition run_with_quote_in_id : IntermediateText.t :=
  IntermediateText.mk
    (js "a" ++ dq ++ js " onclick=" ++ dq ++ js "x") (js "hi")
    16%float (js "serif") 400%float false (js "red")
    10%float 19%float 19%float 0%float 0%float 13%float 3%float
    false LTR 0%float 0%float true.

(** A run whose colour ends in a double quote. *)
Definition run_with_quote_in_color : IntermediateText.t :=
  IntermediateText.mk
    (js "r0") (js "hi") 16%float [] 400%float false
    (js "red" ++ dq) 10%float 19%float 19%float 0%float 0%float
    13%float 3%float false LTR 0%float 0%float true.

(** ** The structural importer, read off the tree *)

(** The text nodes that survive, in depth-first order: script and style
    subtrees are skipped, contents are white-space-collapsed and the empty
    ones dropped.  Each comes with its ancestor chain. *)
Fixpoint survivors (node : Node) (ancestors : Ancestors)
  : list (jsstring * Ancestors) :=
  match node with
  | Element tagName style childNodes =>
      if skipTags_has tagName then []
      else flat_map (fun child => survivors child (style :: ancestors))
                    childNodes
  | TextNode textContent =>
      match collapsed textContent with
      | [] => []
      | content => [(content, ancestors)]
      end
  | OtherNode => []
  end.

(** The run the importer builds for a surviving text node, given the
    counter and the vertical offset at that point. *)
Definition runOf (id : jsstring) (idx : nat) (y : number)
  (node : jsstring * Ancestors) : IntermediateText.t :=
  let content := fst node in
  let sty := collectAncestorInlineStyle (snd node)
               (Defaults.mk defaultFontSize defaultLineHeight) in
  let m := estimateTextMetrics content (ResolvedStyle.fontSize sty)
                               (ResolvedStyle.lineHeight sty) in
  IntermediateText.mk
    (run_id id idx) content
    (ResolvedStyle.fontSize sty) (ResolvedStyle.fontFamily sty)
    (ResolvedStyle.fontWeight sty) (ResolvedStyle.italic sty)
    (ResolvedStyle.color sty)
    (Metrics.width m) (Metrics.height m) (ResolvedStyle.lineHeight sty)
    0%float y (Metrics.ascent m) (Metrics.descent m)
    false (detectDir content) 0%float 0%float true.

(** The runs of a list of surviving nodes, stacked from offset [y]. *)
Fixpoint runsFrom (id : jsstring) (idx : nat) (y : number)
  (nodes : list (jsstring * Ancestors)) : list IntermediateText.t :=
  match nodes with
  | [] => []
  | node :: rest =>
      let t := runOf id idx y node in
      t :: runsFrom id (S idx) (y + IntermediateText.height t)%float rest
  end.

(** The running sum [((y0 + h0) + h1) + ...] of a list of heights. *)
Definition sumFrom (y0 : number) (heights : list number) : number :=
  fold_left PrimFloat.add heights y0.

Definition emit (id : jsstring) (st : Walk.state)
  (node : jsstring * Ancestors) : Walk.state :=
  emitText id (fst node) (snd node) st.

(** A document to exercise the importer on: a paragraph, a script, and a
    division with its own line height. *)
Definition sample_doc : Document.t :=
  Document.mk (js "Sample") None
    (Element (js "BODY") None
       [ Element (js "P") None [TextNode (js "  Hello ")];
         Element (js "SCRIPT") None [TextNode (js "var x = 1")];
         OtherNode;
         Element (js "DIV") (Some (js "line-height: 30px"))
                 [TextNode (js "big   world")] ]).

Definition sample_second_run : IntermediateText.t :=
  runOf (js "doc") 1 19%float
        (js "big world", [Some (js "line-height: 30px"); None; None]).

(** ** The structural importer, in the words of its description *)

(** The pieces of a text between its white-space units: the first one,
    and the others in order. *)
Fixpoint pieces (s : jsstring) : jsstring * list jsstring :=
  match s with
  | [] => ([], [])
  | c :: r =>
      let (p, ps) := pieces r in
      if isWhiteSpace c then ([], p :: ps) else (c :: p, ps)
  end.

(** The words of a text: its pieces that are not empty. *)
Definition words (s : jsstring) : list jsstring :=
  let (p, ps) := pieces s in filter nonempty (p :: ps).

(** A text with its white space collapsed: its words, one space between
    two of them. *)
Definition normalised (s : jsstring) : jsstring := join [cu " "] (words s).

(** There is something other than white space in the text. *)
Definition hasWord (s : jsstring) : bool :=
  match words s with
  | [] => false
  | _ :: _ => true
  end.

(** The elements whose subtrees the importer leaves out. *)
Definition skippedTags : list jsstring := [js "SCRIPT"; js "STYLE"].

(** The text nodes of a tree in depth-first order, outside the skipped
    subtrees, each with the style attributes of its ancestors, nearest
    first. *)
Fixpoint textNodes (node : Node) (ancestors : Ancestors)
  : list (jsstring * Ancestors) :=
  match node with
  | Element tagName style childNodes =>
      if in_dec (list_eq_dec N.eq_dec) tagName skippedTags then []
      else flat_map (fun child => textNodes child (style :: ancestors))
                    childNodes
  | TextNode textContent => [(textContent, ancestors)]
  | OtherNode => []
  end.

(** The text nodes that give a run: those with a word in them, each by
    its collapsed text. *)
Definition surviving (node : Node) (ancestors : Ancestors)
  : list (jsstring * Ancestors) :=
  map (fun entry => (normalised (fst entry), snd entry))
      (filter (fun entry => hasWord (fst entry))
              (textNodes node ancestors)).

(** ** Normal forms of run contents *)

(** [s] does not begin with white space. *)
Definition starts_clean (s : jsstring) : bool :=
  match s with
  | c :: _ => negb (isWhiteSpace c)
  | [] => true
  end.

(** Every white-space unit of [s] is a space followed by something that
    is not white space. *)
Fixpoint spaced (s : jsstring) : bool :=
  match s with
  | [] => true
  | c :: r =>
      (if isWhiteSpace c then N.eqb c 0x20%N && starts_clean r else true)
      && spaced r
  end.

(** ** The fallback, read off the lines *)

(** A line that gives a run. *)
Definition nonBlank (ln : jsstring) : bool := nonempty (trim ln).

(** The run the fallback builds for a non-blank line, given the counter
    and the vertical offset at that point. *)
Definition fallbackRun (id : jsstring) (idx : nat) (y : number)
  (content : jsstring) : IntermediateText.t :=
  let m := estimateTextMetrics content fallbackFontSize fallbackLineHeight in
  IntermediateText.mk
    (run_id id idx) content fallbackFontSize [] 400%float false (js "#000")
    (Metrics.width m) (Metrics.height m) fallbackLineHeight
    0%float y (Metrics.ascent m) (Metrics.descent m)
    false LTR 0%float 0%float true.

(** The runs of a list of lines from offset [y]: every line, blank or
    not, moves the offset down by 19. *)
Fixpoint fallbackRunsFrom (id : jsstring) (idx : nat) (y : number)
  (lines : list jsstring) : list IntermediateText.t :=
  match lines with
  | [] => []
  | ln :: rest =>
      if nonBlank ln
      then fallbackRun id idx y (trim ln)
           :: fallbackRunsFrom id (S idx) (y + 19)%float rest
      else fallbackRunsFrom id idx (y + 19)%float rest
  end.

(** ** [HtmlPage.getPureText] *)

Definition getPureText (p : IntermediatePage.t) : jsstring :=
  join LF (map IntermediateText.content (IntermediatePage.texts p)).

(** ** What [encode] returns *)

(** The document [encode] assembles from a title and the runs. *)
Definition assembled (now : number) (title : jsstring)
  (texts : list IntermediateText.t) : IntermediateDocument.t :=
  let id := js "html-" ++ toString now in
  IntermediateDocument.mk id title
    [IntermediatePage.mk (id ++ js "-page-1") 1%float 800%float
                         (pageHeightOf texts) texts None].

(** [doc.title || 'Untitled HTML'] *)
Definition titleOr (title : jsstring) : jsstring :=
  match title with
  | [] => js "Untitled HTML"
  | t => t
  end.

(** What every run of an import satisfies, as the [n]-th run of the
    document [id]. *)
Definition importedRun (id : jsstring) (n : nat) (t : IntermediateText.t)
  : Prop :=
  IntermediateText.id t = id ++ js "-page-1-text-" ++ decimal (N.of_nat n)
  /\ IntermediateText.content t <> []
  /\ trim (IntermediateText.content t) = IntermediateText.content t
  /\ ~ In 0x0A%N (IntermediateText.content t)
  /\ IntermediateText.x t = 0%float
  /\ IntermediateText.vertical t = false
  /\ IntermediateText.dir t <> TTB
  /\ IntermediateText.rotate t = 0%float
  /\ IntermediateText.skew t = 0%float
  /\ IntermediateText.isEOL t = true
  /\ IntermediateText.width t
     = Metrics.width (estimateTextMetrics (IntermediateText.content t)
                                          (IntermediateText.fontSize t)
                                          (IntermediateText.lineHeight t))
  /\ IntermediateText.height t
     = Metrics.height (estimateTextMetrics (IntermediateText.content t)
                                           (IntermediateText.fontSize t)
                                           (IntermediateText.lineHeight t)).

(** A host without DOM parser and the document [encode] makes on it from
    the three-line markup. *)
Definition sample_host : Host.t := Host.mk 0%float None true.

Definition sample_encoded : IntermediateDocument.t :=
  assembled 0%float (js "Untitled HTML")
    (FallbackResult.texts
       (fallbackPlainText (TextDecoder_decode markup_three_lines)
                          (js "html-0"))).

Definition sample_page : IntermediatePage.t :=
  IntermediatePage.mk (js "html-0-page-1") 1%float 800%float 57%float
    (FallbackResult.texts
       (fallbackPlainText (TextDecoder_decode markup_three_lines)
                          (js "html-0")))
    None.

(** A host whose parser finds a title but no text in the body. *)
Definition empty_body_doc : Document.t :=
  Document.mk (js "Only a title") None
    (Element (js "BODY") None
       [Element (js "SCRIPT") None [TextNode (js "var x")];
        TextNode (js "   ")]).

Definition titled_host : Host.t :=
  Host.mk 0%float (Some (fun _ => Some empty_body_doc)) true.

(** ** Markup characters in the exported span *)

(** [s] holds none of the characters [<], [>], double quote and
    apostrophe. *)
Definition markup_free (s : jsstring) : bool :=
  forallb (fun c => negb (markup c)) s.

(** How often the unit [c] occurs in [s]. *)
Definition occurrences (c : codeUnit) (s : jsstring) : nat :=
  count_occ N.eq_dec s c.

(** The value of the span's style attribute. *)
Definition styleOf (t : IntermediateText.t) : jsstring :=
  js "left:" ++ cssPxOrPercent (IntermediateText.x t)
  ++ js ";top:" ++ cssPxOrPercent (IntermediateText.y t)
  ++ js ";width:" ++ cssPxOrPercent (IntermediateText.width t)
  ++ js ";height:" ++ cssPxOrPercent (IntermediateText.height t)
  ++ js ";font-size:" ++ cssFontSize (IntermediateText.fontSize t)
  ++ js ";line-height:" ++ cssFontSize (IntermediateText.lineHeight t)
  ++ js ";"
  ++ (js "font-weight:"
      ++ toString (if truthy (IntermediateText.fontWeight t)
                   then IntermediateText.fontWeight t else 400%float)
      ++ js ";")
  ++ (if IntermediateText.italic t then js "font-style:italic;"
      else js "font-style:normal;")
  ++ (if nonempty (IntermediateText.fontFamily t)
      then js "font-family:" ++ IntermediateText.fontFamily t ++ js ";"
      else [])
  ++ (if nonempty (IntermediateText.color t)
         && negb (string_eqb (IntermediateText.color t) (js "transparent"))
      then js "color:" ++ IntermediateText.color t ++ js ";"
      else [])
  ++ js "direction:"
  ++ match IntermediateText.dir t with RTL => js "rtl" | _ => js "ltr" end
  ++ js ";writing-mode:"
  ++ (if IntermediateText.vertical t then js "vertical-rl"
      else match IntermediateText.dir t with
           | TTB => js "vertical-rl"
           | _ => js "horizontal-tb"
           end)
  ++ js ";" ++ transformOf t.

(** ** Inline style declarations *)

(** The key and the value one declaration puts into the style map, if
    any: there must be a colon, and a key and a value around it that are
    not blank. *)
Definition declaration (decl : jsstring) : option (jsstring * jsstring) :=
  let separator := indexOf decl (cu ":") in
  if Z.eqb separator (-1) then None
  else
    let key := toLowerCase (trim (slice decl 0 separator)) in
    let value := trim (slice_from decl (separator + 1)) in
    if nonempty key && nonempty value then Some (key, value) else None.

(** The value of the last declaration of the key [k] in a list of
    declarations. *)
Fixpoint lastDeclared (k : jsstring) (decls : list jsstring)
  : option jsstring :=
  match decls with
  | [] => None
  | d :: rest =>
      match lastDeclared k rest with
      | Some v => Some v
      | None =>
          match declaration d with
          | Some (k', v) => if string_eqb k' k then Some v else None
          | None => None
          end
      end
  end.

(** A run, and a page with its thumbnail, whose ids, colours, font
    families and thumbnail URL hold no markup character. *)
Definition clean_run (t : IntermediateText.t) : bool :=
  markup_free (IntermediateText.id t)
  && markup_free (IntermediateText.color t)
  && markup_free (IntermediateText.fontFamily t).

Definition clean_page
  (getThumbnail : IntermediatePage.t -> number -> option jsstring)
  (p : IntermediatePage.t) : bool :=
  markup_free (IntermediatePage.id p)
  && forallb clean_run (IntermediatePage.texts p)
  && match getThumbnail p 0.3%float with
     | Some url => markup_free url
     | None => true
     end.

(* ================================================================== *)
(** * Properties *)
(* ================================================================== *)

(** ** The built-ins on known values *)

Example TextDecoder_decode_examples :
  js "a标" = [0x61; 0x6807]%N
  /\ TextDecoder_decode [0xEF; 0xBB; 0xBF; 0x41; 0xC3; 0x28]%N
     = [0x41; 0xFFFD; 0x28]%N
  /\ TextDecoder_decode (TextEncoder_encode (js "<h1>标题</h1>"))
     = js "<h1>标题</h1>".
Proof. repeat split; vm_compute; reflexivity. Qed.

Example Math_round_examples :
  map Math_round [19.2; 2.5; -2.5; 0.49999999999999994; -0.2]%float
  = [19; 3; -2; 0; -0]%float
  /\ isNaN (Math_round PrimFloat.nan) = true
  /\ isNaN (Math_max 1%float PrimFloat.nan) = true
  /\ Math_max 1%float (-6)%float = 1%float.
Proof. repeat split; vm_compute; reflexivity. Qed.

Example toString_examples :
  map toString [0.5; 12; 0.1; -1.5; 1e21; 1e-7; 0.000001; 123.456]%float
  = map js ["0.5"; "12"; "0.1"; "-1.5"; "1e+21"; "1e-7"; "0.000001";
            "123.456"]%string
  /\ map (fun v => toFixed v 4) [50; 0; -0.000001; 99.99999999999999]%float
     = map js ["50.0000"; "0.0000"; "-0.0000"; "100.0000"]%string.
Proof. split; vm_compute; reflexivity. Qed.

Example Number_examples :
  map (fun s => Number (js s)) ["12"; ""; " 1.5 "; ".5"; "1e3"; "0x1F"]%string
  = [12; 0; 1.5; 0.5; 1000; 31]%float
  /\ map (fun s => isNaN (Number (js s)))
         ["abc"; "12 px"; "1e"; "."; "-0x1F"; "Infinity"; "0.1"]%string
     = [true; true; true; true; true; false; false]
  /\ Number (js "0.1") = 0.1%float.
Proof. repeat split; vm_compute; reflexivity. Qed.

Example toLowerCase_examples :
  map (fun s => toLowerCase (js s))
      ["Font-SIZE"; "É"; "ΟΔΟΣ ΣΟΣ"; "𐐀"; "ǅ"]%string
  = map js ["font-size"; "é"; "οδος σος"; "𐐨"; "ǆ"]%string
  /\ toLowerCase [0x212A%N] = js "k"
  /\ toLowerCase [0x130%N] = [0x69%N; 0x307%N]
  /\ toLowerCase [0xD801%N; 0x41%N] = [0xD801%N; 0x61%N].
Proof. repeat split; vm_compute; reflexivity. Qed.

(** A key with the Kelvin sign is found under the ASCII letter it
    lower-cases to. *)
Example buildInlineStyleMap_lower_cases_keys :
  Map_get (buildInlineStyleMap (Some ([0x212A%N] ++ js "EY: v; Color: Red")))
          (js "key")
  = Some (js "v")
  /\ Map_get (buildInlineStyleMap
                (Some ([0x212A%N] ++ js "EY: v; Color: Red")))
             (js "color")
     = Some (js "Red").
Proof. split; vm_compute; reflexivity. Qed.

Example words_examples :
  words (js "  big   world ") = [js "big"; js "world"]
  /\ normalised (js "  big   world ") = js "big world"
  /\ words (js "   ") = []
  /\ hasWord (js "   ") = false.
Proof. repeat split; vm_compute; reflexivity. Qed.

(** Two numbers that compare unequal are different values. *)
Lemma number_neq (a b : number) :
  PrimFloat.eqb a a = true -> PrimFloat.eqb a b = false -> a <> b.
Proof.
  intros Haa Hab E. rewrite <- E in Hab. congruence.
Qed.

(** ** The plain-text fallback *)

(** C1, as the claim states it, fails: the fallback does not place the
    second run of [Line one\n\nLine two] at y = 38. *)
Lemma C1_second_run_is_not_at_38 :
  ~ (exists t1 t2,
        FallbackResult.texts (fallbackPlainText line_one_two (js "doc"))
        = [t1; t2]
        /\ IntermediateText.content t1 = js "Line one"
        /\ IntermediateText.content t2 = js "Line two"
        /\ IntermediateText.y t2 = 38%float).
Proof.
  intros (t1 & t2 & Htexts & _ & _ & Hy).
  vm_compute in Htexts.
  injection Htexts as _ E2. subst t2.
  cbn in Hy.
  revert Hy. apply number_neq; vm_compute; reflexivity.
Qed.

(** C1 (amended): [Line one\n\nLine two] yields exactly two runs, with
    contents [Line one] and [Line two]; the two line feeds are one
    separator, so no blank line is seen and the second run sits one line
    height (19) below the first.  A line holding only white space does
    advance the offset by 19 without producing a run (second run at 38). *)
Theorem C1_fallback_line_one_two (id : jsstring) :
  let r := fallbackPlainText line_one_two id in
  split_lines line_one_two = [js "Line one"; js "Line two"]
  /\ fallbackLineHeight = 19%float
  /\ map IntermediateText.content (FallbackResult.texts r)
     = [js "Line one"; js "Line two"]
  /\ map IntermediateText.y (FallbackResult.texts r) = [0%float; 19%float]
  /\ map IntermediateText.height (FallbackResult.texts r)
     = [19%float; 19%float]
  /\ (let r' := fallbackPlainText line_one_blank_two id in
      map IntermediateText.content (FallbackResult.texts r')
      = [js "Line one"; js "Line two"]
      /\ map IntermediateText.y (FallbackResult.texts r')
         = [0%float; 38%float]).
Proof.
  repeat split; vm_compute; reflexivity.
Qed.

(** ** [encode] without a DOM parser *)

(** C9, as the claim states it, fails: the markup of the claim has no
    line feed, so the fallback does not produce three runs from it. *)
Lemma C9_one_line_markup_is_not_three_runs :
  outline (encode (Host.mk 0%float None true) (Some markup_one_line))
  <> Some (js "Untitled HTML",
           [[js "<h1>标题</h1>"; js "<p>第一段</p>"; js "<p>第二段</p>"]]).
Proof.
  intros H. vm_compute in H. discriminate H.
Qed.

(** C9 (amended): with no DOM parser, [encode] of the three elements
    written one per line yields a document titled [Untitled HTML] with
    one page of exactly three runs, the trimmed markup lines in order;
    on the one-line markup the single page holds exactly one run, the
    whole markup. *)
Theorem C9_encode_without_DOM_parser (now : number) :
  let host := Host.mk now None true in
  outline (encode host (Some markup_three_lines))
  = Some (js "Untitled HTML",
          [[js "<h1>标题</h1>"; js "<p>第一段</p>"; js "<p>第二段</p>"]])
  /\ outline (encode host (Some markup_one_line))
     = Some (js "Untitled HTML",
             [[js "<h1>标题</h1><p>第一段</p><p>第二段</p>"]]).
Proof.
  split; vm_compute; reflexivity.
Qed.

(** ** Malformed [px] lengths *)

(** C2 (the code at the failing input): [font-size: abcpx] resolves to
    [NaN], not to the default 16, and the run is created with a [NaN]
    font size and line height; the sibling [em] branch does guard
    ([font-size: abcem] gives 1), as does a unit-less [line-height]. *)
Theorem C2_malformed_px_resolves_to_NaN :
  let sty := collectAncestorInlineStyle [Some (js "font-size: abcpx")]
                                        styleDefaults in
  isNaN (ResolvedStyle.fontSize sty) = true
  /\ isNaN (ResolvedStyle.lineHeight sty) = true
  /\ map (fun t => (isNaN (IntermediateText.fontSize t),
                    isNaN (IntermediateText.lineHeight t)))
         (ImportResult.texts (collectTextsFromHtml doc_abcpx (js "doc")))
     = [(true, true)]
  /\ isNaN (ResolvedStyle.lineHeight
              (collectAncestorInlineStyle [Some (js "line-height: abcpx")]
                                          styleDefaults)) = true
  /\ ResolvedStyle.fontSize
       (collectAncestorInlineStyle [Some (js "font-size: abcem")]
                                   styleDefaults) = 1%float
  /\ ResolvedStyle.fontSize
       (collectAncestorInlineStyle [Some (js "font-size: abc")]
                                   styleDefaults) = 16%float
  /\ ResolvedStyle.lineHeight
       (collectAncestorInlineStyle [Some (js "line-height: abc")]
                                   styleDefaults) = (16 * 1.2)%float.
Proof.
  repeat split; vm_compute; reflexivity.
Qed.

Lemma ltb_leb (a b : number) :
  PrimFloat.ltb a b = true -> PrimFloat.leb a b = true.
Proof.
  rewrite ltb_spec, leb_spec. unfold SFltb, SFleb.
  destruct (SFcompare (Prim2SF a) (Prim2SF b)) as [[| |]|]; congruence.
Qed.

(** [Math.max(1, v)] is [NaN] when [v] is, and at least 1 otherwise. *)
Lemma Math_max_1 (v : number) :
  (isNaN v = true /\ isNaN (Math_max 1%float v) = true)
  \/ (isNaN v = false /\ PrimFloat.leb 1 (Math_max 1%float v) = true).
Proof.
  unfold Math_max.
  destruct (isNaN v) eqn:Hv.
  - left. split; [reflexivity|]. rewrite orb_true_r. reflexivity.
  - right. split; [reflexivity|].
    change (isNaN 1%float) with false. cbn [orb].
    destruct (PrimFloat.ltb 1 v) eqn:H1; [apply ltb_leb; exact H1|].
    destruct (PrimFloat.ltb v 1) eqn:H2; reflexivity.
Qed.

(** C3 (the code at the failing input): the run made from a paragraph
    styled [font-size: abcpx] has [NaN] for width and height, so neither
    is positive nor at least 1.  [NaN] is the only way out: whatever the
    inputs, the estimator's width and height are at least 1 unless the
    rounded value under [Math.max] is [NaN]. *)
Theorem C3_run_with_NaN_width_and_height :
  map (fun t =>
         (isNaN (IntermediateText.width t),
          PrimFloat.ltb 0 (IntermediateText.width t),
          PrimFloat.leb 1 (IntermediateText.width t),
          isNaN (IntermediateText.height t),
          PrimFloat.ltb 0 (IntermediateText.height t),
          PrimFloat.leb 1 (IntermediateText.height t)))
      (ImportResult.texts (collectTextsFromHtml doc_abcpx (js "doc")))
  = [(true, false, false, true, false, false)]
  /\ forall content fontSize lineHeight,
       let m := estimateTextMetrics content fontSize lineHeight in
       (isNaN (Metrics.width m) = true
        \/ PrimFloat.leb 1 (Metrics.width m) = true)
       /\ (isNaN (Metrics.height m) = true
           \/ PrimFloat.leb 1 (Metrics.height m) = true).
Proof.
  split; [vm_compute; reflexivity|].
  intros content fontSize lineHeight m. subst m.
  unfold estimateTextMetrics; cbn [Metrics.width Metrics.height].
  split.
  - destruct (Math_max_1
                (Math_round
                   (of_nat (List.length content) * fontSize * 0.6)%float))
      as [[_ H]|[_ H]]; [left|right]; exact H.
  - destruct (Math_max_1 (Math_round lineHeight)) as [[_ H]|[_ H]];
      [left|right]; exact H.
Qed.

(** ** The metrics estimator *)

(** C5: for every content, font size and line height the estimator
    returns width = max(1, round(charCount·fontSize·0.6)),
    height = max(1, round(lineHeight)), ascent = round(fontSize·0.8),
    descent = round(fontSize·0.2), a function of these three inputs
    only (of the content, only its length; charCount is the length in
    UTF-16 code units, so a character outside the basic plane counts
    twice). *)
Theorem C5_estimateTextMetrics_formula
  (content : jsstring) (fontSize lineHeight : number) :
  let m := estimateTextMetrics content fontSize lineHeight in
  let charCount := of_nat (List.length content) in
  Metrics.width m
  = Math_max 1%float (Math_round (charCount * fontSize * 0.6)%float)
  /\ Metrics.height m = Math_max 1%float (Math_round lineHeight)
  /\ Metrics.ascent m = Math_round (fontSize * 0.8)%float
  /\ Metrics.descent m = Math_round (fontSize * 0.2)%float
  /\ (forall content', List.length content' = List.length content ->
        estimateTextMetrics content' fontSize lineHeight = m)
  /\ estimateTextMetrics (js "Line one") 16%float 19%float
     = Metrics.mk 77%float 19%float 13%float 3%float
  /\ estimateTextMetrics [] 16%float 0.4%float
     = Metrics.mk 1%float 1%float 13%float 3%float
  /\ estimateTextMetrics (js "𝄞") 16%float 19%float
     = Metrics.mk 19%float 19%float 13%float 3%float.
Proof.
  cbv zeta.
  do 4 (split; [reflexivity|]).
  split.
  { intros content' Hlen. unfold estimateTextMetrics. rewrite Hlen.
    reflexivity. }
  repeat split; vm_compute; reflexivity.
Qed.

(** ** CSS lengths *)


(** ** Ancestor style accumulation *)

Lemma orElse_assoc {A : Type} (a b c : option A) :
  orElse (orElse a b) c = orElse a (orElse b c).
Proof. destruct a; reflexivity. Qed.

Lemma mergeInlineStyle_fields (target source : ParsedInlineStyle.t) :
  mergeInlineStyle target source
  = ParsedInlineStyle.mk
      (orElse (ParsedInlineStyle.fontSize target)
              (ParsedInlineStyle.fontSize source))
      (orElse (ParsedInlineStyle.fontFamily target)
              (ParsedInlineStyle.fontFamily source))
      (orElse (ParsedInlineStyle.fontWeight target)
              (ParsedInlineStyle.fontWeight source))
      (orElse (ParsedInlineStyle.italic target)
              (ParsedInlineStyle.italic source))
      (orElse (ParsedInlineStyle.color target)
              (ParsedInlineStyle.color source))
      (orElse (ParsedInlineStyle.lineHeight target)
              (ParsedInlineStyle.lineHeight source)).
Proof.
  destruct target as [[?|] [?|] [?|] [?|] [?|] [?|]];
    destruct source as [[?|] [?|] [?|] [?|] [?|] [?|]]; reflexivity.
Qed.

Lemma get_mergeInlineStyle (target source : ParsedInlineStyle.t)
  (k : StyleKey) :
  get (mergeInlineStyle target source) k
  = orElse (get target k) (get source k).
Proof.
  rewrite mergeInlineStyle_fields. destruct k; reflexivity.
Qed.

Lemma get_ancestorLoop (ancestors : Ancestors) :
  forall (collected : ParsedInlineStyle.t) (k : StyleKey),
    get (ancestorLoop collected ancestors) k
    = orElse (get collected k) (firstSet k ancestors).
Proof.
  induction ancestors as [|el up IH]; intros collected k; simpl.
  - destruct (get collected k); reflexivity.
  - rewrite IH, get_mergeInlineStyle. apply orElse_assoc.
Qed.

Lemma firstSet_skip (k : StyleKey) (pre : Ancestors) :
  forall rest,
    (forall p, In p pre -> get (parseInlineStyle p) k = None) ->
    firstSet k (pre ++ rest) = firstSet k rest.
Proof.
  induction pre as [|p pre IH]; intros rest Hpre; simpl.
  - reflexivity.
  - rewrite (Hpre p (or_introl eq_refl)). simpl.
    apply IH. intros q Hq. apply Hpre. right. exact Hq.
Qed.

Lemma collectAncestorInlineStyle_resolveFrom
  (ancestors : Ancestors) (defaults : Defaults.t) :
  collectAncestorInlineStyle ancestors defaults
  = resolveFrom ancestors defaults.
Proof.
  unfold collectAncestorInlineStyle, resolveFrom.
  pose proof (get_ancestorLoop ancestors ParsedInlineStyle.empty) as H.
  pose proof (H KfontSize) as H1. pose proof (H KlineHeight) as H2.
  pose proof (H KfontWeight) as H3. pose proof (H Kitalic) as H4.
  pose proof (H Kcolor) as H5. pose proof (H KfontFamily) as H6.
  simpl in H1, H2, H3, H4, H5, H6.
  rewrite H1, H2, H3, H4, H5, H6. reflexivity.
Qed.

(** C6: accumulation is first-write-wins from the parent upwards.  The
    field the walk collects is the one of the nearest ancestor declaring
    it; a field set by a nearer ancestor is kept whatever the farther
    ones declare; a field no ancestor declares takes its default
    (16, fontSize times 1.2, 400, not italic, #000, no family); an
    ancestor's [font-weight: bold] below elements without a font weight
    resolves to 700, and a nearer [font-weight: normal] to 400 whatever
    lies above. *)
Theorem C6_first_write_wins (ancestors : Ancestors) (defaults : Defaults.t) :
  let collected := ancestorLoop ParsedInlineStyle.empty ancestors in
  (forall k, get collected k = firstSet k ancestors)
  /\ (forall k pre a post v,
        ancestors = pre ++ a :: post ->
        (forall p, In p pre -> get (parseInlineStyle p) k = None) ->
        get (parseInlineStyle a) k = Some v ->
        get collected k = Some v)
  /\ collectAncestorInlineStyle ancestors defaults
     = resolveFrom ancestors defaults
  /\ ((forall k, firstSet k ancestors = None) ->
      collectAncestorInlineStyle ancestors defaults
      = ResolvedStyle.mk
          (Defaults.fontSize defaults)
          (Defaults.fontSize defaults * Defaults.lineHeight defaults)%float
          400%float false (js "#000") [])
  /\ ((forall p, In p ancestors ->
         get (parseInlineStyle p) KfontWeight = None) ->
      forall far,
        ResolvedStyle.fontWeight
          (collectAncestorInlineStyle
             (ancestors ++ Some (js "font-weight: bold") :: far) defaults)
        = 700%float)
  /\ ResolvedStyle.fontWeight
       (collectAncestorInlineStyle
          (Some (js "font-weight: normal") :: ancestors) defaults)
     = 400%float.
Proof.
  cbv zeta.
  assert (Hget : forall k,
             get (ancestorLoop ParsedInlineStyle.empty ancestors) k
             = firstSet k ancestors).
  { intros k. rewrite get_ancestorLoop. destruct k; reflexivity. }
  split; [exact Hget|].
  split.
  { intros k pre a post v Heq Hpre Ha.
    rewrite Hget, Heq, firstSet_skip by exact Hpre.
    simpl. rewrite Ha. reflexivity. }
  split; [apply collectAncestorInlineStyle_resolveFrom|].
  split.
  { intros Hnone. rewrite collectAncestorInlineStyle_resolveFrom.
    unfold resolveFrom.
    rewrite (Hnone KfontSize), (Hnone KlineHeight), (Hnone KfontWeight),
      (Hnone Kitalic), (Hnone Kcolor), (Hnone KfontFamily).
    reflexivity. }
  split.
  { intros Hpre far. rewrite collectAncestorInlineStyle_resolveFrom.
    unfold resolveFrom; simpl ResolvedStyle.fontWeight.
    rewrite firstSet_skip by exact Hpre.
    reflexivity. }
  rewrite collectAncestorInlineStyle_resolveFrom. reflexivity.
Qed.

(** C6 on a chain: a parent without style, then an ancestor declaring
    bold, then one declaring normal. *)
Lemma C6_first_write_wins_witness :
  ResolvedStyle.fontWeight
    (collectAncestorInlineStyle
       ([None] ++ Some (js "font-weight: bold")
               :: [Some (js "font-weight: normal")])
       styleDefaults)
  = 700%float.
Proof.
  refine (proj1 (proj2 (proj2 (proj2 (proj2
            (C6_first_write_wins [None] styleDefaults))))) _ _).
  intros p [<-|[]]. vm_compute. reflexivity.
Defined.

(** ** HTML escaping *)

Lemma escapeHtml_app (s1 s2 : jsstring) :
  escapeHtml (s1 ++ s2) = escapeHtml s1 ++ escapeHtml s2.
Proof.
  unfold escapeHtml, replace_all. now rewrite !flat_map_app.
Qed.

Lemma escapeHtml_unit (c : codeUnit) : escapeHtml [c] = entity c.
Proof.
  unfold escapeHtml, replace_all, entity.
  cbn [flat_map app].
  destruct (N.eqb c (cu "&")); [reflexivity|].
  cbn [flat_map app].
  destruct (N.eqb c (cu "<")); [reflexivity|].
  cbn [flat_map app].
  destruct (N.eqb c (cu ">")); [reflexivity|].
  cbn [flat_map app].
  destruct (N.eqb c 0x22%N); [reflexivity|].
  cbn [flat_map app].
  destruct (N.eqb c (cu "'")); reflexivity.
Qed.

Lemma escapeHtml_flat_map (text : jsstring) :
  escapeHtml text = flat_map entity text.
Proof.
  induction text as [|c s IH]; [reflexivity|].
  change (c :: s) with ([c] ++ s).
  rewrite escapeHtml_app, escapeHtml_unit, IH. reflexivity.
Qed.

Lemma entity_no_markup (a c : codeUnit) : In c (entity a) -> markup c = false.
Proof.
  unfold entity, markup.
  destruct (N.eqb_spec a (cu "&")) as [->|_];
    [intros H; repeat (destruct H as [<-|H]; [reflexivity|]); destruct H|].
  destruct (N.eqb_spec a (cu "<")) as [->|N1];
    [intros H; repeat (destruct H as [<-|H]; [reflexivity|]); destruct H|].
  destruct (N.eqb_spec a (cu ">")) as [->|N2];
    [intros H; repeat (destruct H as [<-|H]; [reflexivity|]); destruct H|].
  destruct (N.eqb_spec a 0x22%N) as [->|N3];
    [intros H; repeat (destruct H as [<-|H]; [reflexivity|]); destruct H|].
  destruct (N.eqb_spec a (cu "'")) as [->|N4];
    [intros H; repeat (destruct H as [<-|H]; [reflexivity|]); destruct H|].
  intros [<-|[]].
  apply N.eqb_neq in N1, N2, N3, N4. rewrite N1, N2, N3, N4. reflexivity.
Qed.

Lemma entity_plain (c : codeUnit) : special c = false -> entity c = [c].
Proof.
  unfold special, markup, entity.
  destruct (N.eqb c (cu "&")); [discriminate|].
  destruct (N.eqb c (cu "<")); [discriminate|].
  destruct (N.eqb c (cu ">")); [discriminate|].
  destruct (N.eqb c 0x22%N); [discriminate|].
  destruct (N.eqb c (cu "'")); [discriminate|].
  reflexivity.
Qed.

Lemma Escaped_flat_map (text : jsstring) : Escaped (flat_map entity text).
Proof.
  induction text as [|c s IH]; simpl.
  - constructor.
  - destruct (special c) eqn:Hc.
    + now apply Escaped_entity.
    + rewrite (entity_plain c Hc). now apply Escaped_plain.
Qed.

(** C8: the span carries the content with every ampersand, angle
    bracket, double quote and apostrophe replaced by its entity and
    nothing else changed (the ampersand first and once, so no entity is
    escaped again); the escaped content has no angle bracket, double
    quote or apostrophe at all, and is made of plain units and entities
    only, so every ampersand in it begins an entity. *)
Theorem C8_content_is_escaped (t : IntermediateText.t) :
  escapeHtml (IntermediateText.content t)
  = flat_map entity (IntermediateText.content t)
  /\ (forall c, In c (escapeHtml (IntermediateText.content t)) ->
                markup c = false)
  /\ Escaped (escapeHtml (IntermediateText.content t))
  /\ (exists opening,
        forall content,
          renderTextSpan (with_content t content)
          = opening ++ escapeHtml content ++ js "</span>")
  /\ map entity [cu "&"; cu "<"; cu ">"; 0x22%N; cu "'"; cu "a"]
     = [js "&amp;"; js "&lt;"; js "&gt;"; js "&quot;"; js "&#39;"; js "a"]
  /\ escapeHtml (js "<a href='x'>R&D</a>")
     = js "&lt;a href=&#39;x&#39;&gt;R&amp;D&lt;/a&gt;"
  /\ escapeHtml (js "&lt;") = js "&amp;lt;".
Proof.
  split; [apply escapeHtml_flat_map|].
  split.
  { intros c. rewrite escapeHtml_flat_map. intros Hc.
    apply in_flat_map in Hc. destruct Hc as (a & _ & Hc).
    exact (entity_no_markup a c Hc). }
  split; [rewrite escapeHtml_flat_map; apply Escaped_flat_map|].
  split.
  { destruct t as [id c0 fs ff fw it co w h lh x y a d v dir r s e].
    eexists. intros content.
    unfold renderTextSpan, with_content; cbv zeta.
    cbn [IntermediateText.id IntermediateText.content
         IntermediateText.fontSize IntermediateText.fontFamily
         IntermediateText.fontWeight IntermediateText.italic
         IntermediateText.color IntermediateText.width
         IntermediateText.height IntermediateText.lineHeight
         IntermediateText.x IntermediateText.y IntermediateText.vertical
         IntermediateText.dir].
    unfold transformOf.
    cbn [IntermediateText.rotate IntermediateText.skew].
    repeat rewrite app_assoc. reflexivity. }
  repeat split; vm_compute; reflexivity.
Qed.

(** ** Fields the exporter does not escape *)

Lemma Occurs_here (x rest : jsstring) : Occurs x (x ++ rest).
Proof. exists [], rest. reflexivity. Qed.

Lemma Occurs_skip (a x s : jsstring) : Occurs x s -> Occurs x (a ++ s).
Proof.
  intros (head & tail & ->). exists (a ++ head), tail.
  now rewrite app_assoc.
Qed.

Ltac find_piece :=
  repeat first [ apply Occurs_here | apply Occurs_skip ].

(** C10: the run's id, colour and font family, and the page's id and
    thumbnail URL, are copied into the markup as they are, whatever
    characters they hold (a double quote stays a double quote); only the
    run's content and, in the full document, the title go through
    [escapeHtml]. *)
Theorem C10_fields_are_interpolated_verbatim
  (getThumbnail : IntermediatePage.t -> number -> option jsstring)
  (t : IntermediateText.t) (p : IntermediatePage.t)
  (doc : IntermediateDocument.t) :
  (exists tail,
      renderTextSpan t
      = js "<span class=" ++ dq ++ js "hamster-note-text" ++ dq
        ++ js " id=" ++ dq ++ IntermediateText.id t ++ dq ++ tail)
  /\ (nonempty (IntermediateText.color t)
      && negb (string_eqb (IntermediateText.color t) (js "transparent"))
      = true ->
      Occurs (js "color:" ++ IntermediateText.color t ++ js ";")
             (renderTextSpan t))
  /\ (nonempty (IntermediateText.fontFamily t) = true ->
      Occurs (js "font-family:" ++ IntermediateText.fontFamily t ++ js ";")
             (renderTextSpan t))
  /\ (exists tail,
        lazyRenderPageDiv getThumbnail p
        = js "<div class=" ++ dq ++ js "hamster-note-page" ++ dq
          ++ js " id=" ++ dq ++ IntermediatePage.id p ++ dq ++ tail)
  /\ (forall url,
        getThumbnail p 0.3%float = Some url -> nonempty url = true ->
        Occurs (js "background-image:url('" ++ url ++ js "');")
               (lazyRenderPageDiv getThumbnail p))
  /\ Occurs (escapeHtml (IntermediateText.content t)) (renderTextSpan t)
  /\ (exists tail,
        fullHtml getThumbnail doc
        = js "<!DOCTYPE html><html lang=" ++ dq ++ js "en" ++ dq
          ++ js "><head><meta charset=" ++ dq ++ js "utf-8" ++ dq
          ++ js "/><meta name=" ++ dq ++ js "viewport" ++ dq
          ++ js " content=" ++ dq
          ++ js "width=device-width, initial-scale=1" ++ dq
          ++ js "/><title>"
          ++ escapeHtml (match IntermediateDocument.title doc with
                         | [] => js "document"
                         | title => title
                         end)
          ++ js "</title></head><body>" ++ tail)
  /\ (exists tail,
        renderTextSpan run_with_quote_in_id
        = js "<span class=" ++ dq ++ js "hamster-note-text" ++ dq
          ++ js " id=" ++ dq ++ js "a" ++ dq ++ js " onclick=" ++ dq
          ++ js "x" ++ dq ++ js " style=" ++ tail).
Proof.
  split.
  { unfold renderTextSpan; cbv zeta. eexists.
    repeat rewrite <- app_assoc. reflexivity. }
  split.
  { intros Hc. unfold renderTextSpan; cbv zeta. rewrite Hc.
    find_piece. }
  split.
  { intros Hf. unfold renderTextSpan; cbv zeta. rewrite Hf. find_piece. }
  split.
  { unfold lazyRenderPageDiv; cbv zeta. eexists.
    repeat rewrite <- app_assoc. reflexivity. }
  split.
  { intros url Hu Hne. unfold lazyRenderPageDiv; cbv zeta. rewrite Hu.
    destruct url as [|u0 url]; [discriminate|].
    find_piece. }
  split.
  { unfold renderTextSpan; cbv zeta. find_piece. }
  split.
  { unfold fullHtml; cbv zeta. eexists.
    repeat rewrite <- app_assoc. reflexivity. }
  eexists. vm_compute. reflexivity.
Qed.

(** C10 on a run whose colour ends in a double quote: the quote reaches
    the style attribute as it is. *)
Lemma C10_fields_are_interpolated_verbatim_witness :
  Occurs (js "color:" ++ (js "red" ++ dq) ++ js ";")
         (renderTextSpan run_with_quote_in_color).
Proof.
  refine (proj1 (proj2
            (C10_fields_are_interpolated_verbatim
               (fun _ _ => None) run_with_quote_in_color
               (IntermediatePage.mk [] 1%float 800%float 1%float [] None)
               (IntermediateDocument.mk [] [] []))) _).
  vm_compute. reflexivity.
Defined.

(** ** The structural importer *)

(** Induction over a DOM tree, children included. *)
Lemma Node_tree_ind (P : Node -> Prop) :
  (forall tagName style childNodes,
      Forall P childNodes -> P (Element tagName style childNodes)) ->
  (forall textContent, P (TextNode textContent)) ->
  P OtherNode ->
  forall node, P node.
Proof.
  intros P_element P_text P_other.
  fix IH 1.
  intros [tagName style childNodes|textContent|].
  - apply P_element.
    induction childNodes as [|child rest IHrest].
    + constructor.
    + constructor; [apply IH | exact IHrest].
  - apply P_text.
  - exact P_other.
Qed.

Lemma walk_survivors (id : jsstring) (node : Node) :
  forall ancestors st,
    walk id node ancestors st
    = fold_left (emit id) (survivors node ancestors) st.
Proof.
  induction node as [tagName style childNodes IH|textContent|]
    using Node_tree_ind; intros ancestors st; simpl.
  - destruct (skipTags_has tagName); [reflexivity|].
    revert st. induction IH as [|child rest Hchild _ IHrest]; intros st; simpl.
    + reflexivity.
    + rewrite fold_left_app, <- Hchild. apply IHrest.
  - destruct (collapsed textContent); reflexivity.
  - reflexivity.
Qed.

Lemma emit_runsFrom (id : jsstring) (nodes : list (jsstring * Ancestors)) :
  forall st,
    fold_left (emit id) nodes st
    = let runs := runsFrom id (Walk.idx st) (Walk.y st) nodes in
      Walk.mk (Walk.idx st + List.length nodes)
              (sumFrom (Walk.y st) (map IntermediateText.height runs))
              (Walk.texts st ++ runs).
Proof.
  induction nodes as [|node rest IH]; intros [idx y texts]; simpl.
  - now rewrite Nat.add_0_r, app_nil_r.
  - rewrite IH. simpl. unfold sumFrom. simpl.
    rewrite <- app_assoc, Nat.add_succ_r. reflexivity.
Qed.

Lemma runsFrom_length (id : jsstring) (nodes : list (jsstring * Ancestors)) :
  forall idx y, List.length (runsFrom id idx y nodes) = List.length nodes.
Proof.
  induction nodes as [|node rest IH]; intros idx y; simpl; [|rewrite IH];
    reflexivity.
Qed.

Lemma runsFrom_nth (id : jsstring) (nodes : list (jsstring * Ancestors)) :
  forall idx y n t,
    nth_error (runsFrom id idx y nodes) n = Some t ->
    exists node,
      nth_error nodes n = Some node
      /\ t = runOf id (idx + n)
               (sumFrom y (map IntermediateText.height
                               (firstn n (runsFrom id idx y nodes))))
               node.
Proof.
  induction nodes as [|node rest IH]; intros idx y n t Hn.
  - destruct n; discriminate.
  - destruct n as [|n]; simpl in Hn.
    + injection Hn as <-. exists node. rewrite Nat.add_0_r. split; reflexivity.
    + destruct (IH _ _ _ _ Hn) as (node' & Hnode & ->).
      exists node'. split; [exact Hnode|].
      rewrite Nat.add_succ_r. reflexivity.
Qed.

(** The page height is [NaN] or at least 1. *)
Lemma pageHeightOf_NaN_or_ge_1 (texts : list IntermediateText.t) :
  isNaN (pageHeightOf texts) = true
  \/ PrimFloat.leb 1 (pageHeightOf texts) = true.
Proof.
  unfold pageHeightOf.
  destruct (Math_max_1
              (Math_round
                 (fold_left
                    (fun a t =>
                       Math_max a (IntermediateText.y t
                                   + IntermediateText.height t)%float)
                    texts 0%float))) as [[_ H]|[_ H]]; [left|right]; exact H.
Qed.

(** C4 (the code at the failing input): the page made from a paragraph
    styled [font-size: abcpx] has one run and the page height [NaN],
    which is not at least 1: the height of the run is [NaN], so is its
    y + height, and [Math.max] and [Math.round] hand it on.  [NaN] is the
    only way out: whatever the document, the page height is at least 1
    unless it is [NaN]. *)
Theorem C4_page_height_is_NaN :
  (let res := collectTextsFromHtml doc_abcpx (js "doc") in
   (List.length (ImportResult.texts res),
    map (fun t =>
           isNaN (IntermediateText.y t + IntermediateText.height t)%float)
        (ImportResult.texts res),
    isNaN (ImportResult.pageHeight res),
    PrimFloat.leb 1 (ImportResult.pageHeight res))
   = (1%nat, [true], true, false))
  /\ forall doc id,
       let res := collectTextsFromHtml doc id in
       isNaN (ImportResult.pageHeight res) = true
       \/ PrimFloat.leb 1 (ImportResult.pageHeight res) = true.
Proof.
  split; [vm_compute; reflexivity|].
  intros doc id res. subst res. unfold collectTextsFromHtml.
  cbn [ImportResult.pageHeight]. apply pageHeightOf_NaN_or_ge_1.
Qed.

(* ================================================================== *)
(** * Further properties of the code *)
(* ================================================================== *)

(** ** The direction detector *)

(** X1: a text is right-to-left exactly when one of its code units lies in
    the three ranges of the detector; the detector never answers TTB; a
    text below U+0591 throughout (ASCII, Latin, Greek, Cyrillic) is
    left-to-right and a text holding a Hebrew letter is right-to-left. *)
Theorem detectDir_spec (text : jsstring) :
  (detectDir text = RTL <-> exists c, In c text /\ rtlUnit c = true)
  /\ (detectDir text = LTR <-> forall c, In c text -> rtlUnit c = false)
  /\ detectDir text <> TTB
  /\ ((forall c, In c text -> (c < 0x0591)%N) -> detectDir text = LTR)
  /\ ((exists c, In c text /\ (0x05D0 <= c <= 0x05EA)%N) ->
      detectDir text = RTL).
Proof.
  unfold detectDir.
  assert (Hex : existsb rtlUnit text = true
                <-> exists c, In c text /\ rtlUnit c = true)
    by apply existsb_exists.
  assert (Hall : existsb rtlUnit text = false
                 <-> forall c, In c text -> rtlUnit c = false).
  { rewrite <- not_true_iff_false, Hex. split.
    - intros Hno c Hc. destruct (rtlUnit c) eqn:E; [|reflexivity].
      exfalso. apply Hno. now exists c.
    - intros Hall' (c & Hc & Hr). rewrite (Hall' c Hc) in Hr. discriminate. }
  split.
  { rewrite <- Hex. destruct (existsb rtlUnit text); split; congruence. }
  split.
  { rewrite <- Hall. destruct (existsb rtlUnit text); split; congruence. }
  split; [destruct (existsb rtlUnit text); discriminate|].
  split.
  - intros Hlow.
    assert (H : existsb rtlUnit text = false).
    { apply Hall. intros c Hc. specialize (Hlow c Hc).
      unfold rtlUnit, between.
      rewrite !orb_false_iff, !andb_false_iff, !N.leb_gt. lia. }
    now rewrite H.
  - intros (c & Hc & Hlo & Hhi).
    assert (H : existsb rtlUnit text = true).
    { apply Hex. exists c. split; [exact Hc|].
      unfold rtlUnit, between.
      rewrite !orb_true_iff, !andb_true_iff, !N.leb_le. lia. }
    now rewrite H.
Qed.

(** ** More on escaping *)

Lemma entity_cases (c : codeUnit) :
  (c = 38%N /\ entity c = [38; 97; 109; 112; 59]%N)
  \/ (c = 60%N /\ entity c = [38; 108; 116; 59]%N)
  \/ (c = 62%N /\ entity c = [38; 103; 116; 59]%N)
  \/ (c = 34%N /\ entity c = [38; 113; 117; 111; 116; 59]%N)
  \/ (c = 39%N /\ entity c = [38; 35; 51; 57; 59]%N)
  \/ (special c = false /\ entity c = [c]).
Proof.
  destruct (N.eqb_spec c 38) as [->|N0]; [left; split; reflexivity|].
  destruct (N.eqb_spec c 60) as [->|N1];
    [right; left; split; reflexivity|].
  destruct (N.eqb_spec c 62) as [->|N2];
    [right; right; left; split; reflexivity|].
  destruct (N.eqb_spec c 34) as [->|N3];
    [right; right; right; left; split; reflexivity|].
  destruct (N.eqb_spec c 39) as [->|N4];
    [right; right; right; right; left; split; reflexivity|].
  right; right; right; right; right.
  assert (Hs : special c = false).
  { unfold special, markup.
    change (cu "&") with 38%N. change (cu "<") with 60%N.
    change (cu ">") with 62%N. change (cu "'") with 39%N.
    apply N.eqb_neq in N0, N1, N2, N3, N4.
    rewrite N0, N1, N2, N3, N4. reflexivity. }
  split; [exact Hs | exact (entity_plain c Hs)].
Qed.

Lemma special_38 (c : codeUnit) : special c = false -> c <> 38%N.
Proof. intros H ->. discriminate H. Qed.

Lemma flat_map_entity_length (s : jsstring) :
  (List.length s <= List.length (flat_map entity s))%nat.
Proof.
  induction s as [|c s IH]; simpl; [lia|].
  rewrite length_app.
  destruct (entity_cases c) as [[_ E]|[[_ E]|[[_ E]|[[_ E]|[[_ E]|[_ E]]]]]];
    rewrite E; simpl; lia.
Qed.

Lemma flat_map_entity_inj (s1 : jsstring) :
  forall s2, flat_map entity s1 = flat_map entity s2 -> s1 = s2.
Proof.
  induction s1 as [|c1 s1 IH]; intros [|c2 s2] H.
  - reflexivity.
  - exfalso. simpl in H.
    destruct (entity_cases c2) as [[_ E]|[[_ E]|[[_ E]|[[_ E]|[[_ E]|[_ E]]]]]];
      rewrite E in H; discriminate H.
  - exfalso. simpl in H.
    destruct (entity_cases c1) as [[_ E]|[[_ E]|[[_ E]|[[_ E]|[[_ E]|[_ E]]]]]];
      rewrite E in H; discriminate H.
  - simpl in H.
    destruct (entity_cases c1)
      as [[C1 E1]|[[C1 E1]|[[C1 E1]|[[C1 E1]|[[C1 E1]|[C1 E1]]]]]];
      destruct (entity_cases c2)
        as [[C2 E2]|[[C2 E2]|[[C2 E2]|[[C2 E2]|[[C2 E2]|[C2 E2]]]]]];
      rewrite E1, E2 in H;
      first
        [ apply app_inv_head in H; f_equal; [congruence | apply IH; exact H]
        | simpl in H; discriminate H
        | simpl in H; injection H as Hc H; exfalso;
          first [ apply (special_38 c2 C2); congruence
                | apply (special_38 c1 C1); congruence ]
        | simpl in H; injection H as Hc H; f_equal;
          [exact Hc | apply IH; exact H] ].
Qed.

(** X2: [escapeHtml] loses nothing: two texts with the same escaped form
    are the same text. *)
Theorem escapeHtml_injective (s1 s2 : jsstring) :
  escapeHtml s1 = escapeHtml s2 -> s1 = s2.
Proof.
  rewrite !escapeHtml_flat_map. apply flat_map_entity_inj.
Qed.

Lemma escapeHtml_injective_witness :
  js "a<b" = js "a" ++ js "<b".
Proof.
  apply escapeHtml_injective. vm_compute. reflexivity.
Defined.

(** X3: [escapeHtml] leaves a text unchanged exactly when the text holds
    none of the five special characters; otherwise the text grows. *)
Theorem escapeHtml_fixed_iff (text : jsstring) :
  (escapeHtml text = text <-> forall c, In c text -> special c = false)
  /\ (List.length text <= List.length (escapeHtml text))%nat.
Proof.
  rewrite escapeHtml_flat_map.
  split; [|apply flat_map_entity_length].
  split.
  - induction text as [|c s IH]; intros H x Hx; [destruct Hx|].
    simpl in H.
    destruct (entity_cases c)
      as [[C E]|[[C E]|[[C E]|[[C E]|[[C E]|[C E]]]]]];
      rewrite E in H; simpl in H;
      try (injection H as _ H; apply (f_equal (@List.length _)) in H;
           simpl in H;
           pose proof (flat_map_entity_length s); lia).
    injection H as H.
    destruct Hx as [<-|Hx]; [exact C|]. exact (IH H x Hx).
  - induction text as [|c s IH]; intros H; [reflexivity|].
    simpl. rewrite (entity_plain c (H c (or_introl eq_refl))).
    simpl. f_equal. apply IH. intros x Hx. apply H. now right.
Qed.

(** ** White space: [trim] and the collapsing of runs *)

Lemma trimStart_app_unit (l : jsstring) (c : codeUnit) :
  trimStart (l ++ [c])
  = match trimStart l with
    | [] => trimStart [c]
    | r => r ++ [c]
    end.
Proof.
  induction l as [|a l IH]; simpl.
  - destruct (isWhiteSpace c); reflexivity.
  - destruct (isWhiteSpace a); [exact IH | reflexivity].
Qed.

Lemma trimEnd_cons (c : codeUnit) (s : jsstring) :
  trimEnd (c :: s)
  = match trimEnd s with
    | [] => if isWhiteSpace c then [] else [c]
    | r => c :: r
    end.
Proof.
  unfold trimEnd. simpl rev. rewrite trimStart_app_unit.
  destruct (trimStart (rev s)) as [|a r] eqn:E.
  - simpl. destruct (isWhiteSpace c); reflexivity.
  - rewrite rev_app_distr. change (rev [c]) with [c].
    remember (rev (a :: r)) as q eqn:R.
    destruct q as [|b r']; [|reflexivity].
    apply (f_equal (@List.length _)) in R. rewrite length_rev in R.
    discriminate R.
Qed.

Lemma trimStart_clean (s : jsstring) : starts_clean (trimStart s) = true.
Proof.
  induction s as [|c s IH]; simpl; [reflexivity|].
  destruct (isWhiteSpace c) eqn:E; [exact IH|]. simpl. now rewrite E.
Qed.

Lemma trimStart_id (s : jsstring) : starts_clean s = true -> trimStart s = s.
Proof.
  destruct s as [|c s]; simpl; [reflexivity|].
  destruct (isWhiteSpace c); [discriminate | reflexivity].
Qed.

Lemma trimStart_idempotent (s : jsstring) :
  trimStart (trimStart s) = trimStart s.
Proof. apply trimStart_id, trimStart_clean. Qed.

Lemma trimEnd_idempotent (s : jsstring) : trimEnd (trimEnd s) = trimEnd s.
Proof.
  unfold trimEnd. now rewrite rev_involutive, trimStart_idempotent.
Qed.

Lemma trimEnd_starts_clean (s : jsstring) :
  starts_clean s = true -> starts_clean (trimEnd s) = true.
Proof.
  destruct s as [|c s]; [reflexivity|]. simpl. intros Hc.
  rewrite trimEnd_cons. destruct (trimEnd s).
  - destruct (isWhiteSpace c) eqn:E; [reflexivity|]. simpl. now rewrite E.
  - exact Hc.
Qed.

Lemma trim_starts_clean (s : jsstring) : starts_clean (trim s) = true.
Proof. apply trimEnd_starts_clean, trimStart_clean. Qed.

Lemma trim_ends_clean (s : jsstring) : starts_clean (rev (trim s)) = true.
Proof.
  unfold trim, trimEnd. rewrite rev_involutive. apply trimStart_clean.
Qed.

Lemma trim_idempotent (s : jsstring) : trim (trim s) = trim s.
Proof.
  unfold trim at 1.
  rewrite (trimStart_id (trim s)) by apply trim_starts_clean.
  unfold trim. apply trimEnd_idempotent.
Qed.

Lemma In_trimStart (c : codeUnit) (s : jsstring) :
  In c (trimStart s) -> In c s.
Proof.
  induction s as [|a s IH]; simpl; [tauto|].
  destruct (isWhiteSpace a); [intros H; right; exact (IH H) | tauto].
Qed.

Lemma In_trim (c : codeUnit) (s : jsstring) : In c (trim s) -> In c s.
Proof.
  unfold trim, trimEnd. intros H.
  apply in_rev in H. apply In_trimStart in H. apply in_rev in H.
  exact (In_trimStart c s H).
Qed.

Lemma spaced_trimStart (s : jsstring) :
  spaced s = true -> spaced (trimStart s) = true.
Proof.
  induction s as [|c s IH]; simpl; [tauto|].
  intros H. apply andb_true_iff in H. destruct H as [Hc Hs].
  destruct (isWhiteSpace c) eqn:E; [exact (IH Hs)|].
  simpl. now rewrite E, Hs.
Qed.

Lemma spaced_trimEnd (s : jsstring) :
  spaced s = true -> spaced (trimEnd s) = true.
Proof.
  induction s as [|c s IH]; [reflexivity|].
  simpl. intros H. apply andb_true_iff in H. destruct H as [Hc Hs].
  rewrite trimEnd_cons. specialize (IH Hs).
  destruct (trimEnd s) as [|a r] eqn:E.
  - destruct (isWhiteSpace c) eqn:W; [reflexivity|]. simpl. now rewrite W.
  - simpl. simpl in IH. rewrite IH, andb_true_r.
    destruct (isWhiteSpace c) eqn:W; [|reflexivity].
    apply andb_true_iff in Hc. destruct Hc as [Hc Hclean].
    rewrite Hc. simpl.
    pose proof (trimEnd_starts_clean s Hclean) as Hs'.
    rewrite E in Hs'. exact Hs'.
Qed.

Lemma collapse_ws_spaced (s : jsstring) :
  forall in_run,
    spaced (collapse_ws in_run s) = true
    /\ (in_run = true -> starts_clean (collapse_ws in_run s) = true).
Proof.
  induction s as [|c s IH]; intros in_run; simpl.
  - split; reflexivity.
  - destruct (isWhiteSpace c) eqn:W.
    + destruct in_run.
      * exact (IH true).
      * split; [|discriminate]. simpl.
        change (isWhiteSpace (cu " ")) with true.
        change (N.eqb (cu " ") 0x20) with true. simpl.
        destruct (IH true) as [H1 H2]. now rewrite H1, (H2 eq_refl).
    + split.
      * simpl. rewrite W. exact (proj1 (IH false)).
      * intros _. simpl. now rewrite W.
Qed.

Lemma spaced_space (s : jsstring) :
  spaced s = true ->
  forall c, In c s -> isWhiteSpace c = true -> c = 0x20%N.
Proof.
  induction s as [|a s IH]; simpl; intros H c Hin Hw; [destruct Hin|].
  apply andb_true_iff in H. destruct H as [Ha Hs].
  destruct Hin as [->|Hin]; [|exact (IH Hs c Hin Hw)].
  rewrite Hw in Ha. apply andb_true_iff in Ha. now apply N.eqb_eq.
Qed.

Lemma collapse_ws_id (s : jsstring) :
  spaced s = true -> collapse_ws false s = s.
Proof.
  assert (Hgen : forall s in_run,
             spaced s = true ->
             (in_run = true -> starts_clean s = true) ->
             collapse_ws in_run s = s).
  { clear s. induction s as [|c s IH]; intros in_run H Hrun;
      [reflexivity|].
    simpl in H. apply andb_true_iff in H. destruct H as [Hc Hs]. simpl.
    destruct (isWhiteSpace c) eqn:W.
    - apply andb_true_iff in Hc. destruct Hc as [Hc Hclean].
      apply N.eqb_eq in Hc. subst c.
      destruct in_run.
      + specialize (Hrun eq_refl). discriminate Hrun.
      + f_equal. apply IH; [exact Hs | intros _; exact Hclean].
    - f_equal. apply IH; [exact Hs | discriminate]. }
  intros H. apply Hgen; [exact H | discriminate].
Qed.

Lemma collapsed_spaced (s : jsstring) : spaced (collapsed s) = true.
Proof.
  unfold collapsed, trim.
  apply spaced_trimEnd, spaced_trimStart, collapse_ws_spaced.
Qed.

Lemma collapsed_idempotent (s : jsstring) : collapsed (collapsed s) = collapsed s.
Proof.
  unfold collapsed at 1.
  rewrite collapse_ws_id by apply collapsed_spaced.
  unfold collapsed. apply trim_idempotent.
Qed.

(** ** Contents of the structural runs *)

Lemma structural_texts (doc : Document.t) (id : jsstring) :
  ImportResult.texts (collectTextsFromHtml doc id)
  = runsFrom id 0 0%float
      (survivors (Document.body doc) [Document.root_style doc]).
Proof.
  unfold collectTextsFromHtml. rewrite walk_survivors, emit_runsFrom.
  reflexivity.
Qed.

Lemma survivors_collapsed (node : Node) :
  forall ancestors entry,
    In entry (survivors node ancestors) ->
    fst entry <> [] /\ exists textContent, fst entry = collapsed textContent.
Proof.
  induction node as [tagName style childNodes IH|textContent|]
    using Node_tree_ind; intros ancestors entry Hin; simpl in Hin.
  - destruct (skipTags_has tagName); [destruct Hin|].
    apply in_flat_map in Hin. destruct Hin as (child & Hchild & Hin).
    rewrite Forall_forall in IH. exact (IH child Hchild _ _ Hin).
  - destruct (collapsed textContent) as [|c s] eqn:E; [destruct Hin|].
    destruct Hin as [<-|[]]. simpl. split; [discriminate|].
    exists textContent. now rewrite E.
  - destruct Hin.
Qed.

(** X4: the content of every structural run is in normal form: not empty,
    without white space at either end, every white-space unit in it a
    single space (U+0020) followed by a visible unit; normalising it
    again changes nothing. *)
Theorem structural_content_normal
  (doc : Document.t) (id : jsstring) (n : nat) (t : IntermediateText.t) :
  nth_error (ImportResult.texts (collectTextsFromHtml doc id)) n = Some t ->
  IntermediateText.content t <> []
  /\ trim (IntermediateText.content t) = IntermediateText.content t
  /\ spaced (IntermediateText.content t) = true
  /\ (forall c, In c (IntermediateText.content t) ->
                isWhiteSpace c = true -> c = 0x20%N)
  /\ collapsed (IntermediateText.content t) = IntermediateText.content t.
Proof.
  rewrite structural_texts. intros Hn.
  destruct (runsFrom_nth _ _ _ _ _ _ Hn) as (node & Hnode & ->).
  apply nth_error_In in Hnode.
  destruct (survivors_collapsed _ _ _ Hnode) as (Hne & tc & Htc).
  cbn [runOf IntermediateText.content]. rewrite Htc in *.
  split; [exact Hne|].
  split; [apply trim_idempotent|].
  split; [apply collapsed_spaced|].
  split; [apply spaced_space, collapsed_spaced|].
  apply collapsed_idempotent.
Qed.

Lemma structural_content_normal_witness :
  collapsed (IntermediateText.content sample_second_run)
  = IntermediateText.content sample_second_run.
Proof.
  assert (H : nth_error (ImportResult.texts
                           (collectTextsFromHtml sample_doc (js "doc"))) 1
              = Some sample_second_run) by (vm_compute; reflexivity).
  exact (proj2 (proj2 (proj2 (proj2
           (structural_content_normal sample_doc (js "doc") 1
                                      sample_second_run H))))).
Defined.

(** ** White space, by words *)

Lemma pieces_cons (c : codeUnit) (r : jsstring) :
  pieces (c :: r)
  = if isWhiteSpace c then ([], fst (pieces r) :: snd (pieces r))
    else (c :: fst (pieces r), snd (pieces r)).
Proof. simpl. destruct (pieces r). reflexivity. Qed.

Lemma pieces_first (s : jsstring) :
  nonempty (fst (pieces s)) = starts_clean s && nonempty s.
Proof.
  destruct s as [|c r]; [reflexivity|].
  rewrite pieces_cons. simpl. destruct (isWhiteSpace c); reflexivity.
Qed.

Lemma words_pieces (s : jsstring) :
  words s = filter nonempty (fst (pieces s) :: snd (pieces s)).
Proof. unfold words. destruct (pieces s). reflexivity. Qed.

Lemma words_space (c : codeUnit) (r : jsstring) :
  isWhiteSpace c = true -> words (c :: r) = words r.
Proof.
  intros W. rewrite !words_pieces, pieces_cons, W. reflexivity.
Qed.

Lemma words_unit (c : codeUnit) (r : jsstring) :
  isWhiteSpace c = false ->
  words (c :: r)
  = (c :: fst (pieces r)) :: filter nonempty (snd (pieces r)).
Proof.
  intros W. rewrite words_pieces, pieces_cons, W. reflexivity.
Qed.

Lemma words_trimStart (s : jsstring) : words (trimStart s) = words s.
Proof.
  induction s as [|c r IH]; [reflexivity|]. simpl.
  destruct (isWhiteSpace c) eqn:W; [|reflexivity].
  now rewrite IH, words_space.
Qed.

Lemma join_words_nil (s : jsstring) : normalised s = [] -> words s = [].
Proof.
  unfold normalised. rewrite words_pieces.
  generalize (fst (pieces s) :: snd (pieces s)). intros l.
  induction l as [|w l IH]; [reflexivity|]. simpl.
  destruct w as [|a w]; simpl; [exact IH|].
  destruct (filter nonempty l); discriminate.
Qed.

(** The collapsed text, seen from its end: after a white-space unit
    ([collapse_ws true]) and elsewhere. *)
Lemma trimEnd_collapse_ws (s : jsstring) :
  trimEnd (collapse_ws true s) = normalised s
  /\ trimEnd (collapse_ws false s)
     = if starts_clean s then normalised s
       else match words s with
            | [] => []
            | _ => cu " " :: normalised s
            end.
Proof.
  induction s as [|c r [IHt IHf]]; [split; reflexivity|].
  assert (Hunit : isWhiteSpace c = false ->
                  forall in_run,
                    trimEnd (collapse_ws in_run (c :: r))
                    = normalised (c :: r)).
  { intros W in_run.
    assert (E : collapse_ws in_run (c :: r) = c :: collapse_ws false r)
      by (simpl; rewrite W; destruct in_run; reflexivity).
    rewrite E, trimEnd_cons, IHf, W.
    unfold normalised. rewrite (words_unit c r W).
    pose proof (pieces_first r) as Hp.
    rewrite words_pieces.
    destruct (fst (pieces r)) as [|a p] eqn:Ep; cbn [nonempty] in Hp.
    - (* the word ends here *)
      cbn [filter nonempty].
      destruct (starts_clean r) eqn:Hc.
      + cbn [andb] in Hp. destruct r as [|d r']; [|simpl in Hp; discriminate Hp].
        reflexivity.
      + destruct (filter nonempty (snd (pieces r))); reflexivity.
    - (* the word goes on *)
      symmetry in Hp. apply andb_true_iff in Hp. destruct Hp as [Hc _].
      rewrite Hc. cbn [filter nonempty].
      destruct (filter nonempty (snd (pieces r))); reflexivity. }
  destruct (isWhiteSpace c) eqn:W.
  - split.
    + simpl. rewrite W. unfold normalised. rewrite (words_space c r W).
      exact IHt.
    + simpl. rewrite W. rewrite trimEnd_cons, IHt.
      change (isWhiteSpace (cu " ")) with true.
      rewrite (words_space c r W).
      unfold normalised. rewrite (words_space c r W).
      destruct (join [cu " "] (words r)) eqn:E.
      * rewrite (join_words_nil r E). reflexivity.
      * destruct (words r); [discriminate E | reflexivity].
  - split; [exact (Hunit eq_refl true)|].
    rewrite (Hunit eq_refl false). simpl. now rewrite W.
Qed.

Lemma trimStart_collapse_ws (s : jsstring) :
  forall in_run,
    trimStart (collapse_ws in_run s) = collapse_ws false (trimStart s).
Proof.
  induction s as [|c r IH]; intros in_run; [reflexivity|]. simpl.
  destruct (isWhiteSpace c) eqn:W.
  - destruct in_run; [apply IH|].
    simpl. change (isWhiteSpace (cu " ")) with true. apply IH.
  - simpl. now rewrite W.
Qed.

(** What the importer keeps of a text node is its words, one space
    between two of them. *)
Lemma collapsed_normalised (s : jsstring) : collapsed s = normalised s.
Proof.
  unfold collapsed, trim. rewrite trimStart_collapse_ws.
  rewrite (proj2 (trimEnd_collapse_ws (trimStart s))), trimStart_clean.
  unfold normalised. now rewrite words_trimStart.
Qed.

Lemma collapsed_hasWord (s : jsstring) :
  hasWord s = nonempty (collapsed s).
Proof.
  rewrite collapsed_normalised. unfold hasWord.
  destruct (normalised s) eqn:E.
  - now rewrite (join_words_nil s E).
  - unfold normalised in E.
    destruct (words s); [discriminate E | reflexivity].
Qed.

Lemma string_eqb_eq (s t : jsstring) : string_eqb s t = true <-> s = t.
Proof.
  revert t. induction s as [|a s IH]; intros [|b t]; simpl;
    try (split; [discriminate | discriminate]); [tauto|].
  rewrite andb_true_iff, N.eqb_eq, IH. split.
  - intros [-> ->]. reflexivity.
  - intros H. injection H as -> ->. split; reflexivity.
Qed.

Lemma skipTags_has_skippedTags (tagName : jsstring) :
  skipTags_has tagName = true <-> In tagName skippedTags.
Proof.
  unfold skipTags_has, skippedTags.
  rewrite orb_true_iff, !string_eqb_eq. simpl. intuition congruence.
Qed.

(** The nodes the importer's walk emits are the text nodes with a word,
    outside script and style subtrees, by their collapsed text. *)
Lemma survivors_surviving (node : Node) :
  forall ancestors, survivors node ancestors = surviving node ancestors.
Proof.
  unfold surviving.
  induction node as [tagName style childNodes IH|textContent|]
    using Node_tree_ind; intros ancestors.
  - cbn [survivors textNodes].
    destruct (in_dec (list_eq_dec N.eq_dec) tagName skippedTags) as [Hin|Hout].
    + now rewrite (proj2 (skipTags_has_skippedTags tagName) Hin).
    + destruct (skipTags_has tagName) eqn:E;
        [elim Hout; now apply skipTags_has_skippedTags|].
      induction IH as [|child rest Hchild _ IHrest]; [reflexivity|].
      cbn [flat_map]. rewrite filter_app, map_app, Hchild, IHrest.
      reflexivity.
  - cbn [survivors textNodes filter fst].
    rewrite collapsed_hasWord.
    destruct (collapsed textContent) as [|c s] eqn:E; [reflexivity|].
    cbn [nonempty map fst snd]. now rewrite <- collapsed_normalised, E.
  - reflexivity.
Qed.

(** X18: the runs of the structural importer are, in order, the text
    nodes of the body that hold a word, met depth first outside the
    subtrees of script and style elements: one run each, whose content is
    the words of the node with one space between two of them.  The
    [n]-th run has the id [<documentId>-page-1-text-<n>], x = 0, as y
    the sum of the heights of the runs before it (from 0), the style
    resolved along the ancestors of its node, the estimator's width and
    height, and vertical = false, rotate = 0, skew = 0, isEOL = true.
    The page height is the largest y + height (from 0), rounded and put
    under [Math.max(1, _)]: at least 1 unless it is [NaN]. *)
Theorem structural_runs_layout (doc : Document.t) (id : jsstring) :
  let res := collectTextsFromHtml doc id in
  let texts := ImportResult.texts res in
  let nodes := surviving (Document.body doc) [Document.root_style doc] in
  map IntermediateText.content texts = map fst nodes
  /\ (forall n t,
        nth_error texts n = Some t ->
        exists ancestors,
          nth_error nodes n = Some (IntermediateText.content t, ancestors)
          /\ IntermediateText.id t
             = id ++ js "-page-1-text-" ++ decimal (N.of_nat n)
          /\ IntermediateText.x t = 0%float
          /\ IntermediateText.y t
             = sumFrom 0%float
                 (map IntermediateText.height (firstn n texts))
          /\ (let sty := collectAncestorInlineStyle ancestors
                           (Defaults.mk 16%float 1.2%float) in
              IntermediateText.fontSize t = ResolvedStyle.fontSize sty
              /\ IntermediateText.lineHeight t = ResolvedStyle.lineHeight sty
              /\ IntermediateText.fontWeight t = ResolvedStyle.fontWeight sty
              /\ IntermediateText.italic t = ResolvedStyle.italic sty
              /\ IntermediateText.color t = ResolvedStyle.color sty
              /\ IntermediateText.fontFamily t
                 = ResolvedStyle.fontFamily sty)
          /\ (let m := estimateTextMetrics (IntermediateText.content t)
                                           (IntermediateText.fontSize t)
                                           (IntermediateText.lineHeight t) in
              IntermediateText.width t = Metrics.width m
              /\ IntermediateText.height t = Metrics.height m)
          /\ IntermediateText.vertical t = false
          /\ IntermediateText.rotate t = 0%float
          /\ IntermediateText.skew t = 0%float
          /\ IntermediateText.isEOL t = true)
  /\ ImportResult.pageHeight res
     = Math_max 1%float
         (Math_round
            (fold_left
               (fun a r =>
                  Math_max a (IntermediateText.y r
                              + IntermediateText.height r)%float)
               texts 0%float))
  /\ (isNaN (ImportResult.pageHeight res) = true
      \/ PrimFloat.leb 1 (ImportResult.pageHeight res) = true).
Proof.
  cbv zeta.
  change (ImportResult.pageHeight (collectTextsFromHtml doc id))
    with (pageHeightOf (ImportResult.texts (collectTextsFromHtml doc id))).
  rewrite structural_texts, survivors_surviving.
  set (nodes := surviving _ _).
  split.
  { generalize 0%nat, 0%float.
    induction nodes as [|node rest IH]; intros idx y; [reflexivity|].
    simpl. now rewrite IH. }
  split.
  { intros n t Hn.
    destruct (runsFrom_nth _ _ _ _ _ _ Hn)
      as ([content ancestors] & Hnode & ->).
    exists ancestors. split; [exact Hnode|]. repeat split. }
  split; [reflexivity|].
  apply pageHeightOf_NaN_or_ge_1.
Qed.

(** ** The fallback on any input *)

Lemma fallbackLineHeight_19 : fallbackLineHeight = 19%float.
Proof. vm_compute. reflexivity. Qed.

Lemma fallback_height (content : jsstring) :
  Metrics.height
    (estimateTextMetrics content fallbackFontSize fallbackLineHeight)
  = 19%float.
Proof.
  unfold estimateTextMetrics. cbn [Metrics.height]. vm_compute. reflexivity.
Qed.

Lemma fallbackLine_runs (id : jsstring) (lines : list jsstring) :
  forall st,
    Walk.texts (fold_left (fallbackLine id) lines st)
    = Walk.texts st ++ fallbackRunsFrom id (Walk.idx st) (Walk.y st) lines.
Proof.
  induction lines as [|ln rest IH]; intros [idx y texts]; simpl.
  - now rewrite app_nil_r.
  - rewrite IH. unfold fallbackLine, nonBlank.
    cbn [Walk.idx Walk.y Walk.texts].
    destruct (trim ln) as [|c s] eqn:E.
    + cbn [nonempty Walk.idx Walk.y Walk.texts].
      rewrite fallbackLineHeight_19. reflexivity.
    + cbn [nonempty Walk.idx Walk.y Walk.texts].
      rewrite fallback_height, <- app_assoc. reflexivity.
Qed.

Lemma fallback_texts (html id : jsstring) :
  FallbackResult.texts (fallbackPlainText html id)
  = fallbackRunsFrom id 0 0%float (split_lines html).
Proof.
  unfold fallbackPlainText. cbn [FallbackResult.texts].
  rewrite fallbackLine_runs. reflexivity.
Qed.

Lemma fallbackRunsFrom_contents (id : jsstring) (lines : list jsstring) :
  forall idx y,
    map IntermediateText.content (fallbackRunsFrom id idx y lines)
    = map trim (filter nonBlank lines).
Proof.
  induction lines as [|ln rest IH]; intros idx y; simpl; [reflexivity|].
  destruct (nonBlank ln); simpl; now rewrite IH.
Qed.

Lemma fallbackRunsFrom_nth (id : jsstring) (lines : list jsstring) :
  forall idx y n t,
    nth_error (fallbackRunsFrom id idx y lines) n = Some t ->
    exists i ln,
      nth_error lines i = Some ln
      /\ nonBlank ln = true
      /\ n = List.length (filter nonBlank (firstn i lines))
      /\ t = fallbackRun id (idx + n) (sumFrom y (repeat 19%float i))
                         (trim ln).
Proof.
  induction lines as [|ln rest IH]; intros idx y n t Hn.
  - destruct n; discriminate Hn.
  - simpl in Hn. destruct (nonBlank ln) eqn:B.
    + destruct n as [|n]; simpl in Hn.
      * injection Hn as <-. exists 0%nat, ln.
        rewrite Nat.add_0_r.
        split; [reflexivity|]. split; [exact B|]. split; reflexivity.
      * destruct (IH _ _ _ _ Hn) as (i & ln' & Hi & Hb & Hcount & ->).
        exists (S i), ln'. simpl. rewrite B. simpl.
        rewrite <- Hcount, Nat.add_succ_r.
        split; [exact Hi|]. split; [exact Hb|]. split; reflexivity.
    + destruct (IH _ _ _ _ Hn) as (i & ln' & Hi & Hb & Hcount & ->).
      exists (S i), ln'. simpl. rewrite B.
      split; [exact Hi|]. split; [exact Hb|]. split; [exact Hcount|].
      reflexivity.
Qed.

Lemma fallbackRunsFrom_line (id : jsstring) (lines : list jsstring) :
  forall idx y i ln,
    nth_error lines i = Some ln ->
    nonBlank ln = true ->
    let n := List.length (filter nonBlank (firstn i lines)) in
    nth_error (fallbackRunsFrom id idx y lines) n
    = Some (fallbackRun id (idx + n) (sumFrom y (repeat 19%float i))
                        (trim ln)).
Proof.
  induction lines as [|l rest IH]; intros idx y i ln Hi Hb;
    [destruct i; discriminate Hi|].
  destruct i as [|i]; simpl in Hi.
  - injection Hi as ->. simpl. rewrite Hb, Nat.add_0_r. reflexivity.
  - specialize (IH (if nonBlank l then S idx else idx) (y + 19)%float
                   i ln Hi Hb).
    simpl. destruct (nonBlank l); simpl.
    + rewrite IH, Nat.add_succ_r. reflexivity.
    + exact IH.
Qed.

(** X5: on any input the fallback makes one run per non-blank line, in
    order, with the trimmed line as content.  The run of the line at
    index [i] is the [n]-th run, [n] the number of non-blank lines before
    it; its offset is 19 added [i] times to 0 (every line, blank or not,
    takes one line height); its style is the fixed one and its width the
    estimate for 16 pixel text.  Every non-blank line has its run, and
    every run comes from such a line. *)
Theorem fallback_layout (html id : jsstring) :
  let lines := split_lines html in
  let texts := FallbackResult.texts (fallbackPlainText html id) in
  map IntermediateText.content texts = map trim (filter nonBlank lines)
  /\ (forall i ln,
        nth_error lines i = Some ln ->
        trim ln <> [] ->
        exists t,
          nth_error texts (List.length (filter nonBlank (firstn i lines)))
          = Some t
          /\ IntermediateText.content t = trim ln
          /\ IntermediateText.y t = sumFrom 0%float (repeat 19%float i))
  /\ (forall n t,
        nth_error texts n = Some t ->
        exists i ln,
          nth_error lines i = Some ln
          /\ n = List.length (filter nonBlank (firstn i lines))
          /\ IntermediateText.content t = trim ln
          /\ IntermediateText.content t <> []
          /\ IntermediateText.id t
             = id ++ js "-page-1-text-" ++ decimal (N.of_nat n)
          /\ IntermediateText.y t = sumFrom 0%float (repeat 19%float i)
          /\ IntermediateText.x t = 0%float
          /\ IntermediateText.height t = 19%float
          /\ IntermediateText.lineHeight t = 19%float
          /\ IntermediateText.fontSize t = 16%float
          /\ IntermediateText.width t
             = Math_max 1%float
                 (Math_round
                    (of_nat (List.length (trim ln)) * 16 * 0.6)%float)
          /\ IntermediateText.ascent t = 13%float
          /\ IntermediateText.descent t = 3%float
          /\ IntermediateText.fontWeight t = 400%float
          /\ IntermediateText.italic t = false
          /\ IntermediateText.color t = js "#000"
          /\ IntermediateText.fontFamily t = []
          /\ IntermediateText.dir t = LTR).
Proof.
  cbv zeta. rewrite fallback_texts.
  split; [apply fallbackRunsFrom_contents|].
  split.
  { intros i ln Hi Hne.
    assert (Hb : nonBlank ln = true)
      by (unfold nonBlank; destruct (trim ln); [now elim Hne | reflexivity]).
    eexists. split; [exact (fallbackRunsFrom_line id _ 0 0%float i ln Hi Hb)|].
    split; reflexivity. }
  intros n t Hn.
  destruct (fallbackRunsFrom_nth _ _ _ _ _ _ Hn)
    as (i & ln & Hi & Hb & Hcount & ->).
  exists i, ln.
  split; [exact Hi|]. split; [exact Hcount|].
  split; [reflexivity|].
  split.
  { cbn [fallbackRun IntermediateText.content]. unfold nonBlank in Hb.
    destruct (trim ln); [discriminate Hb | discriminate]. }
  split; [reflexivity|]. split; [reflexivity|]. split; [reflexivity|].
  split; [apply fallback_height|].
  split; [exact fallbackLineHeight_19|].
  split; [reflexivity|]. split; [reflexivity|].
  repeat split; vm_compute; reflexivity.
Qed.

(** ** [encode]: which path gives the runs *)

Lemma titleOr_nonempty (title : jsstring) : titleOr title <> [].
Proof. destruct title; discriminate. Qed.

Lemma titleOr_idempotent (title : jsstring) :
  titleOr (titleOr title) = titleOr title.
Proof. destruct title; reflexivity. Qed.

Lemma encode_None (host : Host.t) : encode host None = None.
Proof. reflexivity. Qed.

Lemma encode_no_decoder (host : Host.t) (bytes : list N) :
  Host.TextDecoder host = false -> encode host (Some bytes) = None.
Proof.
  intros Hd. unfold encode, decodeBufferToString. rewrite Hd. reflexivity.
Qed.

Lemma encode_no_parser (host : Host.t) (bytes : list N) :
  Host.TextDecoder host = true ->
  Host.DOMParser host = None ->
  let html := TextDecoder_decode bytes in
  let id := js "html-" ++ toString (Host.now host) in
  encode host (Some bytes)
  = Some (assembled (Host.now host) (js "Untitled HTML")
            (FallbackResult.texts (fallbackPlainText html id))).
Proof.
  intros Hdec Hp. unfold encode, decodeBufferToString. rewrite Hdec, Hp.
  reflexivity.
Qed.

Lemma encode_parser_throws (host : Host.t) (bytes : list N)
  (parse : jsstring -> option Document.t) :
  Host.TextDecoder host = true ->
  Host.DOMParser host = Some parse ->
  parse (TextDecoder_decode bytes) = None ->
  let html := TextDecoder_decode bytes in
  let id := js "html-" ++ toString (Host.now host) in
  encode host (Some bytes)
  = Some (assembled (Host.now host) (js "Untitled HTML")
            (FallbackResult.texts (fallbackPlainText html id))).
Proof.
  intros Hdec Hp Hd. unfold encode, decodeBufferToString.
  rewrite Hdec, Hp, Hd.
  reflexivity.
Qed.

Lemma encode_parsed (host : Host.t) (bytes : list N)
  (parse : jsstring -> option Document.t) (doc : Document.t) :
  Host.TextDecoder host = true ->
  Host.DOMParser host = Some parse ->
  parse (TextDecoder_decode bytes) = Some doc ->
  let html := TextDecoder_decode bytes in
  let id := js "html-" ++ toString (Host.now host) in
  encode host (Some bytes)
  = Some (assembled (Host.now host) (titleOr (Document.title doc))
            (match ImportResult.texts (collectTextsFromHtml doc id) with
             | [] => FallbackResult.texts (fallbackPlainText html id)
             | texts => texts
             end)).
Proof.
  intros Hdec Hp Hd. unfold encode, decodeBufferToString.
  rewrite Hdec, Hp, Hd.
  cbv zeta.
  set (res := collectTextsFromHtml doc _).
  assert (Ht : ImportResult.title res = titleOr (Document.title doc)).
  { unfold res, collectTextsFromHtml, titleOr. cbn [ImportResult.title].
    destruct (Document.title doc); reflexivity. }
  assert (Hh : ImportResult.pageHeight res
               = pageHeightOf (ImportResult.texts res)) by reflexivity.
  clearbody res. destruct res as [title texts h].
  cbn [ImportResult.title ImportResult.texts ImportResult.pageHeight] in *.
  subst title h.
  pose proof (titleOr_nonempty (Document.title doc)) as Hne.
  destruct (titleOr (Document.title doc)) as [|c l]; [congruence|].
  destruct texts as [|t ts]; reflexivity.
Qed.

(** ** The runs of an import *)

Lemma split_lines_acc_no_LF (s : jsstring) :
  forall cur in_sep ln,
    ~ In 0x0A%N cur ->
    In ln (split_lines_acc s cur in_sep) -> ~ In 0x0A%N ln.
Proof.
  induction s as [|c s IH]; intros cur in_sep ln Hcur Hin; simpl in Hin.
  - destruct Hin as [<-|[]]. intros H. apply in_rev in H. exact (Hcur H).
  - destruct (N.eqb_spec c 0x0A) as [->|Hc].
    + destruct in_sep.
      * exact (IH [] true ln (fun H => H) Hin).
      * destruct Hin as [<-|Hin].
        -- intros H. apply in_rev in H. exact (Hcur H).
        -- exact (IH [] true ln (fun H => H) Hin).
    + apply (IH (c :: cur) false ln); [|exact Hin].
      intros [H|H]; [exact (Hc H) | exact (Hcur H)].
Qed.

Lemma split_lines_no_LF (s ln : jsstring) :
  In ln (split_lines s) -> ~ In 0x0A%N ln.
Proof. apply split_lines_acc_no_LF. intros []. Qed.

Lemma detectDir_not_TTB (text : jsstring) : detectDir text <> TTB.
Proof. unfold detectDir. destruct (existsb rtlUnit text); discriminate. Qed.

Lemma runsFrom_imported (id : jsstring) (node : Node) (ancestors : Ancestors)
  (n : nat) (t : IntermediateText.t) :
  nth_error (runsFrom id 0 0%float (survivors node ancestors)) n = Some t ->
  importedRun id n t.
Proof.
  intros Hn.
  destruct (runsFrom_nth _ _ _ _ _ _ Hn) as (entry & Hentry & ->).
  apply nth_error_In in Hentry.
  destruct (survivors_collapsed _ _ _ Hentry) as (Hne & tc & Htc).
  unfold importedRun. cbn [runOf IntermediateText.id IntermediateText.content
    IntermediateText.x IntermediateText.vertical IntermediateText.dir
    IntermediateText.rotate IntermediateText.skew IntermediateText.isEOL
    IntermediateText.width IntermediateText.height
    IntermediateText.fontSize IntermediateText.lineHeight].
  split; [reflexivity|]. split; [exact Hne|].
  split; [rewrite Htc; apply trim_idempotent|].
  split.
  { rewrite Htc. intros H.
    pose proof (spaced_space _ (collapsed_spaced tc) _ H eq_refl) as E.
    discriminate E. }
  split; [reflexivity|]. split; [reflexivity|].
  split; [apply detectDir_not_TTB|].
  repeat split.
Qed.

Lemma fallbackRunsFrom_imported (id html : jsstring) (n : nat)
  (t : IntermediateText.t) :
  nth_error (fallbackRunsFrom id 0 0%float (split_lines html)) n = Some t ->
  importedRun id n t.
Proof.
  intros Hn.
  destruct (fallbackRunsFrom_nth _ _ _ _ _ _ Hn)
    as (i & ln & Hi & Hb & _ & ->).
  apply nth_error_In in Hi.
  unfold importedRun. cbn [fallbackRun IntermediateText.id
    IntermediateText.content
    IntermediateText.x IntermediateText.vertical IntermediateText.dir
    IntermediateText.rotate IntermediateText.skew IntermediateText.isEOL
    IntermediateText.width IntermediateText.height
    IntermediateText.fontSize IntermediateText.lineHeight].
  split; [reflexivity|].
  split; [unfold nonBlank in Hb; destruct (trim ln); discriminate|].
  split; [apply trim_idempotent|].
  split; [intros H; exact (split_lines_no_LF _ _ Hi (In_trim _ _ H))|].
  split; [reflexivity|]. split; [reflexivity|].
  split; [discriminate|].
  repeat split.
Qed.

Lemma uint_units_inj (u : Decimal.uint) :
  forall v, uint_units u = uint_units v -> u = v.
Proof.
  induction u; intros v H; destruct v; simpl in H;
    try discriminate H; try reflexivity;
    injection H as H; f_equal; apply IHu; exact H.
Qed.

Lemma run_id_inj (id : jsstring) (a b : nat) :
  run_id id a = run_id id b -> a = b.
Proof.
  unfold run_id. intros H.
  apply app_inv_head in H. apply app_inv_head in H.
  apply uint_units_inj in H. apply Unsigned.to_uint_inj in H.
  now apply Nnat.Nat2N.inj.
Qed.

Lemma NoDup_run_ids (id : jsstring) (l : list nat) :
  NoDup l -> NoDup (map (run_id id) l).
Proof.
  induction 1 as [|a l Ha Hl IH]; simpl; constructor; [|exact IH].
  intros Hin. apply in_map_iff in Hin. destruct Hin as (b & Hb & Hin).
  apply run_id_inj in Hb. subst b. exact (Ha Hin).
Qed.

Lemma runsFrom_ids (id : jsstring) (nodes : list (jsstring * Ancestors)) :
  forall idx y,
    map IntermediateText.id (runsFrom id idx y nodes)
    = map (run_id id) (seq idx (List.length nodes)).
Proof.
  induction nodes as [|node rest IH]; intros idx y; simpl; [reflexivity|].
  now rewrite IH.
Qed.

Lemma fallbackRunsFrom_ids (id : jsstring) (lines : list jsstring) :
  forall idx y,
    map IntermediateText.id (fallbackRunsFrom id idx y lines)
    = map (run_id id) (seq idx (List.length (filter nonBlank lines))).
Proof.
  induction lines as [|ln rest IH]; intros idx y; simpl; [reflexivity|].
  destruct (nonBlank ln); simpl; now rewrite IH.
Qed.

(** The runs of the one page [encode] makes: the fallback's or the
    structural ones. *)
Lemma encode_texts (host : Host.t) (bytes : list N)
  (doc : IntermediateDocument.t) (p : IntermediatePage.t) :
  encode host (Some bytes) = Some doc ->
  In p (IntermediateDocument.pages doc) ->
  let id := IntermediateDocument.id doc in
  IntermediatePage.texts p
  = fallbackRunsFrom id 0 0%float (split_lines (TextDecoder_decode bytes))
  \/ exists node ancestors,
       IntermediatePage.texts p
       = runsFrom id 0 0%float (survivors node ancestors).
Proof.
  intros He Hp.
  destruct (Host.TextDecoder host) eqn:Hdec;
    [|rewrite (encode_no_decoder host bytes Hdec) in He; discriminate He].
  destruct (Host.DOMParser host) as [parse|] eqn:Hparse.
  - destruct (parse (TextDecoder_decode bytes)) as [d|] eqn:Hd.
    + rewrite (encode_parsed host bytes parse d Hdec Hparse Hd) in He.
      rewrite structural_texts in He.
      destruct (runsFrom _ 0 0%float _) as [|t ts] eqn:E in He;
        injection He as <-; destruct Hp as [<-|[]].
      * left. apply fallback_texts.
      * right. eexists. eexists. symmetry. exact E.
    + rewrite (encode_parser_throws host bytes parse Hdec Hparse Hd) in He.
      injection He as <-. destruct Hp as [<-|[]].
      left. apply fallback_texts.
  - rewrite (encode_no_parser host bytes Hdec Hparse) in He.
    injection He as <-. destruct Hp as [<-|[]].
    left. apply fallback_texts.
Qed.

Lemma encode_texts_imported (host : Host.t) (bytes : list N)
  (doc : IntermediateDocument.t) (p : IntermediatePage.t) (n : nat)
  (t : IntermediateText.t) :
  encode host (Some bytes) = Some doc ->
  In p (IntermediateDocument.pages doc) ->
  nth_error (IntermediatePage.texts p) n = Some t ->
  importedRun (IntermediateDocument.id doc) n t.
Proof.
  intros He Hp Hn.
  destruct (encode_texts host bytes doc p He Hp) as [E|(node & anc & E)];
    rewrite E in Hn.
  - exact (fallbackRunsFrom_imported _ _ _ _ Hn).
  - exact (runsFrom_imported _ _ _ _ _ Hn).
Qed.

(** X6: whatever the host and the bytes, the [n]-th run of the page
    [encode] makes has the id [<document id>-page-1-text-<n>], a content
    that is not empty, has no white space at either end and no line
    feed, x = 0, a horizontal direction (never TTB), no rotation or skew,
    the end-of-line flag, and the estimator's width and height for its
    own content, font size and line height. *)
Theorem encode_runs (host : Host.t) (bytes : list N)
  (doc : IntermediateDocument.t) (p : IntermediatePage.t) (n : nat)
  (t : IntermediateText.t) :
  encode host (Some bytes) = Some doc ->
  In p (IntermediateDocument.pages doc) ->
  nth_error (IntermediatePage.texts p) n = Some t ->
  importedRun (IntermediateDocument.id doc) n t.
Proof. exact (encode_texts_imported host bytes doc p n t). Qed.

(** X7: the ids of the runs of a page [encode] makes are pairwise
    distinct. *)
Theorem encode_ids_distinct (host : Host.t) (bytes : list N)
  (doc : IntermediateDocument.t) (p : IntermediatePage.t) :
  encode host (Some bytes) = Some doc ->
  In p (IntermediateDocument.pages doc) ->
  NoDup (map IntermediateText.id (IntermediatePage.texts p)).
Proof.
  intros He Hp.
  destruct (encode_texts host bytes doc p He Hp) as [E|(node & anc & E)];
    rewrite E.
  - rewrite fallbackRunsFrom_ids. apply NoDup_run_ids, seq_NoDup.
  - rewrite runsFrom_ids. apply NoDup_run_ids, seq_NoDup.
Qed.

Lemma encode_runs_witness :
  importedRun (js "html-0") 1
    (fallbackRun (js "html-0") 1 19%float (js "<p>第一段</p>")).
Proof.
  refine (encode_runs sample_host markup_three_lines sample_encoded
            sample_page 1 _ _ _ _).
  - exact (encode_no_parser sample_host markup_three_lines eq_refl eq_refl).
  - left. vm_compute. reflexivity.
  - vm_compute. reflexivity.
Defined.

Lemma encode_ids_distinct_witness :
  NoDup (map IntermediateText.id (IntermediatePage.texts sample_page)).
Proof.
  refine (encode_ids_distinct sample_host markup_three_lines sample_encoded
            sample_page _ _).
  - exact (encode_no_parser sample_host markup_three_lines eq_refl eq_refl).
  - left. vm_compute. reflexivity.
Defined.

(** X8: [encode] answers nothing in exactly two cases: there is no
    buffer, or the host has no [TextDecoder], so that decoding throws.
    On a host with a [TextDecoder] it makes, for any bytes, a document
    with the id html-<now>, a title that is not empty and exactly one
    page: id <document id>-page-1, number 1, width 800, no thumbnail, and
    a height that is the page height of its runs, at least 1 unless it is
    NaN. *)
Theorem encode_one_page (host : Host.t) (bytes : list N) :
  encode host None = None
  /\ (encode host (Some bytes) = None <-> Host.TextDecoder host = false)
  /\ (Host.TextDecoder host = true ->
      exists title texts,
        encode host (Some bytes)
        = Some
            (IntermediateDocument.mk
               (js "html-" ++ toString (Host.now host)) title
               [IntermediatePage.mk
                  ((js "html-" ++ toString (Host.now host)) ++ js "-page-1")
                  1%float 800%float (pageHeightOf texts) texts None])
        /\ title <> []
        /\ (isNaN (pageHeightOf texts) = true
            \/ PrimFloat.leb 1 (pageHeightOf texts) = true)).
Proof.
  assert (Hsome :
            Host.TextDecoder host = true ->
            exists title texts,
              encode host (Some bytes)
              = Some
                  (IntermediateDocument.mk
                     (js "html-" ++ toString (Host.now host)) title
                     [IntermediatePage.mk
                        ((js "html-" ++ toString (Host.now host))
                         ++ js "-page-1")
                        1%float 800%float (pageHeightOf texts) texts None])
              /\ title <> []
              /\ (isNaN (pageHeightOf texts) = true
                  \/ PrimFloat.leb 1 (pageHeightOf texts) = true)).
  { intros Hdec.
    destruct (Host.DOMParser host) as [parse|] eqn:Hparse.
    - destruct (parse (TextDecoder_decode bytes)) as [d|] eqn:Hd.
      + rewrite (encode_parsed host bytes parse d Hdec Hparse Hd).
        eexists. eexists. split; [reflexivity|].
        split; [apply titleOr_nonempty | apply pageHeightOf_NaN_or_ge_1].
      + rewrite (encode_parser_throws host bytes parse Hdec Hparse Hd).
        eexists. eexists. split; [reflexivity|].
        split; [discriminate | apply pageHeightOf_NaN_or_ge_1].
    - rewrite (encode_no_parser host bytes Hdec Hparse).
      eexists. eexists. split; [reflexivity|].
      split; [discriminate | apply pageHeightOf_NaN_or_ge_1]. }
  split; [reflexivity|]. split; [|exact Hsome].
  destruct (Host.TextDecoder host) eqn:Hdec.
  - destruct (Hsome eq_refl) as (title & texts & -> & _).
    split; discriminate.
  - split; [reflexivity | intros _; apply encode_no_decoder, Hdec].
Qed.

Lemma structural_texts_nil (doc : Document.t) (id : jsstring) :
  ImportResult.texts (collectTextsFromHtml doc id) = []
  <-> survivors (Document.body doc) [Document.root_style doc] = [].
Proof.
  rewrite structural_texts. split; intros H.
  - apply (f_equal (@List.length _)) in H. rewrite runsFrom_length in H.
    now apply length_zero_iff_nil.
  - now rewrite H.
Qed.

(** X9: on a host with a [TextDecoder], the fallback gives the runs
    exactly when the structural path gives none: with no parser, with a
    parser that throws, and with a parsed document whose body holds no
    surviving text node.  In the last case the runs are the lines of the
    raw markup under the parsed title.  When a text node survives, the
    structural runs are used and the title too is the parsed one
    (Untitled HTML if it is empty). *)
Theorem encode_fallback_trigger (host : Host.t) (bytes : list N) :
  let html := TextDecoder_decode bytes in
  let id := js "html-" ++ toString (Host.now host) in
  let fallback := FallbackResult.texts (fallbackPlainText html id) in
  Host.TextDecoder host = true ->
  (Host.DOMParser host = None ->
   encode host (Some bytes)
   = Some (assembled (Host.now host) (js "Untitled HTML") fallback))
  /\ (forall parse,
        Host.DOMParser host = Some parse -> parse html = None ->
        encode host (Some bytes)
        = Some (assembled (Host.now host) (js "Untitled HTML") fallback))
  /\ (forall parse doc,
        Host.DOMParser host = Some parse -> parse html = Some doc ->
        survivors (Document.body doc) [Document.root_style doc] = [] ->
        encode host (Some bytes)
        = Some (assembled (Host.now host) (titleOr (Document.title doc))
                          fallback))
  /\ (forall parse doc,
        Host.DOMParser host = Some parse -> parse html = Some doc ->
        survivors (Document.body doc) [Document.root_style doc] <> [] ->
        encode host (Some bytes)
        = Some (assembled (Host.now host) (titleOr (Document.title doc))
                          (ImportResult.texts (collectTextsFromHtml doc id)))).
Proof.
  cbv zeta. intros Hdec.
  split; [apply encode_no_parser, Hdec|].
  split; [intros parse; apply encode_parser_throws, Hdec|].
  split.
  - intros parse doc Hp Hd Hs.
    rewrite (encode_parsed host bytes parse doc Hdec Hp Hd).
    rewrite (proj2 (structural_texts_nil doc _) Hs). reflexivity.
  - intros parse doc Hp Hd Hs.
    rewrite (encode_parsed host bytes parse doc Hdec Hp Hd).
    destruct (ImportResult.texts (collectTextsFromHtml doc _)) eqn:E;
      [|reflexivity].
    exfalso. apply Hs. exact (proj1 (structural_texts_nil doc _) E).
Qed.

Lemma encode_fallback_trigger_witness :
  outline (encode titled_host (Some markup_three_lines))
  = Some (js "Only a title",
          [[js "<h1>标题</h1>"; js "<p>第一段</p>"; js "<p>第二段</p>"]]).
Proof.
  rewrite (proj1 (proj2 (proj2
             (encode_fallback_trigger titled_host markup_three_lines
                                      eq_refl)))
             (fun _ => Some empty_body_doc) empty_body_doc
             eq_refl eq_refl eq_refl).
  vm_compute. reflexivity.
Defined.

(** ** Pure text and the fallback *)

Lemma split_lines_acc_line (c : jsstring) :
  ~ In 0x0A%N c ->
  forall rest cur in_sep,
    split_lines_acc (c ++ rest) cur in_sep
    = split_lines_acc rest (rev c ++ cur)
                      (match c with [] => in_sep | _ => false end).
Proof.
  induction c as [|a c IH]; intros Hc rest cur in_sep; [reflexivity|].
  simpl. destruct (N.eqb_spec a 0x0A) as [->|Ha].
  - exfalso. apply Hc. now left.
  - rewrite IH by (intros H; apply Hc; now right).
    rewrite <- app_assoc. simpl. destruct c; reflexivity.
Qed.

Lemma split_lines_acc_LF (rest cur : jsstring) :
  split_lines_acc (LF ++ rest) cur false
  = rev cur :: split_lines_acc rest [] true.
Proof. reflexivity. Qed.

Lemma split_lines_join (cs : list jsstring) :
  cs <> [] ->
  (forall c, In c cs -> c <> [] /\ ~ In 0x0A%N c) ->
  forall in_sep, split_lines_acc (join LF cs) [] in_sep = cs.
Proof.
  induction cs as [|c cs IH]; intros Hne Hcs in_sep; [congruence|].
  destruct (Hcs c (or_introl eq_refl)) as [Hc HLF].
  destruct cs as [|c' cs].
  - simpl. rewrite <- (app_nil_r c) at 1.
    rewrite split_lines_acc_line by exact HLF.
    simpl. now rewrite app_nil_r, rev_involutive.
  - change (join LF (c :: c' :: cs)) with (c ++ LF ++ join LF (c' :: cs)).
    rewrite split_lines_acc_line by exact HLF.
    destruct c as [|a c]; [congruence|].
    rewrite split_lines_acc_LF, app_nil_r, rev_involutive. f_equal.
    apply IH; [discriminate|].
    intros x Hx. apply Hcs. now right.
Qed.

Lemma trim_filter_id (cs : list jsstring) :
  (forall c, In c cs -> c <> [] /\ trim c = c) ->
  map trim (filter nonBlank cs) = cs.
Proof.
  induction cs as [|c cs IH]; intros H; [reflexivity|].
  destruct (H c (or_introl eq_refl)) as [Hne Ht].
  simpl. unfold nonBlank at 1. rewrite Ht.
  destruct c as [|a c]; [congruence|]. simpl. rewrite Ht. f_equal.
  apply IH. intros x Hx. apply H. now right.
Qed.

Lemma pure_text_contents (texts : list IntermediateText.t) (id : jsstring) :
  (forall t, In t texts ->
             IntermediateText.content t <> []
             /\ trim (IntermediateText.content t) = IntermediateText.content t
             /\ ~ In 0x0A%N (IntermediateText.content t)) ->
  map IntermediateText.content
      (FallbackResult.texts
         (fallbackPlainText (join LF (map IntermediateText.content texts)) id))
  = map IntermediateText.content texts.
Proof.
  intros H. rewrite fallback_texts, fallbackRunsFrom_contents.
  set (cs := map IntermediateText.content texts).
  assert (Hcs : forall c, In c cs -> c <> [] /\ trim c = c /\ ~ In 0x0A%N c).
  { intros c Hc. apply in_map_iff in Hc. destruct Hc as (t & <- & Ht).
    exact (H t Ht). }
  destruct cs as [|c cs'] eqn:E; [reflexivity|].
  unfold split_lines. rewrite split_lines_join.
  - apply trim_filter_id. intros x Hx. destruct (Hcs x Hx) as (A & B & _).
    now split.
  - discriminate.
  - intros x Hx. destruct (Hcs x Hx) as (A & _ & C). now split.
Qed.

(** X10: the pure text of a page [encode] made (its contents joined by
    line feeds) goes through the fallback back to the same contents, in
    the same order. *)
Theorem pure_text_round_trip (host : Host.t) (bytes : list N)
  (doc : IntermediateDocument.t) (p : IntermediatePage.t)
  (id : jsstring) :
  encode host (Some bytes) = Some doc ->
  In p (IntermediateDocument.pages doc) ->
  map IntermediateText.content
      (FallbackResult.texts (fallbackPlainText (getPureText p) id))
  = map IntermediateText.content (IntermediatePage.texts p).
Proof.
  intros He Hp. unfold getPureText. apply pure_text_contents.
  intros t Ht. apply In_nth_error in Ht. destruct Ht as (n & Hn).
  destruct (encode_texts_imported host bytes doc p n t He Hp Hn)
    as (_ & A & B & C & _).
  now repeat split.
Qed.

Lemma pure_text_round_trip_witness :
  map IntermediateText.content
      (FallbackResult.texts
         (fallbackPlainText (getPureText sample_page) (js "again")))
  = map IntermediateText.content (IntermediatePage.texts sample_page).
Proof.
  refine (pure_text_round_trip sample_host markup_three_lines sample_encoded
            sample_page (js "again") _ _).
  - exact (encode_no_parser sample_host markup_three_lines eq_refl eq_refl).
  - left. vm_compute. reflexivity.
Defined.

(** ** Markup characters in the exported span *)

Lemma markup_free_app (a b : jsstring) :
  markup_free a = true -> markup_free b = true ->
  markup_free (a ++ b) = true.
Proof.
  unfold markup_free. intros Ha Hb. now rewrite forallb_app, Ha, Hb.
Qed.

Lemma markup_free_firstn (n : nat) (s : jsstring) :
  markup_free s = true -> markup_free (firstn n s) = true.
Proof.
  revert n. induction s as [|c s IH]; intros [|n] H; try reflexivity.
  simpl in *. apply andb_true_iff in H. destruct H as [Hc Hs].
  now rewrite Hc, (IH n Hs).
Qed.

Lemma markup_free_skipn (n : nat) (s : jsstring) :
  markup_free s = true -> markup_free (skipn n s) = true.
Proof.
  revert n. induction s as [|c s IH]; intros [|n] H; try reflexivity;
    [exact H|].
  simpl in *. apply andb_true_iff in H. destruct H as [_ Hs].
  exact (IH n Hs).
Qed.

Lemma markup_free_zeros (n : nat) : markup_free (zeros n) = true.
Proof. induction n as [|n IH]; [reflexivity | exact IH]. Qed.

Lemma markup_free_uint (u : Decimal.uint) : markup_free (uint_units u) = true.
Proof. induction u; try reflexivity; exact IHu. Qed.

Lemma markup_free_decimal (n : N) : markup_free (decimal n) = true.
Proof. apply markup_free_uint. Qed.

Lemma markup_free_layout (ds : jsstring) (k n : Z) :
  markup_free ds = true -> markup_free (layout ds k n) = true.
Proof.
  intros H. unfold layout.
  destruct (Z.leb k n && Z.leb n 21).
  { apply markup_free_app; [exact H | apply markup_free_zeros]. }
  destruct (Z.ltb 0 n && Z.leb n 21).
  { apply markup_free_app; [now apply markup_free_firstn|].
    apply markup_free_app; [reflexivity | now apply markup_free_skipn]. }
  destruct (Z.ltb (-6) n && Z.leb n 0).
  { apply markup_free_app; [reflexivity|].
    apply markup_free_app; [apply markup_free_zeros | exact H]. }
  cbv zeta.
  assert (Htail : markup_free
                    ([cu "e"; if Z.ltb (n - 1) 0 then cu "-" else cu "+"]
                     ++ decimal (Z.abs_N (n - 1))) = true).
  { apply markup_free_app; [|apply markup_free_decimal].
    destruct (Z.ltb (n - 1) 0); reflexivity. }
  destruct (Z.eqb k 1).
  - apply markup_free_app; [exact H | exact Htail].
  - apply markup_free_app; [now apply markup_free_firstn|].
    apply markup_free_app; [reflexivity|].
    apply markup_free_app; [now apply markup_free_skipn | exact Htail].
Qed.

Lemma markup_free_sign (s : bool) :
  markup_free (if s then [cu "-"] else []) = true.
Proof. destruct s; reflexivity. Qed.

Lemma markup_free_toString (x : number) : markup_free (toString x) = true.
Proof.
  unfold toString. destruct (Prim2SF x) as [s|s| |s m e].
  - reflexivity.
  - apply markup_free_app; [apply markup_free_sign | reflexivity].
  - reflexivity.
  - destruct (shortest m e _ digit_counts) as [[d n] k].
    apply markup_free_app; [apply markup_free_sign|].
    apply markup_free_layout, markup_free_decimal.
Qed.

Lemma markup_free_toFixed (x : number) (f : nat) :
  markup_free (toFixed x f) = true.
Proof.
  unfold toFixed.
  assert (Hpoint : forall ds,
             markup_free ds = true ->
             markup_free
               (let ds' := if Nat.leb (List.length ds) f
                           then zeros (f + 1 - List.length ds) ++ ds
                           else ds in
                let a := (List.length ds' - f)%nat in
                if Nat.eqb f 0 then ds'
                else firstn a ds' ++ [cu "."] ++ skipn a ds') = true).
  { intros ds H. cbv zeta.
    assert (H' : markup_free
                   (if Nat.leb (List.length ds) f
                    then zeros (f + 1 - List.length ds) ++ ds else ds) = true).
    { destruct (Nat.leb (List.length ds) f); [|exact H].
      apply markup_free_app; [apply markup_free_zeros | exact H]. }
    destruct (Nat.eqb f 0); [exact H'|].
    apply markup_free_app; [now apply markup_free_firstn|].
    apply markup_free_app; [reflexivity | now apply markup_free_skipn]. }
  destruct (Prim2SF x) as [s|s| |s m e] eqn:E.
  - apply Hpoint. reflexivity.
  - apply markup_free_toString.
  - reflexivity.
  - destruct (Qle_bool (pow10Q 21) (valueQ false m e));
      [apply markup_free_toString|].
    apply markup_free_app; [apply markup_free_sign|].
    apply Hpoint, markup_free_decimal.
Qed.

Lemma markup_free_cssPxOrPercent (v : number) :
  markup_free (cssPxOrPercent v) = true.
Proof.
  unfold cssPxOrPercent. destruct (PrimFloat.ltb (Math_abs v) 1);
    (apply markup_free_app; [|reflexivity]);
    [apply markup_free_toFixed | apply markup_free_toString].
Qed.

Lemma markup_free_cssFontSize (v : number) :
  markup_free (cssFontSize v) = true.
Proof.
  unfold cssFontSize. destruct (PrimFloat.ltb (Math_abs v) 1);
    (apply markup_free_app; [apply markup_free_toString | reflexivity]).
Qed.

Lemma markup_free_transformOf (t : IntermediateText.t) :
  markup_free (transformOf t) = true.
Proof.
  unfold transformOf.
  assert (Hr : markup_free (js "rotate("
                            ++ toString (IntermediateText.rotate t)
                            ++ js "deg)") = true).
  { apply markup_free_app; [reflexivity|].
    apply markup_free_app; [apply markup_free_toString | reflexivity]. }
  assert (Hs : markup_free (js "skewX("
                            ++ toString (IntermediateText.skew t)
                            ++ js "deg)") = true).
  { apply markup_free_app; [reflexivity|].
    apply markup_free_app; [apply markup_free_toString | reflexivity]. }
  destruct (truthy (IntermediateText.rotate t));
    destruct (truthy (IntermediateText.skew t)); cbn [app join];
    try reflexivity;
    (apply markup_free_app; [reflexivity|]);
    (apply markup_free_app; [|reflexivity]);
    try assumption.
  apply markup_free_app; [exact Hr|].
  apply markup_free_app; [reflexivity | exact Hs].
Qed.

Ltac markup_free_step :=
  lazymatch goal with
  | |- markup_free (_ ++ _) = true => apply markup_free_app
  | |- markup_free (js _) = true => reflexivity
  | |- markup_free [] = true => reflexivity
  | |- markup_free (cssPxOrPercent _) = true =>
      apply markup_free_cssPxOrPercent
  | |- markup_free (cssFontSize _) = true => apply markup_free_cssFontSize
  | |- markup_free (toString _) = true => apply markup_free_toString
  | |- markup_free (transformOf _) = true => apply markup_free_transformOf
  | |- markup_free (IntermediateText.color _) = true => assumption
  | |- markup_free (IntermediateText.fontFamily _) = true => assumption
  end.

Lemma markup_free_styleOf (t : IntermediateText.t) :
  markup_free (IntermediateText.color t) = true ->
  markup_free (IntermediateText.fontFamily t) = true ->
  markup_free (styleOf t) = true.
Proof.
  intros Hc Hf. unfold styleOf.
  destruct (IntermediateText.italic t), (IntermediateText.dir t),
    (IntermediateText.vertical t),
    (nonempty (IntermediateText.fontFamily t)),
    (nonempty (IntermediateText.color t) && _);
    repeat markup_free_step.
Qed.

Lemma renderTextSpan_parts (t : IntermediateText.t) :
  renderTextSpan t
  = (js "<span class=" ++ dq ++ js "hamster-note-text" ++ dq
     ++ js " id=" ++ dq)
    ++ IntermediateText.id t
    ++ (dq ++ js " style=" ++ dq)
    ++ styleOf t
    ++ (dq ++ js ">")
    ++ escapeHtml (IntermediateText.content t)
    ++ js "</span>".
Proof.
  unfold renderTextSpan, styleOf; cbv zeta.
  repeat rewrite <- app_assoc. reflexivity.
Qed.

Lemma occurrences_markup_free (c : codeUnit) (s : jsstring) :
  markup c = true -> markup_free s = true -> occurrences c s = 0%nat.
Proof.
  intros Hc Hs. unfold occurrences. apply count_occ_not_In. intros Hin.
  unfold markup_free in Hs. rewrite forallb_forall in Hs.
  specialize (Hs c Hin). rewrite Hc in Hs. discriminate Hs.
Qed.

Lemma markup_free_escapeHtml (s : jsstring) :
  markup_free (escapeHtml s) = true.
Proof.
  unfold markup_free. apply forallb_forall. intros c Hc.
  rewrite escapeHtml_flat_map in Hc. apply in_flat_map in Hc.
  destruct Hc as (a & _ & Hc). now rewrite (entity_no_markup a c Hc).
Qed.

Lemma renderTextSpan_occurrences (t : IntermediateText.t) (c : codeUnit) :
  markup c = true ->
  markup_free (IntermediateText.id t) = true ->
  markup_free (IntermediateText.color t) = true ->
  markup_free (IntermediateText.fontFamily t) = true ->
  occurrences c (renderTextSpan t)
  = (occurrences c (js "<span class=" ++ dq ++ js "hamster-note-text" ++ dq
                    ++ js " id=" ++ dq)
     + occurrences c (dq ++ js " style=" ++ dq)
     + occurrences c (dq ++ js ">")
     + occurrences c (js "</span>"))%nat.
Proof.
  intros Hm Hid Hc Hf. rewrite renderTextSpan_parts. unfold occurrences.
  rewrite !count_occ_app.
  pose proof (occurrences_markup_free c _ Hm Hid) as E1.
  pose proof (occurrences_markup_free
                c _ Hm (markup_free_styleOf t Hc Hf)) as E2.
  pose proof (occurrences_markup_free
                c _ Hm
                (markup_free_escapeHtml (IntermediateText.content t))) as E3.
  unfold occurrences, codeUnit in E1, E2, E3 |- *.
  rewrite E1, E2, E3. lia.
Qed.

Lemma renderTextSpan_counts (t : IntermediateText.t) :
  markup_free (IntermediateText.id t) = true ->
  markup_free (IntermediateText.color t) = true ->
  markup_free (IntermediateText.fontFamily t) = true ->
  occurrences (cu "<") (renderTextSpan t) = 2%nat
  /\ occurrences (cu ">") (renderTextSpan t) = 2%nat
  /\ occurrences 0x22%N (renderTextSpan t) = 6%nat
  /\ occurrences (cu "'") (renderTextSpan t) = 0%nat.
Proof.
  intros Hid Hc Hf.
  repeat split;
    rewrite renderTextSpan_occurrences by (reflexivity || assumption);
    vm_compute; reflexivity.
Qed.

(** X11: when the id, the colour and the font family of a run hold no
    angle bracket, double quote or apostrophe, its span holds exactly the
    angle brackets of its two tags (two of each), exactly the six double
    quotes of its three attributes and no apostrophe, whatever the
    content and the numbers are. *)
Theorem renderTextSpan_wellformed (t : IntermediateText.t) :
  markup_free (IntermediateText.id t) = true ->
  markup_free (IntermediateText.color t) = true ->
  markup_free (IntermediateText.fontFamily t) = true ->
  occurrences (cu "<") (renderTextSpan t) = 2%nat
  /\ occurrences (cu ">") (renderTextSpan t) = 2%nat
  /\ occurrences 0x22%N (renderTextSpan t) = 6%nat
  /\ occurrences (cu "'") (renderTextSpan t) = 0%nat.
Proof. exact (renderTextSpan_counts t). Qed.

Lemma renderTextSpan_wellformed_witness :
  occurrences (cu "<") (renderTextSpan sample_second_run) = 2%nat.
Proof.
  refine (proj1 (renderTextSpan_wellformed sample_second_run _ _ _));
    vm_compute; reflexivity.
Defined.

(** X12: on the fallback path the export cannot be broken by the input:
    whatever the markup and the clock, the span of every run the
    fallback makes holds exactly two of each angle bracket, six double
    quotes and no apostrophe. *)
Theorem fallback_export_wellformed (html : jsstring) (now : number)
  (n : nat) (t : IntermediateText.t) :
  nth_error
    (FallbackResult.texts
       (fallbackPlainText html (js "html-" ++ toString now))) n = Some t ->
  occurrences (cu "<") (renderTextSpan t) = 2%nat
  /\ occurrences (cu ">") (renderTextSpan t) = 2%nat
  /\ occurrences 0x22%N (renderTextSpan t) = 6%nat
  /\ occurrences (cu "'") (renderTextSpan t) = 0%nat.
Proof.
  rewrite fallback_texts. intros Hn.
  destruct (fallbackRunsFrom_nth _ _ _ _ _ _ Hn)
    as (i & ln & _ & _ & _ & ->).
  apply renderTextSpan_counts; cbn [fallbackRun IntermediateText.id
    IntermediateText.color IntermediateText.fontFamily];
    [|reflexivity|reflexivity].
  unfold run_id.
  apply markup_free_app;
    [apply markup_free_app; [reflexivity | apply markup_free_toString]|].
  apply markup_free_app; [reflexivity | apply markup_free_decimal].
Qed.

Lemma fallback_export_wellformed_witness :
  occurrences (cu "<")
    (renderTextSpan
       (fallbackRun (js "html-0") 0 0%float (js "<h1>标题</h1>")))
  = 2%nat.
Proof.
  refine (proj1 (fallback_export_wellformed
                   (TextDecoder_decode markup_three_lines) 0%float 0
                   (fallbackRun (js "html-0") 0 0%float (js "<h1>标题</h1>"))
                   _)).
  vm_compute. reflexivity.
Defined.

(** ** Inline style declarations *)

Lemma Map_get_fold_declarations (k : jsstring) (decls : list jsstring) :
  forall acc,
    Map_get
      (fold_left
         (fun acc decl =>
            let separator := indexOf decl (cu ":") in
            if Z.eqb separator (-1) then acc
            else
              let key := toLowerCase (trim (slice decl 0 separator)) in
              let value := trim (slice_from decl (separator + 1)) in
              if nonempty key && nonempty value then Map_set acc key value
              else acc)
         decls acc) k
    = match lastDeclared k decls with
      | Some v => Some v
      | None => Map_get acc k
      end.
Proof.
  induction decls as [|d rest IH]; intros acc; [reflexivity|].
  cbn [fold_left lastDeclared]. rewrite IH.
  destruct (lastDeclared k rest); [reflexivity|].
  unfold declaration. cbv zeta.
  destruct (Z.eqb (indexOf d (cu ":")) (-1)); [reflexivity|].
  destruct (nonempty _ && nonempty _); [|reflexivity].
  unfold Map_set. cbn [Map_get].
  destruct (string_eqb _ k); reflexivity.
Qed.

(** X13: looking a key up in the style map of an attribute gives the value
    of the last declaration of that key (keys compared in lower case,
    keys and values trimmed); declarations without a colon, or with a
    blank key or value, count for nothing, and a missing or empty
    attribute gives no value at all. *)
Theorem buildInlineStyleMap_last_wins (styleText : option jsstring)
  (k : jsstring) :
  Map_get (buildInlineStyleMap styleText) k
  = match styleText with
    | None | Some [] => None
    | Some text => lastDeclared k (split text (cu ";"))
    end.
Proof.
  destruct styleText as [[|c text]|]; [reflexivity| |reflexivity].
  unfold buildInlineStyleMap. rewrite Map_get_fold_declarations.
  destruct (lastDeclared k _); reflexivity.
Qed.

(** ** Guards of the value parsers *)

Lemma guarded (n d : number) :
  isNaN d = false -> PrimFloat.eqb d 0 = false ->
  let v := if isNaN n || PrimFloat.eqb n 0 then d else n in
  isNaN v = false /\ PrimFloat.eqb v 0 = false.
Proof.
  intros Hd1 Hd2. cbv zeta.
  destruct (isNaN n) eqn:E1; [now split|].
  destruct (PrimFloat.eqb n 0) eqn:E2; now split.
Qed.

(** X14: a font weight read from a style is never NaN and never 0
    (bold is 700, normal 400, an unreadable or zero number 400); the em
    branches of font-size and line-height never give NaN or 0 either,
    and a line-height without unit never gives NaN.  Only a value ending
    in px is passed on unchecked. *)
Theorem parsers_guarded (raw : jsstring) :
  (forall w, parseFontWeightValue (Some raw) = Some w ->
             isNaN w = false /\ PrimFloat.eqb w 0 = false)
  /\ (forall v, endsWith raw (js "px") = false ->
                parseFontSizeValue (Some raw) = Some v ->
                isNaN v = false /\ PrimFloat.eqb v 0 = false)
  /\ (forall v, endsWith raw (js "px") = false ->
                parseLineHeightValue (Some raw) = Some v ->
                isNaN v = false)
  /\ (parseFontSizeValue (Some raw) = None
      <-> raw = [] \/ (endsWith raw (js "px") = false
                       /\ endsWith raw (js "em") = false)).
Proof.
  split.
  { intros w. unfold parseFontWeightValue.
    destruct raw as [|c r]; [discriminate|].
    destruct (string_eqb _ (js "bold"));
      [intros H; injection H as <-; split; reflexivity|].
    destruct (string_eqb _ (js "normal"));
      [intros H; injection H as <-; split; reflexivity|].
    intros H; injection H as <-.
    apply guarded; reflexivity. }
  split.
  { intros v Hpx. unfold parseFontSizeValue.
    destruct raw as [|c r]; [discriminate|]. rewrite Hpx.
    destruct (endsWith _ (js "em")); [|discriminate].
    intros H; injection H as <-. apply guarded; reflexivity. }
  split.
  { intros v Hpx. unfold parseLineHeightValue.
    destruct raw as [|c r]; [discriminate|]. rewrite Hpx.
    destruct (endsWith _ (js "em")).
    - intros H; injection H as <-.
      apply (guarded _ 1.2%float); reflexivity.
    - destruct (isNaN (Number (c :: r))) eqn:E; [discriminate|].
      intros H; injection H as <-. exact E. }
  unfold parseFontSizeValue. destruct raw as [|c r].
  - split; [now left | reflexivity].
  - destruct (endsWith (c :: r) (js "px")).
    + split; [discriminate | intros [H|[H _]]; discriminate H].
    + destruct (endsWith (c :: r) (js "em")).
      * split; [discriminate | intros [H|[_ H]]; discriminate H].
      * split; [now right | reflexivity].
Qed.

Lemma parsers_guarded_witness :
  isNaN 1%float = false /\ PrimFloat.eqb 1 0 = false.
Proof.
  refine (proj1 (proj2 (parsers_guarded (js "abcem"))) 1%float _ _);
    vm_compute; reflexivity.
Defined.

(** ** Elements that declare nothing *)

Lemma firstSet_remove (k : StyleKey) (near : Ancestors)
  (el : option jsstring) (far : Ancestors) :
  get (parseInlineStyle el) k = None ->
  firstSet k (near ++ el :: far) = firstSet k (near ++ far).
Proof.
  intros Hel. induction near as [|a near IH]; simpl.
  - now rewrite Hel.
  - now rewrite IH.
Qed.

(** X15: an element whose style attribute declares none of the six
    properties (in particular one without style attribute) is
    transparent: wherever it stands in the ancestor chain of a text
    node, the resolved style is the same as without it. *)
Theorem undeclaring_element_transparent (near : Ancestors)
  (el : option jsstring) (far : Ancestors) (defaults : Defaults.t) :
  (forall k, get (parseInlineStyle el) k = None) ->
  collectAncestorInlineStyle (near ++ el :: far) defaults
  = collectAncestorInlineStyle (near ++ far) defaults.
Proof.
  intros Hel. rewrite !collectAncestorInlineStyle_resolveFrom.
  unfold resolveFrom. now rewrite !firstSet_remove by apply Hel.
Qed.

Lemma undeclaring_element_transparent_witness :
  collectAncestorInlineStyle
    ([Some (js "color: red")] ++ None :: [Some (js "font-size: 20px")])
    styleDefaults
  = collectAncestorInlineStyle
      ([Some (js "color: red")] ++ [Some (js "font-size: 20px")])
      styleDefaults.
Proof.
  apply undeclaring_element_transparent.
  intros k. destruct k; reflexivity.
Defined.

(** ** Tags of the exported fragment *)

Lemma occurrences_app (c : codeUnit) (a b : jsstring) :
  occurrences c (a ++ b) = (occurrences c a + occurrences c b)%nat.
Proof. apply count_occ_app. Qed.

Lemma occurrences_join_nil (c : codeUnit) (parts : list jsstring) :
  occurrences c (join [] parts) = list_sum (map (occurrences c) parts).
Proof.
  induction parts as [|p rest IH]; [reflexivity|].
  destruct rest as [|q rest].
  - simpl. lia.
  - change (join [] (p :: q :: rest)) with (p ++ [] ++ join [] (q :: rest)).
    rewrite occurrences_app. cbn [app]. rewrite IH. reflexivity.
Qed.

Ltac count_literals :=
  repeat match goal with
    | |- context [occurrences ?c (js ?s)] =>
        let v := eval vm_compute in (occurrences c (js s)) in
        change (occurrences c (js s)) with v
    | |- context [occurrences ?c dq] =>
        let v := eval vm_compute in (occurrences c dq) in
        change (occurrences c dq) with v
    end.

Lemma spans_angle_count (c : codeUnit) (texts : list IntermediateText.t) :
  c = cu "<" \/ c = cu ">" ->
  forallb clean_run texts = true ->
  occurrences c (join [] (map renderTextSpan texts))
  = (2 * List.length texts)%nat.
Proof.
  intros Hc Hclean. rewrite occurrences_join_nil, map_map.
  set (f := fun t => occurrences c (renderTextSpan t)).
  induction texts as [|t texts IH]; [reflexivity|].
  simpl in Hclean. apply andb_true_iff in Hclean.
  destruct Hclean as [Ht Hts].
  unfold clean_run in Ht. apply andb_true_iff in Ht.
  destruct Ht as [Ht Hf]. apply andb_true_iff in Ht. destruct Ht as [Hi Hco].
  destruct (renderTextSpan_counts t Hi Hco Hf) as (L & G & _).
  change (list_sum (map f (t :: texts)))
    with (f t + list_sum (map f texts))%nat.
  rewrite (IH Hts). unfold f. cbn [List.length].
  destruct Hc as [->| ->]; [rewrite L | rewrite G]; lia.
Qed.

Lemma page_angle_count
  (getThumbnail : IntermediatePage.t -> number -> option jsstring)
  (c : codeUnit) (p : IntermediatePage.t) :
  c = cu "<" \/ c = cu ">" ->
  clean_page getThumbnail p = true ->
  occurrences c (lazyRenderPageDiv getThumbnail p)
  = (2 + 2 * List.length (IntermediatePage.texts p))%nat.
Proof.
  intros Hc Hclean. unfold clean_page in Hclean.
  apply andb_true_iff in Hclean. destruct Hclean as [Hclean Hthumb].
  apply andb_true_iff in Hclean. destruct Hclean as [Hid Hruns].
  assert (Hm : markup c = true) by (destruct Hc as [->| ->]; reflexivity).
  unfold lazyRenderPageDiv; cbv zeta.
  destruct (getThumbnail p 0.3%float) as [[|u url]|];
    rewrite !occurrences_app;
    rewrite (spans_angle_count c _ Hc Hruns);
    rewrite (occurrences_markup_free c _ Hm Hid);
    rewrite !(occurrences_markup_free c (cssPxOrPercent _) Hm
                (markup_free_cssPxOrPercent _));
    try rewrite (occurrences_markup_free c (u :: url) Hm Hthumb);
    destruct Hc as [->| ->]; count_literals;
    change (occurrences ?x []) with 0%nat; lia.
Qed.

(** X16: in the fragment of a document whose ids, colours, font families
    and thumbnail URLs hold no markup character, the opening angle
    brackets are exactly those of the tags: four for the container and
    its style block, two for every page and two for every run; the same
    holds for the closing angle brackets.  No content adds or removes a
    tag. *)
Theorem decodeToHtml_tag_count
  (getThumbnail : IntermediatePage.t -> number -> option jsstring)
  (doc : IntermediateDocument.t) (c : codeUnit) :
  c = cu "<" \/ c = cu ">" ->
  forallb (clean_page getThumbnail) (IntermediateDocument.pages doc) = true ->
  occurrences c (decodeToHtml getThumbnail doc)
  = (4 + list_sum
           (map (fun p => 2 + 2 * List.length (IntermediatePage.texts p))
                (IntermediateDocument.pages doc)))%nat.
Proof.
  intros Hc Hclean. unfold decodeToHtml; cbv zeta.
  rewrite !occurrences_app, occurrences_join_nil, map_map.
  assert (Hpages :
            list_sum
              (map (fun p => occurrences c (lazyRenderPageDiv getThumbnail p))
                   (IntermediateDocument.pages doc))
            = list_sum
                (map (fun p =>
                        2 + 2 * List.length (IntermediatePage.texts p))
                     (IntermediateDocument.pages doc))).
  { induction (IntermediateDocument.pages doc) as [|p ps IH];
      [reflexivity|].
    simpl in Hclean. apply andb_true_iff in Hclean.
    destruct Hclean as [Hp Hps].
    rewrite !map_cons.
    change (list_sum (?a :: ?l)) with (a + list_sum l)%nat.
    rewrite (page_angle_count getThumbnail c p Hc Hp), (IH Hps).
    reflexivity. }
  rewrite Hpages.
  assert (Hstyle : occurrences c getFragmentStyle = 0%nat)
    by (destruct Hc as [->| ->]; vm_compute; reflexivity).
  rewrite Hstyle.
  destruct Hc as [->| ->]; count_literals; lia.
Qed.

Lemma decodeToHtml_tag_count_witness :
  occurrences (cu "<") (decodeToHtml (fun _ _ => None) sample_encoded)
  = (4 + list_sum
           (map (fun p => 2 + 2 * List.length (IntermediatePage.texts p))
                (IntermediateDocument.pages sample_encoded)))%nat.
Proof.
  apply decodeToHtml_tag_count; [left; reflexivity|].
  vm_compute. reflexivity.
Defined.

(** ** The wrapped document *)

(** X17: the document title cannot add markup to the document [decode]
    wraps: whatever the title and the pages are, the full document holds
    the angle brackets, double quotes and apostrophes of the fragment of
    [decodeToHtml] and those of the eleven tags around it (eleven of each
    angle bracket, eight double quotes, no apostrophe), and no other. *)
Theorem decode_title_adds_no_markup
  (getThumbnail : IntermediatePage.t -> number -> option jsstring)
  (doc : IntermediateDocument.t) :
  let inner := decodeToHtml getThumbnail doc in
  let full := fullHtml getThumbnail doc in
  occurrences (cu "<") full = (11 + occurrences (cu "<") inner)%nat
  /\ occurrences (cu ">") full = (11 + occurrences (cu ">") inner)%nat
  /\ occurrences 0x22%N full = (8 + occurrences 0x22%N inner)%nat
  /\ occurrences (cu "'") full = occurrences (cu "'") inner.
Proof.
  cbv zeta. unfold fullHtml; cbv zeta.
  generalize (escapeHtml match IntermediateDocument.title doc with
                         | [] => js "document"
                         | t => t
                         end)
             (markup_free_escapeHtml match IntermediateDocument.title doc with
                                     | [] => js "document"
                                     | t => t
                                     end).
  intros title Hfree.
  pose proof (occurrences_markup_free (cu "<") title eq_refl Hfree) as E1.
  pose proof (occurrences_markup_free (cu ">") title eq_refl Hfree) as E2.
  pose proof (occurrences_markup_free 0x22%N title eq_refl Hfree) as E3.
  pose proof (occurrences_markup_free (cu "'") title eq_refl Hfree) as E4.
  unfold occurrences, codeUnit in E1, E2, E3, E4 |- *.
  rewrite !count_occ_app, E1, E2, E3, E4.
  repeat match goal with
    | |- context [count_occ N.eq_dec (js ?s) ?c] =>
        let v := eval vm_compute in (count_occ N.eq_dec (js s) c) in
        change (count_occ N.eq_dec (js s) c) with v
    | |- context [count_occ N.eq_dec dq ?c] =>
        let v := eval vm_compute in (count_occ N.eq_dec dq c) in
        change (count_occ N.eq_dec dq c) with v
    end.
  repeat split; lia.
Qed.
